(** * Obstacle-aware hierarchical decomposition: a shallow embedding

    The Python modules under [phdcode/src] are embedded as Rocq functions,
    one Rocq module for each:

    - [numerical_solution.py]                   -> [NumericalSolution]
    - [strip_perimeter.py]                      -> [StripPerimeter]
    - [obstacle_aware_divider.py]               -> [ObstacleAwareDivider]
    - [optimal_axis_selection.py]               -> [OptimalAxisSelection]
    - [hierarchical_decomposition_algorithm.py] -> [HierarchicalDecomposition]
    - [kd_tree_perimeter_decomposition.py]      -> [KDTreePartitioning]
    - [save_partitions.py], its aspect ratio    -> [SavePartitions]

    Python floats are read as exact rationals ([Q]); a comparison of two
    floats is the comparison of the two rationals ([Qeq], never Leibniz
    equality), and a float division by zero raises [ZeroDivisionError].
    Rounding, infinities and NaN are outside the model: the value of a
    float computation is the exact rational here, which the float of the
    source approximates.  Every call into shapely is a field of the class
    [Shapely], a total function: what shapely itself raises (a
    [GEOSException] on the NaN bounds of an empty region, an
    [AttributeError] on an obstacle that has no [exterior]) is outside the
    model too, and a statement on what a function raises is made for the
    inputs on which shapely returns.  [BoxGeometry] is an instance of the
    class on which the examples run.

    Part I is the embedding, Part II the vocabulary of the statements, and
    Part III the proofs. *)

From Stdlib Require Import QArith Qabs Lqa ZArith Lia List String Bool Sorted.
Import ListNotations.
Local Open Scope Q_scope.

(** * Part I: the embedding *)

(** ** Numbers and exceptions *)

Module Py.

(** [x < y] on floats. *)
Definition Qltb (x y : Q) : bool := negb (Qle_bool y x).
(** [x <= y] on floats. *)
Definition Qleb (x y : Q) : bool := Qle_bool x y.
(** [x == y] on floats. *)
Definition Qeqb (x y : Q) : bool := Qeq_bool x y.

(** The exceptions the embedded code raises itself, each by a [raise] of
    the source or by a float division. *)
Inductive exn : Type :=
| ValueError_Brent        (* "Brent: f(a)*f(b) must be <0 ..." *)
| ValueError_Newton       (* "Newton: derivative near zero => fails" *)
| ValueError_Divide       (* raised by [divide_region] *)
| RuntimeError_NoStrip    (* "No strip of interest found ..." *)
| ZeroDivisionError.

(** A computation that returns a value or raises. *)
Inductive result (A : Type) : Type :=
| Ok (a : A)
| Raise (e : exn).
Arguments Ok {A} a.
Arguments Raise {A} e.

Definition bind {A B : Type} (m : result A) (k : A -> result B) : result B :=
  match m with
  | Ok a => k a
  | Raise e => Raise e
  end.

(** [try: m except Exception: h]. *)
Definition try_except {A : Type} (m : result A) (h : result A) : result A :=
  match m with
  | Ok a => Ok a
  | Raise _ => h
  end.

(** Float division: [x / y] raises when [y == 0]. *)
Definition div (x y : Q) : result Q :=
  if Qeqb y 0 then Raise ZeroDivisionError else Ok (x / y).

Definition raises {A : Type} (e : exn) (m : result A) : bool :=
  match m, e with
  | Raise ValueError_Brent, ValueError_Brent => true
  | Raise ValueError_Newton, ValueError_Newton => true
  | Raise ValueError_Divide, ValueError_Divide => true
  | Raise RuntimeError_NoStrip, RuntimeError_NoStrip => true
  | Raise ZeroDivisionError, ZeroDivisionError => true
  | _, _ => false
  end.

End Py.

Declare Scope py_scope.
Delimit Scope py_scope with py.
Notation "x <- m ;; k" := (Py.bind m (fun x => k))
  (at level 61, m at next level, right associativity) : py_scope.

(** ** numerical_solution.py *)

Module NumericalSolution.
Import Py.
Local Open Scope py_scope.

(** The local variables of the loop of [solve_for_root_brent]. *)
Record brent_vars : Type := BrentVars {
  bv_a : Q; bv_b : Q; bv_c : Q;
  bv_fa : Q; bv_fb : Q; bv_fc : Q;
  bv_d : Q; bv_e : Q
}.

(** How the loop of [solve_for_root_brent] is left: by the [return b] of
    the convergence check, or by the [return b] after the loop. *)
Inductive brent_exit : Type :=
| Converged (b : Q)
| Exhausted (b : Q).

Definition exit_value (x : brent_exit) : Q :=
  match x with Converged b => b | Exhausted b => b end.

(** The candidate [s]: inverse quadratic interpolation, else secant. *)
Definition brent_candidate (v : brent_vars) : result Q :=
  let '(BrentVars a b c fa fb fc _ _) := v in
  if negb (Qeqb fa fc) && negb (Qeqb fb fc) then
    t1 <- div (a * fb * fc) ((fa - fb) * (fa - fc)) ;;
    t2 <- div (b * fa * fc) ((fb - fa) * (fb - fc)) ;;
    t3 <- div (c * fa * fb) ((fc - fa) * (fc - fb)) ;;
    Ok (t1 + t2 + t3)
  else
    q <- div (fb * (b - a)) (fb - fa) ;;
    Ok (b - q).

(** [abs(fa) < abs(fb)]: swap [a, b] and [fa, fb]. *)
Definition brent_swap (v : brent_vars) : brent_vars :=
  let '(BrentVars a b c fa fb fc d e) := v in
  if Qltb (Qabs fa) (Qabs fb)
  then BrentVars b a c fb fa fc d e
  else v.

(** One pass through the body of the [for] loop, after the convergence
    check. *)
Definition brent_body (f : Q -> Q) (v : brent_vars) : result brent_vars :=
  let '(BrentVars a b c fa fb fc d e) := v in
  s <- brent_candidate v ;;
  let cond :=
    if Qltb a b
    then Qltb s ((3 * a + b) / 4) || Qltb b s
    else Qltb ((3 * a + b) / 4) s || Qltb s b in
  let '(s, d, e) :=
    if cond || Qleb (Qabs (b - c) / 2) (Qabs (s - b))
    then ((a + b) / 2, b - a, b - a)
    else (s, e, e) in
  let fs := f s in
  let c := b in
  let fc := fb in
  let v' :=
    if Qltb (fa * fs) 0
    then BrentVars a s c fa fs fc d e
    else BrentVars s b c fs fb fc d e in
  Ok (brent_swap v').

(** [for iteration in range(max_iter): ...] followed by [return b]. *)
Fixpoint brent_loop (f : Q -> Q) (tol : Q) (max_iter : nat) (v : brent_vars)
  : result brent_exit :=
  match max_iter with
  | O => Ok (Exhausted (bv_b v))
  | S n =>
      if Qltb (Qabs (bv_fb v)) tol || Qltb (Qabs (bv_b v - bv_a v)) tol
      then Ok (Converged (bv_b v))
      else v' <- brent_body f v ;; brent_loop f tol n v'
  end.

(** The variables after [n] passes through the body, with no convergence
    check in between. *)
Fixpoint brent_after (f : Q -> Q) (n : nat) (v : brent_vars) : result brent_vars :=
  match n with
  | O => Ok v
  | S n' => v' <- brent_body f v ;; brent_after f n' v'
  end.

(** The variables on entry to the loop. *)
Definition brent_init (f : Q -> Q) (a b : Q) : brent_vars :=
  let fa := f a in
  let fb := f b in
  let '(a, b, fa, fb) :=
    if Qltb (Qabs fa) (Qabs fb) then (b, a, fb, fa) else (a, b, fa, fb) in
  BrentVars a b a fa fb fa (b - a) (b - a).

Definition solve_for_root_brent_exit (f : Q -> Q) (a b tol : Q) (max_iter : nat)
  : result brent_exit :=
  if Qltb 0 (f a * f b) then Raise ValueError_Brent
  else brent_loop f tol max_iter (brent_init f a b).

Definition solve_for_root_brent (f : Q -> Q) (a b tol : Q) (max_iter : nat)
  : result Q :=
  x <- solve_for_root_brent_exit f a b tol max_iter ;; Ok (exit_value x).

Fixpoint solve_for_root_newton_raphson (f f_prime : Q -> Q) (tol : Q)
    (max_iter : nat) (x : Q) : result Q :=
  match max_iter with
  | O => Ok x
  | S n =>
      let fx := f x in
      let fpx := f_prime x in
      if Qltb (Qabs fx) tol then Ok x
      else if Qltb (Qabs fpx) (1 # 10000000) then Raise ValueError_Newton
      else
        q <- div fx fpx ;;
        let x_new := x - q in
        if Qltb (Qabs (x_new - x)) tol then Ok x_new
        else solve_for_root_newton_raphson f f_prime tol n x_new
  end.

Definition solve_for_root_with_defensive_newton_rhapson
    (f f_prime : Q -> Q) (x0 : Q) (bracket : Q * Q)
    (tol : Q) (max_iter_nr max_iter_brent : nat) : result Q :=
  try_except
    (solve_for_root_newton_raphson f f_prime tol max_iter_nr x0)
    (solve_for_root_brent f (fst bracket) (snd bracket) tol max_iter_brent).

(** The defaults [tol=1e-7] and [max_iter=100]. *)
Definition default_tol : Q := 1 # 10000000.
Definition default_max_iter : nat := 100.

End NumericalSolution.

(** ** The geometry library

    Every call into shapely (and [math.sqrt]) is a field of this class; the
    embedded code is written against it, as the Python code is written
    against shapely.  [TLinearRing] is the type of a polygon's [exterior]. *)

Inductive gtype : Type :=
| TPoint | TLineString | TLinearRing | TPolygon
| TMultiPoint | TMultiLineString | TMultiPolygon | TGeometryCollection.

Definition gtype_eqb (s t : gtype) : bool :=
  match s, t with
  | TPoint, TPoint | TLineString, TLineString | TLinearRing, TLinearRing
  | TPolygon, TPolygon | TMultiPoint, TMultiPoint
  | TMultiLineString, TMultiLineString | TMultiPolygon, TMultiPolygon
  | TGeometryCollection, TGeometryCollection => true
  | _, _ => false
  end.

Definition point : Type := (Q * Q)%type.

Class Shapely : Type := {
  geom : Type;
  geom_type : geom -> gtype;
  is_empty : geom -> bool;
  is_valid : geom -> bool;
  has_z : geom -> bool;
  drop_z : geom -> geom;              (* transform(lambda x, y, z=None: (x, y), g) *)
  bounds : geom -> Q * Q * Q * Q;     (* (minx, miny, maxx, maxy) *)
  area : geom -> Q;
  length : geom -> Q;
  coords : geom -> list point;
  exterior : geom -> geom;
  boundary : geom -> geom;
  geoms : geom -> list geom;
  intersects : geom -> geom -> bool;
  intersection : geom -> geom -> geom;
  difference : geom -> geom -> geom;
  unary_union : list geom -> geom;
  make_valid : geom -> geom;
  buffer0 : geom -> geom;             (* g.buffer(0) *)
  box : Q -> Q -> Q -> Q -> geom;     (* box(minx, miny, maxx, maxy) *)
  Polygon : list point -> geom;
  LineString : list point -> geom;
  MultiLineString : list geom -> geom;
  math_sqrt : Q -> Q
}.

(** The axis of a sweep: the strings ['x'] and ['y'] of the source. *)
Inductive axis : Type := X | Y.

Definition axis_eqb (a b : axis) : bool :=
  match a, b with X, X | Y, Y => true | _, _ => false end.

(** ** Python containers keyed by floats *)

Module PyDict.

(** A [dict] with float keys, in insertion order; keys compare by [==]. *)
Definition t (V : Type) : Type := list (Q * V).

Fixpoint get {V : Type} (d : t V) (k : Q) : option V :=
  match d with
  | [] => None
  | (k', v) :: d' => if Py.Qeqb k k' then Some v else get d' k
  end.

(** [d[k] = v]. *)
Fixpoint set {V : Type} (d : t V) (k : Q) (v : V) : t V :=
  match d with
  | [] => [(k, v)]
  | (k', v') :: d' =>
      if Py.Qeqb k k' then (k', v) :: d' else (k', v') :: set d' k v
  end.

Definition keys {V : Type} (d : t V) : list Q := map fst d.

(** Adding [x] to a sorted list without repeats ([set.add] then [sorted]). *)
Fixpoint insert (x : Q) (l : list Q) : list Q :=
  match l with
  | [] => [x]
  | y :: l' =>
      match x ?= y with
      | Lt => x :: y :: l'
      | Eq => y :: l'
      | Gt => y :: insert x l'
      end
  end.

(** [sorted(set(l))]. *)
Definition sorted_set (l : list Q) : list Q :=
  fold_left (fun acc x => insert x acc) l [].

End PyDict.

(** ** strip_perimeter.py *)

Module StripPerimeter.
Import Py.

Section WithShapely.
Context {K : Shapely}.

Definition isinstance_Polygon (g : geom) : bool := gtype_eqb (geom_type g) TPolygon.
Definition isinstance_MultiPolygon (g : geom) : bool :=
  gtype_eqb (geom_type g) TMultiPolygon.
(** [LinearRing] is a subclass of [LineString]. *)
Definition isinstance_LineString (g : geom) : bool :=
  gtype_eqb (geom_type g) TLineString || gtype_eqb (geom_type g) TLinearRing.
Definition isinstance_MultiLineString (g : geom) : bool :=
  gtype_eqb (geom_type g) TMultiLineString.
Definition isinstance_GeometryCollection (g : geom) : bool :=
  gtype_eqb (geom_type g) TGeometryCollection.

(** [bool(g)] of a geometry: it is not empty. *)
Definition truthy (g : geom) : bool := negb (is_empty g).

Definition minx_of (g : geom) : Q := let '(a, _, _, _) := bounds g in a.
Definition miny_of (g : geom) : Q := let '(_, b, _, _) := bounds g in b.

(** The module-level [validate_and_fix_geometries]. *)
Definition validate_and_fix_geometries (region : geom) (obstacles : list geom)
  : geom * list geom :=
  let region := if negb (is_valid region) then buffer0 region else region in
  let fixed_obstacles :=
    map (fun obs => if negb (is_valid obs) then buffer0 obs else obs) obstacles in
  (region, fixed_obstacles).

(** A strip [(c_prev, c_curr, strip_polygon)]. *)
Definition strip : Type := (Q * Q * geom)%type.

(** The attributes of a [Strip] object. *)
Record Strip : Type := MkStrip {
  region : geom;
  obstacles : list geom;
  axis_ : axis;
  events : list Q;
  strips : list strip;
  per_strip_perimeters : list ((Q * Q) * Q);
  cumulative_perimeters : PyDict.t Q
}.

Definition _validate_2d (geometry : geom) : geom :=
  if has_z geometry then drop_z geometry else geometry.

(** [None] stands for Python's [None]. *)
Definition _get_region_boundary (self : Strip) : option geom :=
  if is_empty (region self) then None
  else if isinstance_Polygon (region self) then
    Some (LineString (coords (exterior (region self))))
  else if isinstance_MultiPolygon (region self) then
    let boundary_parts :=
      map (fun poly => LineString (coords (exterior poly)))
          (filter (fun poly => negb (is_empty poly)) (geoms (region self))) in
    match boundary_parts with
    | [b] => Some b
    | _ => Some (unary_union boundary_parts)
    end
  else Some (boundary (region self)).

(** The polygons of an obstacle: [obs.geoms if isinstance(obs, MultiPolygon)
    else [obs]]. *)
Definition parts_of (obs : geom) : list geom :=
  if isinstance_MultiPolygon obs then geoms obs else [obs].

Definition define_events (self : Strip) : list Q :=
  let '(minx, miny, maxx, maxy) := bounds (region self) in
  match axis_ self with
  | X =>
      PyDict.sorted_set
        ([minx; maxx] ++
         flat_map (fun obs =>
           flat_map (fun g => map fst (coords (exterior g))) (parts_of obs))
           (obstacles self))
  | Y =>
      PyDict.sorted_set
        ([miny; maxy] ++
         flat_map (fun obs =>
           flat_map (fun g => map snd (coords (exterior g))) (parts_of obs))
           (obstacles self))
  end.

(** The pairs [(l[i-1], l[i])] for [i] in [range(1, len(l))]. *)
Fixpoint consecutive {A : Type} (l : list A) : list (A * A) :=
  match l with
  | [] => []
  | x :: l' =>
      match l' with
      | [] => []
      | y :: _ => (x, y) :: consecutive l'
      end
  end.

Definition create_strips (self : Strip) : list strip :=
  map (fun '(c_prev, c_curr) =>
         let '(minx, miny, maxx, maxy) := bounds (region self) in
         let strip_poly :=
           match axis_ self with
           | X => box c_prev miny c_curr maxy
           | Y => box minx c_prev maxx c_curr
           end in
         (c_prev, c_curr, strip_poly))
      (consecutive (events self)).

(** [None] when nothing is left; a geometry otherwise. *)
Definition _flatten_to_lines (g : geom) : option geom :=
  if is_empty g then None
  else if isinstance_LineString g then Some g
  else if isinstance_MultiLineString g then Some g
  else if isinstance_GeometryCollection g then
    let lines :=
      flat_map (fun h =>
        if is_empty h then []
        else if isinstance_LineString h then [h]
        else if isinstance_MultiLineString h then geoms h
        else []) (geoms g) in
    match lines with
    | [] => None
    | [l] => Some l
    | _ => Some (MultiLineString lines)
    end
  else None.

Definition _exclude_aligned_portions (edge region_boundary : geom) : option geom :=
  let aligned_portion := intersection edge region_boundary in
  if is_empty aligned_portion then Some edge
  else
    let unaligned_portion := difference edge aligned_portion in
    if is_empty unaligned_portion then None
    else _flatten_to_lines unaligned_portion.

(** [eps] is the default [1e-9]; a non-empty line has two coordinates. *)
Definition is_edge_collinear_with_coord (edge : geom) (coord : Q) (ax : axis) : bool :=
  let eps := 1 # 1000000000 in
  let '(x1, y1) := nth 0 (coords edge) (0, 0) in
  let '(x2, y2) := nth 1 (coords edge) (0, 0) in
  match ax with
  | X => Qltb (Qabs (x1 - coord)) eps && Qltb (Qabs (x2 - coord)) eps
  | Y => Qltb (Qabs (y1 - coord)) eps && Qltb (Qabs (y2 - coord)) eps
  end.

(** The exterior rings of an obstacle, or [None] for [continue]. *)
Definition obstacle_boundaries (obs : geom) : option (list geom) :=
  if isinstance_Polygon obs then Some [exterior obs]
  else if isinstance_MultiPolygon obs then Some (map exterior (geoms obs))
  else None.

(** The edges [LineString([coords[i], coords[i+1]])] of a ring. *)
Definition ring_edges (ring : geom) : list geom :=
  map (fun '(p, q) => LineString [p; q]) (consecutive (coords ring)).

(** What one clipped edge adds to [total_perimeter]. *)
Definition clipped_edge_perimeter (self : Strip) (coord_prev : Q)
    (region_boundary clipped_edge : geom) : Q :=
  match _exclude_aligned_portions clipped_edge region_boundary with
  | None => 0
  | Some unaligned_edge =>
      if truthy unaligned_edge then
        if isinstance_LineString unaligned_edge then
          if negb (is_edge_collinear_with_coord unaligned_edge coord_prev (axis_ self))
          then length unaligned_edge else 0
        else if isinstance_MultiLineString unaligned_edge then
          fold_left (fun acc sub_line =>
            if negb (is_edge_collinear_with_coord sub_line coord_prev (axis_ self))
            then acc + length sub_line else acc)
            (geoms unaligned_edge) 0
        else 0
      else 0
  end.

Definition compute_strip_perimeter (self : Strip) (strip_poly : geom) : Q :=
  let coord_prev :=
    match axis_ self with
    | X => minx_of strip_poly
    | Y => miny_of strip_poly
    end in
  let strip_in_region := intersection strip_poly (region self) in
  if is_empty strip_in_region then 0
  else
    match _get_region_boundary self with
    | None => 0
    | Some region_boundary =>
        if is_empty region_boundary then 0
        else
          fold_left (fun total_perimeter obs =>
            match obstacle_boundaries obs with
            | None => total_perimeter
            | Some boundaries =>
                fold_left (fun total_perimeter bnd =>
                  fold_left (fun total_perimeter edge =>
                    let clipped_edge := intersection edge strip_in_region in
                    if is_empty clipped_edge then total_perimeter
                    else total_perimeter +
                         clipped_edge_perimeter self coord_prev region_boundary
                                                clipped_edge)
                    (ring_edges bnd) total_perimeter)
                  boundaries total_perimeter
            end)
            (obstacles self) 0
    end.

(** One pass through the loop of [compute_perimeters], on the running sum
    and both dicts. *)
Definition perimeters_step (self : Strip)
    (state : Q * list ((Q * Q) * Q) * PyDict.t Q) (s : strip)
  : Q * list ((Q * Q) * Q) * PyDict.t Q :=
  let '(accumulated_perimeter, per_strip, cumulative) := state in
  let '(coord_prev, coord_curr, strip_poly) := s in
  let perimeter := compute_strip_perimeter self strip_poly in
  let accumulated_perimeter := accumulated_perimeter + perimeter in
  (accumulated_perimeter,
   per_strip ++ [((coord_prev, coord_curr), perimeter)],
   PyDict.set cumulative coord_curr accumulated_perimeter).

Definition compute_perimeters (self : Strip) : Strip :=
  let '(_, per_strip, cumulative) :=
    fold_left (perimeters_step self) (strips self)
      (0, per_strip_perimeters self, cumulative_perimeters self) in
  MkStrip (region self) (obstacles self) (axis_ self) (events self) (strips self)
          per_strip cumulative.

(** [Strip(region, obstacles, axis)]. *)
Definition __init__ (region0 : geom) (obstacles0 : list geom) (ax : axis) : Strip :=
  let '(r, obs) := validate_and_fix_geometries region0 obstacles0 in
  let r := _validate_2d r in
  let obs := map _validate_2d obs in
  let self := MkStrip r obs ax [] [] [] [] in
  let self := MkStrip r obs ax (define_events self) [] [] [] in
  let self := MkStrip r obs ax (events self) (create_strips self) [] [] in
  compute_perimeters self.

Definition _create_partial_strip (self : Strip) (coord_start coord_end : Q) : geom :=
  let '(minx, miny, maxx, maxy) := bounds (region self) in
  match axis_ self with
  | X => box coord_start miny coord_end maxy
  | Y => box minx coord_start maxx coord_end
  end.

(** The last key that is [<= coord], scanning the sorted keys until the
    first [coord < event]. *)
Fixpoint last_event_before (coord : Q) (sorted_keys : list Q) (last_event : option Q)
  : option Q :=
  match sorted_keys with
  | [] => last_event
  | event :: rest =>
      if Qltb coord event then last_event
      else last_event_before coord rest (Some event)
  end.

(** The first strip with [last_event == coord_prev and coord < coord_curr]. *)
Fixpoint find_partial (last_event coord : Q) (l : list strip) : option Q :=
  match l with
  | [] => None
  | (coord_prev, coord_curr, _) :: l' =>
      if Qeqb last_event coord_prev && Qltb coord coord_curr
      then Some coord_prev
      else find_partial last_event coord l'
  end.

Definition query_accumulated_perimeter (self : Strip) (coord : Q) : Q :=
  match PyDict.get (cumulative_perimeters self) coord with
  | Some p => p
  | None =>
      let last_event :=
        last_event_before coord
          (PyDict.sorted_set (PyDict.keys (cumulative_perimeters self))) None in
      match last_event with
      | None => 0
      | Some last_event =>
          let cumulative_perimeter_query :=
            match PyDict.get (cumulative_perimeters self) last_event with
            | Some p => p
            | None => 0
            end in
          match find_partial last_event coord (strips self) with
          | Some coord_prev =>
              let partial_strip := _create_partial_strip self coord_prev coord in
              let partial_perimeter := compute_strip_perimeter self partial_strip in
              cumulative_perimeter_query + partial_perimeter
          | None => cumulative_perimeter_query
          end
      end
  end.

Definition sumQ (l : list Q) : Q := fold_left Qplus l 0.

Definition calculate_total_obstacle_perimeter (self : Strip) : Q :=
  match _get_region_boundary self with
  | Some region_boundary =>
      if is_empty region_boundary then
        sumQ (map length (filter isinstance_Polygon (obstacles self)))
        + sumQ (flat_map (fun mp => map length (geoms mp))
                         (filter isinstance_MultiPolygon (obstacles self)))
      else
        fold_left (fun total_perimeter obs =>
          match obstacle_boundaries obs with
          | None => total_perimeter
          | Some boundaries =>
              fold_left (fun total_perimeter bnd =>
                fold_left (fun total_perimeter edge =>
                  match _exclude_aligned_portions edge region_boundary with
                  | Some unaligned_edge =>
                      if truthy unaligned_edge
                      then total_perimeter + length unaligned_edge
                      else total_perimeter
                  | None => total_perimeter
                  end)
                  (ring_edges bnd) total_perimeter)
                boundaries total_perimeter
          end)
          (obstacles self) 0
  | None =>
      sumQ (map length (filter isinstance_Polygon (obstacles self)))
      + sumQ (flat_map (fun mp => map length (geoms mp))
                       (filter isinstance_MultiPolygon (obstacles self)))
  end.

Definition calculate_region_diagonal (self : Strip) : Q :=
  let '(minx, miny, maxx, maxy) := bounds (region self) in
  let width := maxx - minx in
  let height := maxy - miny in
  math_sqrt (width ^ 2 + height ^ 2).

Definition calculate_region_wcrt (self : Strip) : Q :=
  let diag := calculate_region_diagonal self in
  let obstacle_perim := calculate_total_obstacle_perimeter self in
  diag + (1 # 2) * obstacle_perim.

Definition calculate_region_diagonal_half (self : Strip) : Q :=
  let '(minx, miny, maxx, maxy) := bounds (region self) in
  let width := maxx - minx in
  let height := maxy - miny in
  match axis_ self with
  | X => math_sqrt (height ^ 2 + (width / 2) ^ 2)
  | Y => math_sqrt (width ^ 2 + (height / 2) ^ 2)
  end.

Definition calculate_target_wcrt (self : Strip) : Q :=
  let half_diag := calculate_region_diagonal_half self in
  let total_perim := calculate_total_obstacle_perimeter self in
  half_diag + (1 # 4) * total_perim.

Definition calculate_diagonal_at_coordinate (self : Strip) (coord : Q) : Q :=
  let '(minx, miny, maxx, maxy) := bounds (region self) in
  let width := maxx - minx in
  let height := maxy - miny in
  match axis_ self with
  | X => math_sqrt (height ^ 2 + (coord - minx) ^ 2)
  | Y => math_sqrt (width ^ 2 + (coord - miny) ^ 2)
  end.

Definition calculate_diagonal_right (self : Strip) (division_point : Q) : Q :=
  let '(minx, miny, maxx, maxy) := bounds (region self) in
  let width := maxx - minx in
  let height := maxy - miny in
  match axis_ self with
  | X => math_sqrt (height ^ 2 + (maxx - division_point) ^ 2)
  | Y => math_sqrt (width ^ 2 + (maxy - division_point) ^ 2)
  end.

Definition calculate_wcrt_left (self : Strip) (division_point : Q) : Q :=
  let diag_left := calculate_diagonal_at_coordinate self division_point in
  let perim_left := query_accumulated_perimeter self division_point in
  diag_left + (1 # 2) * perim_left.

Definition calculate_wcrt_right (self : Strip) (division_point : Q) : Q :=
  let diag_right := calculate_diagonal_right self division_point in
  let P_total := calculate_total_obstacle_perimeter self in
  let P_left := query_accumulated_perimeter self division_point in
  let P_right := P_total - P_left in
  diag_right + (1 # 2) * P_right.

(** [None] is the [ValueError] ("Coordinates are outside the region's
    x-bounds." or "... y-bounds."). *)
Definition query_custom_strip_perimeter (self : Strip) (coord1 coord2 : Q)
    (include_cumulative : bool) : option Q :=
  let '(coord1, coord2) :=
    if Qltb coord2 coord1 then (coord2, coord1) else (coord1, coord2) in
  let '(minx, miny, maxx, maxy) := bounds (region self) in
  let in_bounds :=
    match axis_ self with
    | X => (Qleb minx coord1 && Qleb coord1 maxx)
           && (Qleb minx coord2 && Qleb coord2 maxx)
    | Y => (Qleb miny coord1 && Qleb coord1 maxy)
           && (Qleb miny coord2 && Qleb coord2 maxy)
    end in
  if negb in_bounds then None
  else
    let custom_strip := _create_partial_strip self coord1 coord2 in
    let custom_strip_perimeter := compute_strip_perimeter self custom_strip in
    if include_cumulative then
      let cumulative_perimeter_before := query_accumulated_perimeter self coord1 in
      Some (cumulative_perimeter_before + custom_strip_perimeter)
    else Some custom_strip_perimeter.


(** [cumulative_perimeters.get(coord, 0.0)] at the upper bound of the strip
    polygon. *)
Definition calculate_wcrt_at_strip (self : Strip) (strip_poly : geom) : Q :=
  let '(_, _, xmax, ymax) := bounds strip_poly in
  let coord := match axis_ self with X => xmax | Y => ymax end in
  let diag_at_coord := calculate_diagonal_at_coordinate self coord in
  let cum_perim :=
    match PyDict.get (cumulative_perimeters self) coord with
    | Some p => p
    | None => 0
    end in
  diag_at_coord + (1 # 2) * cum_perim.

Definition query_wcrt_at_coordinate (self : Strip) (coord : Q) : Q :=
  let diag := calculate_diagonal_at_coordinate self coord in
  let cum_perim := query_accumulated_perimeter self coord in
  diag + (1 # 2) * cum_perim.

End WithShapely.
End StripPerimeter.

(** ** obstacle_aware_divider.py *)

Module ObstacleAwareDivider.
Import Py NumericalSolution.
Import StripPerimeter.
Local Open Scope py_scope.
Local Open Scope string_scope.

(** [float('inf')] is [None]; [x < m]. *)
Definition lt_inf (x : Q) (m : option Q) : bool :=
  match m with
  | None => true
  | Some m => Qltb x m
  end.

Section WithShapely.
Context {K : Shapely}.

(** The attributes of an [ObstacleAwareDivider]. *)
Record Divider : Type := MkDivider {
  sp : Strip;
  method : string;
  d_R : Q;
  P_R : Q;
  WCRT_total : Q;
  WCRT_target : Q
}.

Definition __init__ (strip_processor : Strip) (method0 : string) : Divider :=
  let d_R := calculate_region_diagonal strip_processor in
  let P_R := calculate_total_obstacle_perimeter strip_processor in
  MkDivider strip_processor method0 d_R P_R
            (d_R + (1 # 2) * P_R)
            (calculate_target_wcrt strip_processor).

Definition g (self : Divider) (cut_coord : Q) : Q :=
  calculate_wcrt_left (sp self) cut_coord - calculate_wcrt_right (sp self) cut_coord.

Definition g_prime (self : Divider) (cut_coord : Q) : Q :=
  let h := 1 # 1000000 in
  (g self (cut_coord + h) - g self (cut_coord - h)) / (2 * h).

(** [WCRT_left_j] and [WCRT_right_j] in the loop of
    [find_strip_of_interest]. *)
Definition WCRT_left_at (self : Divider) (coord_curr : Q) : Q :=
  let d_left_j := calculate_diagonal_at_coordinate (sp self) coord_curr in
  let P_left_j := query_accumulated_perimeter (sp self) coord_curr in
  d_left_j + (1 # 2) * P_left_j.

Definition WCRT_right_at (self : Divider) (coord_curr : Q) : Q :=
  let P_left_j := query_accumulated_perimeter (sp self) coord_curr in
  let P_right_j := P_R self - P_left_j in
  let d_right_j := calculate_diagonal_right (sp self) coord_curr in
  d_right_j + (1 # 2) * P_right_j.

(** The [for] loop of [find_strip_of_interest] over the remaining strips,
    with the current [best_strip] and [min_wcrt_diff]. *)
Fixpoint find_strip_loop (self : Divider) (l : list strip)
    (best_strip : option strip) (min_wcrt_diff : option Q) : option strip :=
  match l with
  | [] => best_strip
  | (coord_prev, coord_curr, strip_geometry) :: l' =>
      let WCRT_left_j := WCRT_left_at self coord_curr in
      let WCRT_right_j := WCRT_right_at self coord_curr in
      let wcrt_diff := Qabs (WCRT_left_j - WCRT_right_j) in
      let '(best_strip, min_wcrt_diff) :=
        if lt_inf wcrt_diff min_wcrt_diff
        then (Some (coord_prev, coord_curr, strip_geometry), Some wcrt_diff)
        else (best_strip, min_wcrt_diff) in
      if Qltb WCRT_right_j WCRT_left_j
      then Some (coord_prev, coord_curr, strip_geometry)
      else find_strip_loop self l' best_strip min_wcrt_diff
  end.

Definition find_strip_of_interest (self : Divider) : option strip :=
  find_strip_loop self (strips (sp self)) None None.

Definition get_obstacles_within_strip (self : Divider) (strip_geometry : geom)
  : list geom :=
  flat_map (fun obs =>
    if intersects strip_geometry obs then
      let clipped := make_valid (intersection strip_geometry obs) in
      if negb (is_empty clipped) then [clipped] else []
    else [])
    (obstacles (sp self)).

Definition _extract_edges (g0 : geom) : list (point * point) :=
  if is_empty g0 then []
  else if gtype_eqb (geom_type g0) TLineString then consecutive (coords g0)
  else
    let bnd := boundary g0 in
    if is_empty bnd then []
    else
      match geom_type bnd with
      | TLineString => consecutive (coords bnd)
      | TMultiLineString =>
          flat_map (fun ls => if negb (is_empty ls) then consecutive (coords ls) else [])
                   (geoms bnd)
      | TGeometryCollection =>
          flat_map (fun subgeom =>
                      if gtype_eqb (geom_type subgeom) TLineString
                      then consecutive (coords subgeom) else [])
                   (geoms bnd)
      | _ => []
      end.

(** The case of a strip: 1, 2 or 3. *)
Definition determine_case_for_strip (self : Divider) (s : strip) : Z :=
  let '(coord_prev, coord_curr, strip_geometry) := s in
  let obstacle_portions := get_obstacles_within_strip self strip_geometry in
  match obstacle_portions with
  | [] => 1%Z
  | _ =>
      let eff_perim := compute_strip_perimeter (sp self) strip_geometry in
      if Qltb eff_perim (1 # 1000000000) then 1%Z
      else
        let eps := 1 # 1000000000 in
        let degenerate '((x1, y1), (x2, y2)) :=
          match axis_ (sp self) with
          | X => Qltb (Qabs (x1 - x2)) eps && Qltb (Qabs (x1 - coord_curr)) eps
          | Y => Qltb (Qabs (y1 - y2)) eps && Qltb (Qabs (y1 - coord_curr)) eps
          end in
        if existsb (fun obs_geom => existsb degenerate (_extract_edges obs_geom))
                   obstacle_portions
        then 3%Z else 2%Z
  end.

(** The case handlers call [self.apply_numerical_method]; here it is the
    argument [solver]. *)
Section Handlers.
Variable solver : Q -> Q -> result Q.

Definition handle_case_1 (c_j_minus_1 c_j g_j_minus_1 g_j : Q) : result Q :=
  if Qltb (g_j_minus_1 * g_j) 0 then solver c_j_minus_1 c_j
  else Ok c_j.

Definition handle_case_2 (c_j_minus_1 c_j g_j_minus_1 g_j : Q) : result Q :=
  if Qltb (g_j_minus_1 * g_j) 0 then solver c_j_minus_1 c_j
  else Ok c_j.

Definition handle_case_3 (g_ : Q -> Q) (c_j_minus_1 c_j g_j_minus_1 g_j : Q)
  : result Q :=
  let delta := 1 # 1000000 in
  let c_j_minus_delta := c_j - delta in
  let g_j_minus_delta := g_ c_j_minus_delta in
  if Qleb g_j_minus_delta 0 then Ok c_j
  else if Qltb (g_j_minus_1 * g_j_minus_delta) 0
       then solver c_j_minus_1 c_j_minus_delta
       else Ok c_j.

End Handlers.

(** [apply_numerical_method] on the balance function [g_]. *)
Definition apply_numerical_method_on (method0 : string) (g_ g_prime_ : Q -> Q)
    (a b : Q) : result Q :=
  let bracket := (a, b) in
  if String.eqb method0 "brent" then
    solve_for_root_brent g_ a b default_tol default_max_iter
  else
    let x0 := (1 # 2) * (a + b) in
    solve_for_root_with_defensive_newton_rhapson g_ g_prime_ x0 bracket
      default_tol default_max_iter default_max_iter.

Definition apply_numerical_method (self : Divider) (a b : Q) : result Q :=
  apply_numerical_method_on (method self) (g self) (g_prime self) a b.

(** [Ok None] is the fall-through of the [if/elif] chain, which returns
    [None]. *)
Definition find_optimal_division_point (self : Divider) : result (option Q) :=
  match find_strip_of_interest self with
  | None => Raise RuntimeError_NoStrip
  | Some strip_interest =>
      let '(coord_j_minus_1, coord_j, strip_geometry) := strip_interest in
      let g_j := g self coord_j in
      let g_j_minus_1 := g self coord_j_minus_1 in
      let case := determine_case_for_strip self strip_interest in
      if (case =? 1)%Z then
        c <- handle_case_1 (apply_numerical_method self)
               coord_j_minus_1 coord_j g_j_minus_1 g_j ;; Ok (Some c)
      else if (case =? 2)%Z then
        c <- handle_case_2 (apply_numerical_method self)
               coord_j_minus_1 coord_j g_j_minus_1 g_j ;; Ok (Some c)
      else if (case =? 3)%Z then
        c <- handle_case_3 (apply_numerical_method self) (g self)
               coord_j_minus_1 coord_j g_j_minus_1 g_j ;; Ok (Some c)
      else Ok None
  end.

Definition _extract_polygonal_part (g0 : geom) : option geom :=
  if is_empty g0 then None
  else
    match geom_type g0 with
    | TPolygon => Some g0
    | TMultiPolygon => Some g0
    | TLineString | TMultiLineString | TPoint | TMultiPoint => None
    | TGeometryCollection =>
        let polygons :=
          flat_map (fun h =>
            match geom_type h with
            | TPolygon => [h]
            | TMultiPolygon => geoms h
            | _ => []
            end) (geoms g0) in
        match polygons with
        | [] => None
        | _ =>
            let unified := unary_union polygons in
            match geom_type unified with
            | TPolygon | TMultiPolygon => Some unified
            | _ => None
            end
        end
    | TLinearRing => None
    end.

(** [cut_coord] is a float here: the [None] and type check of the source is
    made by the caller below. *)
Definition divide_region (self : Divider) (cut_coord : Q)
  : result ((geom * list geom) * (geom * list geom)) :=
  let '(minx, miny, maxx, maxy) := bounds (region (sp self)) in
  let '(left_box, right_box) :=
    match axis_ (sp self) with
    | X => (Polygon [(minx, miny); (cut_coord, miny); (cut_coord, maxy); (minx, maxy)],
            Polygon [(cut_coord, miny); (maxx, miny); (maxx, maxy); (cut_coord, maxy)])
    | Y => (Polygon [(minx, miny); (maxx, miny); (maxx, cut_coord); (minx, cut_coord)],
            Polygon [(minx, cut_coord); (maxx, cut_coord); (maxx, maxy); (minx, maxy)])
    end in
  let R_left := make_valid (intersection (region (sp self)) left_box) in
  let R_right := make_valid (intersection (region (sp self)) right_box) in
  if is_empty R_left || is_empty R_right then Raise ValueError_Divide
  else
    let left_obstacles :=
      flat_map (fun obs =>
        match _extract_polygonal_part (make_valid (intersection obs R_left)) with
        | Some p => [p] | None => [] end) (obstacles (sp self)) in
    let right_obstacles :=
      flat_map (fun obs =>
        match _extract_polygonal_part (make_valid (intersection obs R_right)) with
        | Some p => [p] | None => [] end) (obstacles (sp self)) in
    Ok (validate_and_fix_geometries R_left left_obstacles,
        validate_and_fix_geometries R_right right_obstacles).

End WithShapely.
End ObstacleAwareDivider.

(** ** optimal_axis_selection.py *)

Module OptimalAxisSelection.
Import Py.
Import StripPerimeter.
Local Open Scope py_scope.
Local Open Scope string_scope.

Section WithShapely.
Context {K : Shapely}.

(** A subregion with its obstacles: [(R_left, left_obstacles)]. *)
Definition subregion : Type := (geom * list geom)%type.

(** The dict [metrics] built by [evaluate_axis], by key. *)
Record metrics : Type := MkMetrics {
  NWCRT : Q;
  _MSDU : Q;
  _division_point : Q;
  _subregion_left : subregion;
  _subregion_right : subregion
}.

(** The attributes of an [OptimalAxisSelection]. *)
Record Selector : Type := MkSelector {
  sel_region : geom;
  sel_obstacles : list geom;
  numerical_method : string;
  tie_threshold : Q;
  user_metric : string
}.

(** [tie_threshold] has the default [1e-2]; [user_metric] is forced to
    ["NWCRT"]. *)
Definition __init__ (region0 : geom) (obstacles0 : list geom)
    (user_metric0 numerical_method0 : string) : Selector :=
  MkSelector region0 obstacles0 numerical_method0 (1 # 100)
             (if String.eqb user_metric0 "NWCRT" then user_metric0 else "NWCRT").

(** [w / h] is reached with [h >= 1e-9] only: the division cannot raise. *)
Definition _square_measure (polygon : geom) : Q :=
  if is_empty polygon then 1
  else
    let '(minx, miny, maxx, maxy) := bounds polygon in
    let w := maxx - minx in
    let h := maxy - miny in
    if Qltb w (1 # 1000000000) && Qltb h (1 # 1000000000) then 1
    else if Qltb w (1 # 1000000000) || Qltb h (1 # 1000000000) then 0
    else w / h.

(** Returns [(None, msdu)]; [eps] is the default [1e-9].  The quotient is
    the exact one: in floats it is rounded, and [1e-9] is no binary
    fraction, so that two squares give [999999999.9999999] and not [1e9]. *)
Definition calculate_squareness_metrics (sq_left sq_right : Q) : option Q * Q :=
  let eps := 1 # 1000000000 in
  let msdu := 1 / (((1 # 2) * ((sq_left - 1) ^ 2 + (sq_right - 1) ^ 2)) + eps) in
  (None, msdu).

(** [divide_region(None)] raises the [ValueError] of [divide_region].  The
    constructor of [Strip] is total here: on a region that is empty shapely
    raises inside it (the bounds are NaN), which this function does not
    show. *)
Definition evaluate_axis (self : Selector) (ax : axis) : result metrics :=
  let strip_manager := StripPerimeter.__init__ (sel_region self) (sel_obstacles self) ax in
  let divider := ObstacleAwareDivider.__init__ strip_manager (numerical_method self) in
  division_point <- ObstacleAwareDivider.find_optimal_division_point divider ;;
  match division_point with
  | None => Raise ValueError_Divide
  | Some division_point =>
      halves <- ObstacleAwareDivider.divide_region divider division_point ;;
      let '((R_left, left_obstacles), (R_right, right_obstacles)) := halves in
      let left_sm := StripPerimeter.__init__ R_left left_obstacles ax in
      let right_sm := StripPerimeter.__init__ R_right right_obstacles ax in
      let wcrt_left := calculate_region_wcrt left_sm in
      let wcrt_right := calculate_region_wcrt right_sm in
      let sum_wcrt := wcrt_left + wcrt_right in
      let diff_wcrt := Qabs (wcrt_left - wcrt_right) in
      let nwcrt := if Qltb (1 # 1000000000) sum_wcrt then diff_wcrt / sum_wcrt else 0 in
      let sq_left := _square_measure R_left in
      let sq_right := _square_measure R_right in
      let '(_, msdu) := calculate_squareness_metrics sq_left sq_right in
      Ok (MkMetrics nwcrt msdu division_point
                    (R_left, left_obstacles) (R_right, right_obstacles))
  end.

(** What [select_best_axis] returns: [best_axis], [overall_metrics] (the
    metrics of ['x'] and of ['y']), [best_div_point], [best_sub_left],
    [best_sub_right]. *)
Definition selection : Type :=
  (axis * (metrics * metrics) * Q * subregion * subregion)%type.

(** [select_best_axis], with [self.evaluate_axis] as the argument
    [evaluate]. *)
Definition select_best_axis_with (evaluate : axis -> result metrics)
    (tie_threshold0 : Q) : result selection :=
  metrics_x <- evaluate X ;;
  metrics_y <- evaluate Y ;;
  let value_x := NWCRT metrics_x in
  let value_y := NWCRT metrics_y in
  let diff := Qabs (value_x - value_y) in
  let '(best_axis, chosen_metrics) :=
    if Qleb diff tie_threshold0 then
      if Qltb (_MSDU metrics_y) (_MSDU metrics_x)
      then (X, metrics_x) else (Y, metrics_y)
    else
      if Qltb value_x value_y
      then (X, metrics_x) else (Y, metrics_y) in
  Ok (best_axis, (metrics_x, metrics_y),
      _division_point chosen_metrics,
      _subregion_left chosen_metrics,
      _subregion_right chosen_metrics).

Definition select_best_axis (self : Selector) : result selection :=
  select_best_axis_with (evaluate_axis self) (tie_threshold self).

End WithShapely.
End OptimalAxisSelection.

(** ** hierarchical_decomposition_algorithm.py *)

Module HierarchicalDecomposition.
Import Py.
Local Open Scope string_scope.

Definition DRONE_THRESHOLD : Q := 5.
Definition COVERAGE_RATIO_STOP : Q := 9 # 10.
Definition MIN_LARGEST_CONNECTED_SPACE : Q := DRONE_THRESHOLD.

(** [max(a, b)] of two floats. *)
Definition pymax (a b : Q) : Q := if Qltb a b then b else a.

Section WithShapely.
Context {K : Shapely}.

(** A final partition: [(region, obstacles, axis_stack, is_valid)]. *)
Definition partition : Type := (geom * list geom * list axis * bool)%type.

(** The attributes of a [HierarchicalDecomposition] that never change. *)
Record Decomposition : Type := MkDecomposition {
  region : geom;
  obstacles : list geom;
  max_depth : Z;
  metrics : string;
  numerical_method : string;
  min_dimension_threshold : Q;
  check_connectivity : bool;
  allow_fallback_axis : bool;
  mode : string
}.

(** The two lists the recursion mutates. *)
Record store : Type := MkStore {
  partitions : list partition;
  axis_stack : list axis
}.

Definition _validate_geometry (g : geom) : geom :=
  if negb (is_valid g) then make_valid g else g.

Definition __init__ (region0 : geom) (obstacles0 : list geom) (max_depth0 : Z)
    (metrics0 numerical_method0 : string) (min_dimension_threshold0 : Q)
    (check_connectivity0 allow_fallback_axis0 : bool) (mode0 : string)
  : Decomposition * store :=
  (MkDecomposition (_validate_geometry region0) (map _validate_geometry obstacles0)
     max_depth0 metrics0 numerical_method0 min_dimension_threshold0
     check_connectivity0 allow_fallback_axis0 mode0,
   MkStore [] []).

(** [self.partitions.append(p)]. *)
Definition append_partition (p : partition) (st : store) : store :=
  MkStore (partitions st ++ [p]) (axis_stack st).

(** [self.axis_stack.append(axis)] and [self.axis_stack.pop()]. *)
Definition push_axis (ax : axis) (st : store) : store :=
  MkStore (partitions st) (axis_stack st ++ [ax]).
Definition pop_axis (st : store) : store :=
  MkStore (partitions st) (removelast (axis_stack st)).

Definition sum_area (obstacles0 : list geom) : Q :=
  fold_left (fun acc ob => acc + area ob) obstacles0 0.

(** [max()] of no polygon raises inside the [try]: the result is [0.0]. *)
Definition _compute_largest_free_space (region0 : geom) (obstacles0 : list geom) : Q :=
  let union_obs := unary_union obstacles0 in
  let free_space := difference region0 union_obs in
  if is_empty free_space then 0
  else
    match geom_type free_space with
    | TPolygon => area free_space
    | TMultiPolygon =>
        match map area (geoms free_space) with
        | [] => 0
        | a :: l => fold_left pymax l a
        end
    | _ =>
        fold_left (fun max_area g =>
          match geom_type g with
          | TPolygon | TMultiPolygon => pymax max_area (area g)
          | _ => max_area
          end) (geoms free_space) 0
    end.

Definition _has_single_connected_free_space (region0 : geom) (obstacles0 : list geom)
  : bool :=
  let largest_area := _compute_largest_free_space region0 obstacles0 in
  Qleb DRONE_THRESHOLD largest_area.

Definition _is_subregion_valid (self : Decomposition) (region0 : geom)
    (obstacles0 : list geom) : bool :=
  if is_empty region0 then false
  else if negb (is_valid region0) then false
  else
    let '(minx, miny, maxx, maxy) := bounds region0 in
    let width := maxx - minx in
    let height := maxy - miny in
    if Qltb width (min_dimension_threshold self)
       || Qltb height (min_dimension_threshold self) then false
    else
      let region_area := area region0 in
      let obs_area_sum := sum_area obstacles0 in
      if Qleb (region_area - (1 # 1000000000)) obs_area_sum then false
      else
        let coverage_ratio :=
          if Qltb (1 # 1000000000000) region_area
          then obs_area_sum / region_area else 1 in
        if Qleb COVERAGE_RATIO_STOP coverage_ratio
           && Qltb (_compute_largest_free_space region0 obstacles0) DRONE_THRESHOLD
        then false
        else if check_connectivity self
                && negb (_has_single_connected_free_space region0 obstacles0)
        then false
        else true.

(** What the driver keeps of [select_best_axis()]: [best_axis],
    [best_div_pt], [subL], [subR]. *)
Definition choice : Type :=
  (axis * Q * (geom * list geom) * (geom * list geom))%type.

Section Recursion.

(** [OptimalAxisSelection(region, obstacles, user_metric, numerical_method)
    .select_best_axis()]; an exception is [None]. *)
Variable axis_selector : geom -> list geom -> string -> string -> option choice.

Variable self : Decomposition.

(** [_attempt_partition]; [decompose] is the recursive call
    [self._decompose], and [None] is a recursion that ran out of fuel. *)
Definition _attempt_partition
    (decompose : geom -> list geom -> Z -> store -> option (bool * store))
    (region0 : geom) (obstacles0 : list geom) (ax : axis) (depth : Z)
    (division_point : Q) (subL subR : geom * list geom) (st : store)
  : option (bool * store) :=
  let st := push_axis ax st in
  let '(minx, miny, maxx, maxy) := bounds region0 in
  let degenerate :=
    match ax with
    | X => Qleb division_point minx || Qleb maxx division_point
    | Y => Qleb division_point miny || Qleb maxy division_point
    end in
  if degenerate then Some (false, pop_axis st)
  else
    let '(R_left, left_obs) := subL in
    let '(R_right, right_obs) := subR in
    let left_ok := _is_subregion_valid self R_left left_obs in
    let right_ok := _is_subregion_valid self R_right right_obs in
    if negb left_ok && negb right_ok then Some (false, pop_axis st)
    else
      let produced_any := false in
      match (if left_ok
             then match decompose R_left left_obs (depth + 1)%Z st with
                  | Some (r, st) => Some (if r then true else produced_any, st)
                  | None => None
                  end
             else Some (produced_any, st)) with
      | None => None
      | Some (produced_any, st) =>
          match (if right_ok
                 then match decompose R_right right_obs (depth + 1)%Z st with
                      | Some (r, st) => Some (if r then true else produced_any, st)
                      | None => None
                      end
                 else Some (produced_any, st)) with
          | None => None
          | Some (produced_any, st) => Some (produced_any, pop_axis st)
          end
      end.

(** [_decompose]; the recursion is on [fuel], and [None] is no fuel left. *)
Fixpoint _decompose (fuel : nat) (region0 : geom) (obstacles0 : list geom)
    (depth : Z) (st : store) : option (bool * store) :=
  match fuel with
  | O => None
  | S fuel' =>
      if is_empty region0 then Some (false, st)
      else
        let region_area := area region0 in
        let obs_area := sum_area obstacles0 in
        let coverage_ratio :=
          if Qltb (1 # 1000000000000) region_area then obs_area / region_area else 1 in
        let free_area := region_area - obs_area in
        let largest_hole_area := _compute_largest_free_space region0 obstacles0 in
        if Qleb COVERAGE_RATIO_STOP coverage_ratio
           && (Qltb free_area DRONE_THRESHOLD
               && Qltb largest_hole_area DRONE_THRESHOLD)
        then
          let is_ok := _is_subregion_valid self region0 obstacles0 in
          Some (true, append_partition (region0, obstacles0, axis_stack st, is_ok) st)
        else if (max_depth self <=? depth)%Z then
          let is_ok := _is_subregion_valid self region0 obstacles0 in
          Some (is_ok, append_partition (region0, obstacles0, axis_stack st, is_ok) st)
        else if negb (_is_subregion_valid self region0 obstacles0) then Some (false, st)
        else
          match axis_selector region0 obstacles0 (metrics self) (numerical_method self) with
          | None => Some (false, st)
          | Some (best_axis, best_div_pt, subL, subR) =>
              match _attempt_partition (_decompose fuel') region0 obstacles0
                      best_axis depth best_div_pt subL subR st with
              | None => None
              | Some (true, st) => Some (true, st)
              | Some (false, st) =>
                  if allow_fallback_axis self then
                    let fallback_axis := match best_axis with X => Y | Y => X end in
                    match axis_selector region0 obstacles0 (metrics self)
                            (numerical_method self) with
                    | None => Some (false, st)
                    | Some (fb_axis, fb_div_pt, fb_subL, fb_subR) =>
                        if axis_eqb fb_axis best_axis then Some (false, st)
                        else _attempt_partition (_decompose fuel') region0 obstacles0
                               fb_axis depth fb_div_pt fb_subL fb_subR st
                    end
                  else Some (false, st)
              end
          end
  end.

(** The recursion from depth [0] goes at most [max_depth] levels down. *)
Definition fuel_for (max_depth0 : Z) : nat := S (Z.to_nat max_depth0).

(** [run()], from the store [st] the object holds. *)
Definition run_from (st : store) : option (list partition) :=
  match _decompose (fuel_for (max_depth self)) (region self) (obstacles self) 0%Z st with
  | None => None
  | Some (produced_any_valid, st) =>
      let st :=
        if String.eqb (mode self) "track_back" && negb produced_any_valid
        then append_partition (region self, obstacles self, axis_stack st, true) st
        else st in
      Some (partitions st)
  end.

(** [run()] on a freshly built object. *)
Definition run : option (list partition) := run_from (MkStore [] []).

End Recursion.

(** The selector the driver builds: [select_best_axis] of a new
    [OptimalAxisSelection]. *)
Definition optimal_axis_selector (region0 : geom) (obstacles0 : list geom)
    (user_metric numerical_method0 : string) : option choice :=
  match OptimalAxisSelection.select_best_axis
          (OptimalAxisSelection.__init__ region0 obstacles0 user_metric numerical_method0)
  with
  | Ok (best_axis, _, best_div_pt, subL, subR) => Some (best_axis, best_div_pt, subL, subR)
  | Raise _ => None
  end.

(** [HierarchicalDecomposition(region, obstacles, ...).run()]. *)
Definition decompose_region (region0 : geom) (obstacles0 : list geom) (max_depth0 : Z)
    (metrics0 numerical_method0 : string) (min_dimension_threshold0 : Q)
    (check_connectivity0 allow_fallback_axis0 : bool) (mode0 : string)
  : option (list partition) :=
  let '(self, st) :=
    __init__ region0 obstacles0 max_depth0 metrics0 numerical_method0
             min_dimension_threshold0 check_connectivity0 allow_fallback_axis0 mode0 in
  run_from optimal_axis_selector self st.

End WithShapely.
End HierarchicalDecomposition.

(** ** kd_tree_perimeter_decomposition.py *)

Module KDTreePartitioning.
Import Py.
Import StripPerimeter.

Definition DRONE_THRESHOLD : Q := 5.
Definition COVERAGE_RATIO_STOP : Q := 9 # 10.

Section WithShapely.
Context {K : Shapely}.

(** The module's own [validate_and_fix_geometries]. *)
Definition validate_and_fix_geometries (region0 : geom) (obstacles0 : list geom)
  : geom * list geom :=
  let region0 := if negb (is_valid region0) then buffer0 region0 else region0 in
  let fixed_obstacles :=
    map (fun obs => if negb (is_valid obs) then buffer0 obs else obs) obstacles0 in
  (region0, fixed_obstacles).

(** [None] stands for Python's [None]. *)
Definition validate_geometry (geometry : geom) : option geom :=
  let geometry := if negb (is_valid geometry) then make_valid geometry else geometry in
  if is_empty geometry
     || negb (isinstance_Polygon geometry || isinstance_MultiPolygon geometry)
  then None
  else Some geometry.

(** A stored partition [(region, obstacles)]; the region can be [None]. *)
Definition partition : Type := (option geom * list geom)%type.

(** The attributes of a [KDTreePartitioning] that never change. *)
Record KDTree : Type := MkKDTree {
  region : geom;
  obstacles : list geom;
  max_depth : Z;
  min_area_threshold : Q;
  advanced_checks : bool;
  check_connectivity : bool
}.

(** [self.partitions] starts as the empty list. *)
Definition __init__ (region0 : geom) (obstacles0 : list geom) (max_depth0 : Z)
    (min_area_threshold0 : Q) (advanced_checks0 check_connectivity0 : bool)
  : KDTree * list partition :=
  let '(r, obs) := validate_and_fix_geometries region0 obstacles0 in
  (MkKDTree r obs max_depth0 min_area_threshold0 advanced_checks0 check_connectivity0,
   []).

Definition sum_area (obstacles0 : list geom) : Q :=
  fold_left (fun acc ob => acc + area ob) obstacles0 0.

(** [max()] of no polygon raises inside the [try]: the result is [0.0]. *)
Definition _compute_largest_free_space (region0 : geom) (obstacles0 : list geom) : Q :=
  let union_obs := unary_union obstacles0 in
  let free_space := difference region0 union_obs in
  if is_empty free_space then 0
  else if isinstance_Polygon free_space then area free_space
  else if isinstance_MultiPolygon free_space then
    match map area (geoms free_space) with
    | [] => 0
    | a :: l => fold_left HierarchicalDecomposition.pymax l a
    end
  else
    fold_left (fun max_area g =>
      match geom_type g with
      | TPolygon | TMultiPolygon => HierarchicalDecomposition.pymax max_area (area g)
      | _ => max_area
      end) (geoms free_space) 0.

Definition _check_coverage_and_stop (region0 : geom) (obstacles0 : list geom) : bool :=
  let region_area := area region0 in
  let obs_area := sum_area obstacles0 in
  let coverage_ratio :=
    if Qltb (1 # 1000000000000) region_area then obs_area / region_area else 1 in
  let free_area := region_area - obs_area in
  let largest_hole_area := _compute_largest_free_space region0 obstacles0 in
  if Qleb COVERAGE_RATIO_STOP coverage_ratio then
    if Qltb free_area DRONE_THRESHOLD && Qltb largest_hole_area DRONE_THRESHOLD
    then true else false
  else false.

(** [region0] is [None] when [validate_geometry] gave [None]. *)
Definition _is_subregion_valid (self : KDTree) (region0 : option geom)
    (obstacles0 : list geom) : bool :=
  match region0 with
  | None => false
  | Some region0 =>
      if is_empty region0 then false
      else
        let '(minx, miny, maxx, maxy) := bounds region0 in
        let width := maxx - minx in
        let height := maxy - miny in
        if Qltb width (min_area_threshold self)
           || Qltb height (min_area_threshold self) then false
        else
          let region_area := area region0 in
          let obs_area_sum := sum_area obstacles0 in
          if Qleb (region_area - (1 # 1000000000)) obs_area_sum then false
          else if check_connectivity self
                  && Qltb (_compute_largest_free_space region0 obstacles0)
                          DRONE_THRESHOLD
          then false
          else true
  end.

(** The first [coord_curr] whose accumulated perimeter reaches
    [half_perimeter]; [None] when the loop ends without a [break]. *)
Fixpoint find_division_point (strip_manager : Strip) (half_perimeter : Q)
    (l : list strip) : option Q :=
  match l with
  | [] => None
  | (coord_prev, coord_curr, _) :: l' =>
      let cumulative_perimeter := query_accumulated_perimeter strip_manager coord_curr in
      if Qleb half_perimeter cumulative_perimeter then Some coord_curr
      else find_division_point strip_manager half_perimeter l'
  end.

(** [R = None] when a side of [R] is shorter than the threshold. *)
Definition drop_narrow (self : KDTree) (R : option geom) : option geom :=
  match R with
  | None => None
  | Some r =>
      let '(minx, miny, maxx, maxy) := bounds r in
      if Qltb (maxx - minx) (min_area_threshold self)
         || Qltb (maxy - miny) (min_area_threshold self)
      then None else Some r
  end.

(** [kd_tree_partition], on the list [self.partitions]; the recursion is on
    [fuel], and [None] is no fuel left.  [divide_region] raises nothing but
    its [ValueError], which is caught. *)
Fixpoint kd_tree_partition (fuel : nat) (self : KDTree) (region0 : geom)
    (obstacles0 : list geom) (depth : Z) (ax : axis) (partitions : list partition)
  : option (list partition) :=
  match fuel with
  | O => None
  | S fuel' =>
      if (depth <=? 0)%Z || Qltb (area region0) (min_area_threshold self) then
        Some (partitions ++ [(Some region0, obstacles0)])
      else
        match validate_geometry region0 with
        | None => Some (partitions ++ [(None, obstacles0)])
        | Some region0 =>
            if advanced_checks self && _check_coverage_and_stop region0 obstacles0 then
              Some (partitions ++ [(Some region0, obstacles0)])
            else
              let strip_manager := StripPerimeter.__init__ region0 obstacles0 ax in
              let total_perimeter := calculate_total_obstacle_perimeter strip_manager in
              let half_perimeter := total_perimeter / 2 in
              match find_division_point strip_manager half_perimeter
                      (strips strip_manager) with
              | None => Some (partitions ++ [(Some region0, obstacles0)])
              | Some division_point =>
                  let divider := ObstacleAwareDivider.__init__ strip_manager "brent"%string in
                  match ObstacleAwareDivider.divide_region divider division_point with
                  | Raise _ => Some (partitions ++ [(Some region0, obstacles0)])
                  | Ok ((R_left, left_obstacles), (R_right, right_obstacles)) =>
                      let R_left := validate_geometry R_left in
                      let R_right := validate_geometry R_right in
                      let R_left :=
                        if advanced_checks self
                           && negb (_is_subregion_valid self R_left left_obstacles)
                        then None else R_left in
                      let R_right :=
                        if advanced_checks self
                           && negb (_is_subregion_valid self R_right right_obstacles)
                        then None else R_right in
                      let R_left := drop_narrow self R_left in
                      let R_right := drop_narrow self R_right in
                      match R_left, R_right with
                      | None, None => Some (partitions ++ [(Some region0, obstacles0)])
                      | _, _ =>
                          let next_axis := match ax with X => Y | Y => X end in
                          match
                            match R_left with
                            | Some r =>
                                kd_tree_partition fuel' self r left_obstacles
                                  (depth - 1)%Z next_axis partitions
                            | None => Some partitions
                            end
                          with
                          | None => None
                          | Some partitions =>
                              match R_right with
                              | Some r =>
                                  kd_tree_partition fuel' self r right_obstacles
                                    (depth - 1)%Z next_axis partitions
                              | None => Some partitions
                              end
                          end
                      end
                  end
              end
        end
  end.

(** The recursion from [max_depth] stops at depth [0]. *)
Definition fuel_for (max_depth0 : Z) : nat := S (Z.to_nat max_depth0).

(** [run()], from the list [self.partitions] the object holds. *)
Definition run (self : KDTree) (partitions : list partition)
  : option (list partition) :=
  kd_tree_partition (fuel_for (max_depth self)) self (region self) (obstacles self)
    (max_depth self) X partitions.

End WithShapely.
End KDTreePartitioning.

(** ** save_partitions.py *)

Module SavePartitions.
Import Py.
Local Open Scope py_scope.

(** [min(a, b)] of two floats. *)
Definition pymin (a b : Q) : Q := if Qltb b a then b else a.

(** [compute_aspect_ratio(geometry, eps)]; the same function is in both
    kd-tree modules. *)
Definition compute_aspect_ratio {K : Shapely} (geometry : geom) (eps : Q) : result Q :=
  let '(minx, miny, maxx, maxy) := bounds geometry in
  let w := maxx - minx in
  let h := maxy - miny in
  if Qltb (Qabs w) eps || Qltb (Qabs h) eps then Ok 1
  else
    r1 <- div w h ;;
    r2 <- div h w ;;
    Ok (pymin r1 r2).

(** Its default [eps = 1e-9]. *)
Definition default_eps : Q := 1 # 1000000000.

End SavePartitions.

(** ** An instance of the geometry library: axis-parallel boxes

    Shapely restricted to geometry made of closed axis-parallel boxes
    [[x0, x1] x [y0, y1]]: rectangles, axis-parallel segments (a box that is
    flat in one direction) and points (flat in both).  It is what the
    examples below run on.  How it stands to shapely:

    - [intersection] of boxes is exact, and so is [difference] from a
      segment or a point (what the strip perimeters are computed with);
    - [difference] from a rectangle is exact when the other box covers the
      rectangle, does not meet its inside, or cuts it across from side to
      side: what remains is then empty, the rectangle, or one or two
      separate rectangles.  In the other cases (the other box bites a
      corner or a notch out of the rectangle, or lies inside it) what
      remains is not made of separate rectangles and cannot be written
      here: the rectangle is kept whole, which overstates the free space of
      [_compute_largest_free_space] by the area of the obstacle (no example
      below takes such a difference);
    - [area] and [length] add up the boxes of a geometry, which is exact as
      long as they do not overlap;
    - there is no invalid geometry ([is_valid] is always true), no third
      coordinate, and [math.sqrt] is rounded down to six decimals. *)

Module BoxGeometry.
Import Py.

Definition qmin (a b : Q) : Q := if Qleb a b then a else b.
Definition qmax (a b : Q) : Q := if Qleb a b then b else a.

(** [(x0, y0, x1, y1)] with [x0 <= x1] and [y0 <= y1]. *)
Definition bx : Type := (Q * Q * Q * Q)%type.

Inductive prim : Type :=
| PPoint (p : point)
| PLine (cs : list point)       (* LineString *)
| PRing (cs : list point)       (* LinearRing *)
| PPolygon (ext : list point).  (* a rectangle, by its closed exterior ring *)

Inductive bgeom : Type :=
| Empty
| Single (p : prim)
| Multi (t : gtype) (ps : list prim).

Definition seg_box (pq : point * point) : bx :=
  let '((x1, y1), (x2, y2)) := pq in
  (qmin x1 x2, qmin y1 y2, qmax x1 x2, qmax y1 y2).

Definition hull (b c : bx) : bx :=
  let '(x0, y0, x1, y1) := b in
  let '(u0, v0, u1, v1) := c in
  (qmin x0 u0, qmin y0 v0, qmax x1 u1, qmax y1 v1).

Definition points_box (cs : list point) : option bx :=
  match cs with
  | [] => None
  | (x, y) :: cs' => Some (fold_left (fun b '(u, v) => hull b (u, v, u, v)) cs' (x, y, x, y))
  end.

(** The boxes a geometry is the union of. *)
Definition prim_boxes (p : prim) : list bx :=
  match p with
  | PPoint (x, y) => [(x, y, x, y)]
  | PLine cs | PRing cs => map seg_box (StripPerimeter.consecutive cs)
  | PPolygon ext => match points_box ext with Some b => [b] | None => [] end
  end.

Definition boxes (g : bgeom) : list bx :=
  match g with
  | Empty => []
  | Single p => prim_boxes p
  | Multi _ ps => flat_map prim_boxes ps
  end.

Definition box_inter (b c : bx) : option bx :=
  let '(x0, y0, x1, y1) := b in
  let '(u0, v0, u1, v1) := c in
  let lx := qmax x0 u0 in
  let hx := qmin x1 u1 in
  let ly := qmax y0 v0 in
  let hy := qmin y1 v1 in
  if Qleb lx hx && Qleb ly hy then Some (lx, ly, hx, hy) else None.

(** [b] lies inside [c]. *)
Definition box_in (b c : bx) : bool :=
  let '(x0, y0, x1, y1) := b in
  let '(u0, v0, u1, v1) := c in
  Qleb u0 x0 && Qleb x1 u1 && Qleb v0 y0 && Qleb y1 v1.

Definition box_eqb (b c : bx) : bool := box_in b c && box_in c b.

(** 0 for a point, 1 for a segment, 2 for a rectangle. *)
Definition box_dim (b : bx) : nat :=
  let '(x0, y0, x1, y1) := b in
  ((if Qltb x0 x1 then 1 else 0) + (if Qltb y0 y1 then 1 else 0))%nat.

Definition box_prim (b : bx) : prim :=
  let '(x0, y0, x1, y1) := b in
  match box_dim b with
  | O => PPoint (x0, y0)
  | S O => PLine [(x0, y0); (x1, y1)]
  | _ => PPolygon [(x0, y0); (x1, y0); (x1, y1); (x0, y1); (x0, y0)]
  end.

(** Drops a box that repeats an earlier one or lies inside another one. *)
Fixpoint prune (seen rest : list bx) : list bx :=
  match rest with
  | [] => []
  | b :: rest' =>
      if existsb (box_in b) seen
         || existsb (fun c => box_in b c && negb (box_eqb b c)) rest'
      then prune seen rest'
      else b :: prune (b :: seen) rest'
  end.

(** The geometry of a union of boxes. *)
Definition assemble (bs : list bx) : bgeom :=
  match prune [] bs with
  | [] => Empty
  | [b] => Single (box_prim b)
  | bs' =>
      let t :=
        if forallb (fun b => Nat.eqb (box_dim b) 0) bs' then TMultiPoint
        else if forallb (fun b => Nat.eqb (box_dim b) 1) bs' then TMultiLineString
        else if forallb (fun b => Nat.eqb (box_dim b) 2) bs' then TMultiPolygon
        else TGeometryCollection in
      Multi t (map box_prim bs')
  end.

Definition b_intersection (g h : bgeom) : bgeom :=
  assemble
    (flat_map (fun b =>
       flat_map (fun c => match box_inter b c with Some d => [d] | None => [] end)
                (boxes h))
       (boxes g)).

(** [b] minus [c].  A point on a segment does not cut it, an overlapping
    segment does.  A rectangle loses what [c] covers of it when [c] covers
    it all or cuts it across, from bottom to top or from left to right; a
    box that only touches it takes nothing, and a rectangle that would be
    left with a notch, a missing corner or a hole is kept whole. *)
Definition box_minus (b c : bx) : list bx :=
  let '(x0, y0, x1, y1) := b in
  match box_inter b c with
  | None => [b]
  | Some (u0, v0, u1, v1) =>
      match box_dim b with
      | O => []
      | S O =>
          if Qltb x0 x1 then
            if Qltb u0 u1 then
              (if Qltb x0 u0 then [(x0, y0, u0, y1)] else [])
              ++ (if Qltb u1 x1 then [(u1, y0, x1, y1)] else [])
            else [b]
          else
            if Qltb v0 v1 then
              (if Qltb y0 v0 then [(x0, y0, x1, v0)] else [])
              ++ (if Qltb v1 y1 then [(x0, v1, x1, y1)] else [])
            else [b]
      | _ =>
          if box_in b c then []
          else if negb (Qltb u0 u1 && Qltb v0 v1) then [b]
          else if Qleb v0 y0 && Qleb y1 v1 then
            (if Qltb x0 u0 then [(x0, y0, u0, y1)] else [])
            ++ (if Qltb u1 x1 then [(u1, y0, x1, y1)] else [])
          else if Qleb u0 x0 && Qleb x1 u1 then
            (if Qltb y0 v0 then [(x0, y0, x1, v0)] else [])
            ++ (if Qltb v1 y1 then [(x0, v1, x1, y1)] else [])
          else [b]
      end
  end.

Definition b_difference (g h : bgeom) : bgeom :=
  assemble
    (fold_left (fun bs c => flat_map (fun b => box_minus b c) bs) (boxes h) (boxes g)).

Definition b_geom_type (g : bgeom) : gtype :=
  match g with
  | Empty => TGeometryCollection
  | Single (PPoint _) => TPoint
  | Single (PLine _) => TLineString
  | Single (PRing _) => TLinearRing
  | Single (PPolygon _) => TPolygon
  | Multi t _ => t
  end.

Definition b_is_empty (g : bgeom) : bool :=
  match boxes g with [] => true | _ => false end.

(** [(0, 0, 0, 0)] stands for the bounds of an empty geometry. *)
Definition b_bounds (g : bgeom) : Q * Q * Q * Q :=
  match boxes g with
  | [] => (0, 0, 0, 0)
  | b :: bs => fold_left hull bs b
  end.

Definition b_area (g : bgeom) : Q :=
  fold_left (fun acc '(x0, y0, x1, y1) => acc + (x1 - x0) * (y1 - y0)) (boxes g) 0.

(** The square root, rounded down to six decimals. *)
Definition b_sqrt (x : Q) : Q :=
  Z.sqrt (Qnum x * 1000000000000 / Zpos (Qden x)) # 1000000.

(** A box has the length of its outline: a segment its own length, a
    rectangle its perimeter. *)
Definition b_length (g : bgeom) : Q :=
  fold_left (fun acc '(x0, y0, x1, y1) =>
    match box_dim (x0, y0, x1, y1) with
    | S (S _) => acc + 2 * ((x1 - x0) + (y1 - y0))
    | _ => acc + ((x1 - x0) + (y1 - y0))
    end) (boxes g) 0.

Definition b_coords (g : bgeom) : list point :=
  match g with
  | Single (PPoint p) => [p]
  | Single (PLine cs) | Single (PRing cs) => cs
  | _ => []
  end.

Definition b_exterior (g : bgeom) : bgeom :=
  match g with
  | Single (PPolygon ext) => Single (PRing ext)
  | _ => Empty
  end.

Definition b_boundary (g : bgeom) : bgeom :=
  match g with
  | Single (PPolygon ext) => Single (PLine ext)
  | Multi TMultiPolygon ps =>
      Multi TMultiLineString
        (flat_map (fun p => match p with PPolygon ext => [PLine ext] | _ => [] end) ps)
  | _ => Empty
  end.

Definition b_geoms (g : bgeom) : list bgeom :=
  match g with
  | Multi _ ps => map Single ps
  | _ => []
  end.

(** Closes the ring when the last point is not the first. *)
Definition close_ring (cs : list point) : list point :=
  match cs with
  | [] => []
  | (x, y) :: _ =>
      let '(u, v) := last cs (x, y) in
      if Qeqb x u && Qeqb y v then cs else cs ++ [(x, y)]
  end.

Definition b_Polygon (cs : list point) : bgeom :=
  match cs with
  | [] => Empty
  | _ => Single (PPolygon (close_ring cs))
  end.

Definition b_box (minx miny maxx maxy : Q) : bgeom :=
  Single (PPolygon [(maxx, miny); (maxx, maxy); (minx, maxy); (minx, miny); (maxx, miny)]).

Definition b_LineString (cs : list point) : bgeom :=
  match cs with
  | [] => Empty
  | _ => Single (PLine cs)
  end.

Definition b_MultiLineString (gs : list bgeom) : bgeom :=
  Multi TMultiLineString
    (flat_map (fun g => match g with Single (PLine cs) => [PLine cs] | _ => [] end) gs).

#[export] Instance shapely : Shapely := {
  geom := bgeom;
  geom_type := b_geom_type;
  is_empty := b_is_empty;
  is_valid := fun _ => true;
  has_z := fun _ => false;
  drop_z := fun g => g;
  bounds := b_bounds;
  area := b_area;
  length := b_length;
  coords := b_coords;
  exterior := b_exterior;
  boundary := b_boundary;
  geoms := b_geoms;
  intersects := fun g h => negb (b_is_empty (b_intersection g h));
  intersection := b_intersection;
  difference := b_difference;
  unary_union := fun gs => assemble (flat_map boxes gs);
  make_valid := fun g => g;
  buffer0 := fun g => g;
  box := b_box;
  Polygon := b_Polygon;
  LineString := b_LineString;
  MultiLineString := b_MultiLineString;
  math_sqrt := b_sqrt
}.

(** The rectangle [[x0, x1] x [y0, y1]] as a polygon. *)
Definition rectangle (x0 y0 x1 y1 : Q) : bgeom :=
  b_Polygon [(x0, y0); (x1, y0); (x1, y1); (x0, y1)].


End BoxGeometry.

(** * Part II: the vocabulary of the statements *)

(** ** The root solver *)

Module SolverSpec.
Import NumericalSolution.

(** The invariant of Brent's loop: the ends of the bracket have no common
    sign, and [b] is the better end. *)
Definition brent_inv (v : brent_vars) : Prop :=
  bv_fa v * bv_fb v <= 0 /\ Qabs (bv_fb v) <= Qabs (bv_fa v).

(** [x] lies between [a] and [b], whichever of them is the smaller. *)
Definition between (a b x : Q) : Prop := (a <= x /\ x <= b) \/ (b <= x /\ x <= a).

(** Both ends of the current bracket lie in the bracket [[a0, b0]] the solver
    was given, and [fa], [fb] are the values of [f] there. *)
Definition brent_bracket (f : Q -> Q) (a0 b0 : Q) (v : brent_vars) : Prop :=
  between a0 b0 (bv_a v) /\ between a0 b0 (bv_b v)
  /\ bv_fa v = f (bv_a v) /\ bv_fb v = f (bv_b v).

(** What an exit of Brent's loop brings: a point of the bracket and, on
    convergence, a second point [y] of the bracket with no common sign with
    it, where [f] is not smaller, and either a residual or a distance to
    [y] below the tolerance. *)
Definition brent_exit_ok (f : Q -> Q) (a0 b0 tol : Q) (x : brent_exit) : Prop :=
  match x with
  | Converged r =>
      between a0 b0 r
      /\ exists y, between a0 b0 y
                   /\ f r * f y <= 0 /\ Qabs (f r) <= Qabs (f y)
                   /\ (Qabs (f r) < tol \/ Qabs (r - y) < tol)
  | Exhausted r => between a0 b0 r
  end.
End SolverSpec.

(** ** Strips and accumulated perimeters *)

Module StripSpec.
Import Py StripPerimeter.

(** A list of events in strictly increasing order. *)
Definition increasing (l : list Q) : Prop := StronglySorted Qlt l.

Section WithShapely.
Context {K : Shapely}.

(** The perimeter of the strip from [a] to [c], as [self] computes it. *)
Definition strip_perimeter (self : Strip) (a c : Q) : Q :=
  compute_strip_perimeter self (_create_partial_strip self a c).

(** The strips over the events [es], with [mk a c] the polygon of the strip
    from [a] to [c]. *)
Definition strips_of (mk : Q -> Q -> geom) (es : list Q) : list strip :=
  map (fun '(a, b) => (a, b, mk a b)) (consecutive es).

(** The bounds of the region along the axis of the sweep. *)
Definition axis_bounds (self : Strip) : Q * Q :=
  let '(minx, miny, maxx, maxy) := bounds (region self) in
  match axis_ self with
  | X => (minx, maxx)
  | Y => (miny, maxy)
  end.

(** The two ends of each strip. *)
Definition spans (l : list strip) : list (Q * Q) := map (fun '(a, b, _) => (a, b)) l.


End WithShapely.

(** [x] is one of the floats of [l]. *)
Definition has (l : list Q) (x : Q) : Prop := exists e, In e l /\ e == x.




(** In what follows [P a c] is the perimeter of the strip from [a] to [c]. *)

(** The entries [compute_perimeters] adds to [cumulative_perimeters], from
    the event [prev] with the sum [acc] so far. *)
Fixpoint running (P : Q -> Q -> Q) (acc : Q) (prev : Q) (rest : list Q) : PyDict.t Q :=
  match rest with
  | [] => []
  | e :: rest' => (e, acc + P prev e) :: running P (acc + P prev e) e rest'
  end.

(** The accumulated perimeter at [c], for [c] above the event [prev] whose
    accumulated perimeter is [s]. *)
Fixpoint walk (P : Q -> Q -> Q) (prev s : Q) (rest : list Q) (c : Q) : Q :=
  match rest with
  | [] => s
  | e :: rest' =>
      if Qltb c e then s + P prev c
      else if Qeqb c e then s + P prev e
      else walk P e (s + P prev e) rest' c
  end.

(** The accumulated perimeter at [c] along the events [es]: nothing below
    the second event. *)
Definition accumulated (P : Q -> Q -> Q) (es : list Q) (c : Q) : Q :=
  match es with
  | e0 :: e1 :: rest =>
      if Qltb c e1 then 0
      else if Qeqb c e1 then 0 + P e0 e1
      else walk P e1 (0 + P e0 e1) rest c
  | _ => 0
  end.

(** The last entry of a dict whose key is [<= c], scanning until the first
    key above [c]. *)
Fixpoint scan (c : Q) (d : PyDict.t Q) (last : option (Q * Q)) : option (Q * Q) :=
  match d with
  | [] => last
  | (k, v) :: d' => if Qltb c k then last else scan c d' (Some (k, v))
  end.

(** The lookups of [query_accumulated_perimeter], with the entry found by
    the scan in place of its key. *)
Definition lookups {K : Shapely} (P : Q -> Q -> Q) (d : PyDict.t Q)
    (last : option (Q * Q)) (l : list strip) (c : Q) : Q :=
  match PyDict.get d c with
  | Some p => p
  | None =>
      match scan c d last with
      | None => 0
      | Some (le, v) =>
          match find_partial le c l with
          | Some coord_prev => v + P coord_prev c
          | None => v
          end
      end
  end.

End StripSpec.

(** ** The strip of interest and the case handlers *)

Module DividerSpec.
Import Py StripPerimeter ObstacleAwareDivider.

Section WithShapely.
Context {K : Shapely}.

(** [WCRT_left > WCRT_right] at the right boundary of a strip. *)
Definition crossing (self : Divider) (s : strip) : bool :=
  let '(_, coord_curr, _) := s in
  Qltb (WCRT_right_at self coord_curr) (WCRT_left_at self coord_curr).

(** [|g(c_curr)|] at the right boundary of a strip. *)
Definition imbalance (self : Divider) (s : strip) : Q :=
  let '(_, coord_curr, _) := s in
  Qabs (WCRT_left_at self coord_curr - WCRT_right_at self coord_curr).

(** The strip the specification describes: the first one with
    [WCRT_left >= WCRT_right] at its right boundary. *)
Definition first_strip_left_ge_right (self : Divider) : option strip :=
  find (fun '(_, coord_curr, _) =>
          Qleb (WCRT_right_at self coord_curr) (WCRT_left_at self coord_curr))
       (strips (sp self)).

(** The state of the scan of [find_strip_of_interest]: nothing seen yet, or
    the best strip so far with its imbalance. *)
Definition scan_state (self : Divider) (best : option strip) (m : option Q) : Prop :=
  match best, m with
  | None, None => True
  | Some b, Some v => v = imbalance self b
  | _, _ => False
  end.

Definition strip_ends (s : strip) : Q * Q := let '(a, b, _) := s in (a, b).

(** A geometry that [_extract_polygonal_part] lets through. *)
Definition polygonal (g0 : geom) : Prop :=
  geom_type g0 = TPolygon \/ geom_type g0 = TMultiPolygon.

(** An obstacle as [validate_and_fix_geometries] hands it on: a polygonal
    geometry, repaired by [buffer(0)] when it is not valid. *)
Definition fixed_polygonal (o : geom) : Prop :=
  exists p, polygonal p /\ o = (if negb (is_valid p) then buffer0 p else p).

End WithShapely.

(** Where the handlers put the cut of the strip from [a] to [b]: at [b], or
    where the solver found it in the bracket it was given, [[a, b]] or
    [[a, b - 1e-6]]. *)
Definition cut_of_strip (a b c : Q) : Prop :=
  c = b \/ SolverSpec.between a b c \/ SolverSpec.between a (b - (1 # 1000000)) c.


(** A solver that checks Brent's precondition on its bracket before it runs
    [solver]. *)
Definition checked_bracket (g_ : Q -> Q) (solver : Q -> Q -> result Q) (a b : Q)
  : result Q :=
  if Qleb (g_ a * g_ b) 0 then solver a b else Raise ValueError_Brent.

End DividerSpec.

(** ** The axis picked *)

Module SelectionSpec.
Import OptimalAxisSelection.

(** The metrics of the axis [select_best_axis] returned. *)
Definition chosen_metrics {K : Shapely} (best : axis) (mx my : metrics) : metrics :=
  match best with X => mx | Y => my end.

End SelectionSpec.

(** ** The recursion of the driver *)

Module DriverSpec.
Import HierarchicalDecomposition.

Section WithShapely.
Context {K : Shapely}.

Definition axis_history (p : partition) : list axis := let '(_, _, h, _) := p in h.
Definition valid_flag (p : partition) : bool := let '(_, _, _, v) := p in v.

(** The number of partitions flagged valid. *)
Definition count_valid (ps : list partition) : nat :=
  List.length (filter valid_flag ps).

(** What a call of [_decompose] at [depth] may do to the store: the stack
    is left as found; partitions are only appended, at least one when the
    call returns true; and each new one records the stack of the call
    followed by at most [max_depth - depth] more axes. *)
Definition decompose_post (self : Decomposition) (depth : Z) (st : store)
    (r : bool) (st' : store) : Prop :=
  axis_stack st' = axis_stack st
  /\ exists new,
       partitions st' = partitions st ++ new
       /\ (r = true -> new <> [])
       /\ forall p, In p new ->
            exists k, axis_history p = axis_stack st ++ k
                      /\ (Z.of_nat (List.length k) <= Z.max 0 (max_depth self - depth))%Z.

Fixpoint stack_eqb (s t : list axis) : bool :=
  match s, t with
  | [], [] => true
  | a :: s', b :: t' => axis_eqb a b && stack_eqb s' t'
  | _, _ => false
  end.

(** The recursive call [decompose], refused unless the stack it is given
    is [stack]. *)
Definition on_stack (stack : list axis)
    (decompose : geom -> list geom -> Z -> store -> option (bool * store))
    (g : geom) (o : list geom) (d : Z) (s : store) : option (bool * store) :=
  if stack_eqb (axis_stack s) stack then decompose g o d s else None.

(** The same object with another [allow_fallback_axis]. *)
Definition with_fallback (self : Decomposition) (b : bool) : Decomposition :=
  MkDecomposition (region self) (obstacles self) (max_depth self) (metrics self)
    (numerical_method self) (min_dimension_threshold self) (check_connectivity self)
    b (mode self).

(** The same object with another [metrics]. *)
Definition with_metrics (self : Decomposition) (m : string) : Decomposition :=
  MkDecomposition (region self) (obstacles self) (max_depth self) m
    (numerical_method self) (min_dimension_threshold self) (check_connectivity self)
    (allow_fallback_axis self) (mode self).

(** The stop test of [_decompose] on the coverage by obstacles: at least
    90% covered, and neither the free area nor the largest free polygon
    reaches [DRONE_THRESHOLD]. *)
Definition coverage_stop (region0 : geom) (obstacles0 : list geom) : bool :=
  let region_area := area region0 in
  let obs_area := sum_area obstacles0 in
  let coverage_ratio :=
    if Py.Qltb (1 # 1000000000000) region_area then obs_area / region_area else 1 in
  let free_area := region_area - obs_area in
  let largest_hole_area := _compute_largest_free_space region0 obstacles0 in
  Py.Qleb COVERAGE_RATIO_STOP coverage_ratio
  && (Py.Qltb free_area DRONE_THRESHOLD && Py.Qltb largest_hole_area DRONE_THRESHOLD).

(** The flag of a stored partition is what [_is_subregion_valid] says of
    its region and obstacles. *)
Definition truthful (self : Decomposition) (p : partition) : Prop :=
  let '(g, o, _, v) := p in v = _is_subregion_valid self g o.

(** A partition flagged valid, or one stored by the coverage stop. *)
Definition valid_or_covered (p : partition) : Prop :=
  let '(g, o, _, v) := p in v = true \/ coverage_stop g o = true.

(** The record [run()] adds in mode [track_back]. *)
Definition root_record (self : Decomposition) : partition :=
  (region self, obstacles self, [], true).

(** What a call that returns [r] has appended to the partitions: at most
    [n] partitions, with truthful flags, none of them flagged valid when [r]
    is false, and one that is flagged valid or was stored by the coverage
    stop when [r] is true. *)
Definition appended_within (self : Decomposition) (n : nat) (st : store)
    (r : bool) (st' : store) : Prop :=
  exists new,
    partitions st' = partitions st ++ new
    /\ Forall (truthful self) new
    /\ (List.length new <= n)%nat
    /\ (r = false -> Forall (fun p => valid_flag p = false) new)
    /\ (r = true -> Exists valid_or_covered new).

(** A call of [_decompose] at [depth] appends at most
    [2 ^ (max_depth - depth)] partitions. *)
Definition decompose_out (self : Decomposition) (depth : Z) (st : store)
    (r : bool) (st' : store) : Prop :=
  appended_within self (2 ^ Z.to_nat (max_depth self - depth)) st r st'.

End WithShapely.
End DriverSpec.

(** ** The inputs of the examples *)

Module Scenarios.
Import BoxGeometry.
Import OptimalAxisSelection.
Local Open Scope string_scope.

(** The region [[0,100] x [0,100]]. *)
Definition square_region : bgeom := rectangle 0 0 100 100.

(** A selector that cuts the square once at [x = 50]. *)
Definition halving_selector (g : bgeom) (o : list bgeom) (user_metric method0 : string)
  : option HierarchicalDecomposition.choice :=
  Some (X, 50, (rectangle 0 0 50 100, []), (rectangle 50 0 100 100, [])).

(** The driver on the square without obstacles. *)
Definition square_run (max_depth0 : Z) (fallback : bool) (mode0 : string)
  : HierarchicalDecomposition.Decomposition :=
  fst (HierarchicalDecomposition.__init__ square_region [] max_depth0 "NWCRT" "brent"
         (1 # 1000) false fallback mode0).

(** A sliver [[0,100] x [0,0.0005]]: not empty, and thinner than the
    [min_dimension_threshold] of [1e-3]. *)
Definition sliver_region : bgeom := rectangle 0 0 100 (1 # 2000).

(** The metrics of the two cuts of the square without obstacles: both cuts
    balance the WCRT, the halves of the x cut have [w / h = 1/2] and those
    of the y cut [w / h = 2]. *)
Definition square_metrics_x : metrics :=
  MkMetrics 0 (snd (calculate_squareness_metrics (1 # 2) (1 # 2))) 50
    (rectangle 0 0 50 100, []) (rectangle 50 0 100 100, []).

(** The square with the obstacles [[30,50] x [10,20]] and
    [[50,80] x [60,80]], swept along x: the events are 0, 30, 50, 80, 100,
    the accumulated perimeters 10, 80, 160, 160 of a total of 160, and at
    [x = 50] both sides have the diagonal of a 50 x 100 box and half of 80
    as their share of the perimeter. *)
Definition two_boxes_strip : StripPerimeter.Strip :=
  StripPerimeter.__init__ square_region
    [rectangle 30 10 50 20; rectangle 50 60 80 80] X.
Definition two_boxes_divider : ObstacleAwareDivider.Divider :=
  ObstacleAwareDivider.__init__ two_boxes_strip "newton".

(** The axis selector on the same square and obstacles, and the metrics
    its evaluation of the x axis returns: the cut is at [x = 80]. *)
Definition two_boxes_selector : Selector :=
  OptimalAxisSelection.__init__ square_region
    [rectangle 30 10 50 20; rectangle 50 60 80 80] "NWCRT" "brent".
Definition two_boxes_metrics_x : metrics :=
  Eval vm_compute in
    match evaluate_axis two_boxes_selector X with
    | Py.Ok m => m
    | Py.Raise _ => square_metrics_x
    end.



(** A region [[0,2] x [0,2]] with an obstacle over 95% of it: the free
    area and the largest free polygon are below [DRONE_THRESHOLD]. *)
Definition covered_region : bgeom := rectangle 0 0 2 2.
Definition covering_obstacle : bgeom := rectangle 0 0 2 (19 # 10).

(** The driver on a region without obstacles, in mode [track_back]. *)
Definition run_on (region0 : bgeom) (max_depth0 : Z)
  : HierarchicalDecomposition.Decomposition :=
  fst (HierarchicalDecomposition.__init__ region0 [] max_depth0 "NWCRT" "brent"
         (1 # 1000) false true "track_back").

End Scenarios.

(** * Part III: the proofs *)

(** ** Comparisons of floats *)

Module PyFacts.
Import Py.

Lemma Qltb_true x y : Qltb x y = true <-> x < y.
Proof.
  unfold Qltb. rewrite negb_true_iff. split.
  - intros H. apply Qnot_le_lt. intro Hle. apply Qle_bool_iff in Hle. congruence.
  - intros H. destruct (Qle_bool y x) eqn:E; auto. apply Qle_bool_iff in E. lra.
Qed.

Lemma Qltb_false x y : Qltb x y = false <-> y <= x.
Proof. unfold Qltb. rewrite negb_false_iff. apply Qle_bool_iff. Qed.

Lemma Qleb_true x y : Qleb x y = true <-> x <= y.
Proof. apply Qle_bool_iff. Qed.

Lemma Qleb_false x y : Qleb x y = false <-> y < x.
Proof.
  unfold Qleb. split.
  - intros H. apply Qnot_le_lt. intro Hle. apply Qle_bool_iff in Hle. congruence.
  - intros H. destruct (Qle_bool x y) eqn:E; auto. apply Qle_bool_iff in E. lra.
Qed.

Lemma Qeqb_true x y : Qeqb x y = true <-> x == y.
Proof. apply Qeq_bool_iff. Qed.

Lemma Qeqb_false x y : Qeqb x y = false <-> ~ x == y.
Proof.
  unfold Qeqb. split.
  - intros H E. apply Qeq_bool_iff in E. congruence.
  - intros H. destruct (Qeq_bool x y) eqn:E; auto.
    apply Qeq_bool_iff in E. contradiction.
Qed.

Lemma Qeqb_refl x : Qeqb x x = true.
Proof. apply Qeqb_true. reflexivity. Qed.

Lemma div_ok x y : ~ y == 0 -> div x y = Ok (x / y).
Proof. intros H. unfold div. apply Qeqb_false in H. rewrite H. reflexivity. Qed.

Lemma Qabs_cases x : (0 <= x /\ Qabs x == x) \/ (x < 0 /\ Qabs x == - x).
Proof.
  destruct (Qlt_le_dec x 0) as [H|H].
  - right. split; auto. apply Qabs_neg. lra.
  - left. split; auto. apply Qabs_pos. lra.
Qed.

Lemma raises_bind {A B : Type} (e : exn) (m : result A) (k : A -> result B) :
  raises e m = false -> (forall a, raises e (k a) = false) ->
  raises e (bind m k) = false.
Proof. intros Hm Hk. destruct m as [a|e']; cbn [bind]; [apply Hk|exact Hm]. Qed.

End PyFacts.

(** ** The boxes of a geometry *)

Module BoxFacts.
Import Py PyFacts BoxGeometry.







End BoxFacts.

(** ** The root solver never leaves a bracket with a sign change *)

Module SolverProofs.
Import Py PyFacts NumericalSolution SolverSpec.

Lemma opposite_signs fa fb tol :
  0 < tol -> fa * fb <= 0 -> Qabs fb <= Qabs fa -> tol <= Qabs fb ->
  (0 < fa /\ fb < 0) \/ (fa < 0 /\ 0 < fb).
Proof.
  intros Ht Hp Hle Hnc.
  destruct (Qabs_cases fa) as [[Ha Ea]|[Ha Ea]], (Qabs_cases fb) as [[Hb Eb]|[Hb Eb]];
    rewrite Ea, Eb in *.
  - exfalso. assert (0 < fa) by lra. assert (0 < fb) by lra. nra.
  - left. lra.
  - right. lra.
  - exfalso. nra.
Qed.

(** With a sign change and no convergence yet, no denominator of the
    candidate step is zero. *)
Lemma brent_candidate_ok v tol :
  0 < tol -> brent_inv v -> tol <= Qabs (bv_fb v) ->
  exists s, brent_candidate v = Ok s.
Proof.
  intros Ht [Hp Hle] Hnc. destruct v as [a b c fa fb fc d e]; cbn in *.
  destruct (opposite_signs fa fb tol Ht Hp Hle Hnc) as [[H1 H2]|[H1 H2]].
  all: destruct (Qeqb fa fc) eqn:E1; destruct (Qeqb fb fc) eqn:E2; cbn.
  all: try apply Qeqb_false in E1; try apply Qeqb_false in E2.
  all: repeat (rewrite div_ok;
     [| first [ intro Hz; apply Qmult_integral in Hz; destruct Hz; lra | lra ] ]);
     cbn; eauto.
Qed.

Lemma brent_swap_inv v : bv_fa v * bv_fb v <= 0 -> brent_inv (brent_swap v).
Proof.
  destruct v as [a b c fa fb fc d e]; cbn. intros Hp. unfold brent_inv.
  destruct (Qltb (Qabs fa) (Qabs fb)) eqn:E; cbn.
  - apply Qltb_true in E. split; lra.
  - apply Qltb_false in E. split; lra.
Qed.

Lemma brent_body_ok f v tol :
  0 < tol -> brent_inv v -> tol <= Qabs (bv_fb v) ->
  exists v', brent_body f v = Ok v' /\ brent_inv v'.
Proof.
  intros Ht Hinv Hnc.
  destruct (brent_candidate_ok v tol Ht Hinv Hnc) as [s Hs].
  destruct Hinv as [Hp Hle].
  destruct v as [a b c fa fb fc d e]. unfold brent_body. rewrite Hs. cbn in *.
  pose proof (opposite_signs fa fb tol Ht Hp Hle Hnc) as Hsign.
  match goal with |- context [if ?c then (?s1, ?d1, ?e1) else (?s2, ?d2, ?e2)] =>
    destruct c end.
  all: destruct (Qltb (_ * _) 0) eqn:E; [apply Qltb_true in E | apply Qltb_false in E].
  all: eexists; split; [reflexivity|]; apply brent_swap_inv; cbn; try lra.
  all: destruct Hsign as [[H1 H2]|[H1 H2]]; nra.
Qed.

Lemma brent_loop_ok f tol n :
  0 < tol -> forall v, brent_inv v -> exists x, brent_loop f tol n v = Ok x.
Proof.
  intros Ht. induction n as [|n IH]; intros v Hinv; cbn [brent_loop].
  - eauto.
  - destruct (_ || _) eqn:E; [eauto|].
    apply orb_false_iff in E. destruct E as [E1 _].
    apply Qltb_false in E1.
    destruct (brent_body_ok f v tol Ht Hinv E1) as (v' & Hv' & Hinv').
    rewrite Hv'. cbn [bind]. apply IH; assumption.
Qed.

Lemma brent_init_inv f a b : f a * f b <= 0 -> brent_inv (brent_init f a b).
Proof.
  intros Hp. unfold brent_init, brent_inv.
  destruct (Qltb (Qabs (f a)) (Qabs (f b))) eqn:E; cbn.
  - apply Qltb_true in E. split; lra.
  - apply Qltb_false in E. split; lra.
Qed.

(** The loop itself raises nothing but [ZeroDivisionError]. *)
Lemma brent_loop_never_invalid f tol n : forall v,
  raises ValueError_Brent (brent_loop f tol n v) = false.
Proof.
  induction n as [|n IH]; intros v; cbn [brent_loop]; [reflexivity|].
  destruct (_ || _); [reflexivity|].
  destruct (brent_body f v) as [v'|e] eqn:E; cbn [bind].
  - apply IH.
  - unfold brent_body in E. destruct v as [a b c fa fb fc d e'].
    destruct (brent_candidate _) as [s|e0] eqn:Ec; cbn [bind] in E.
    + destruct (_ || _); cbn in E; destruct (Qltb _ 0); discriminate.
    + injection E as <-. unfold brent_candidate, div in Ec.
      repeat match type of Ec with
      | context [if ?c then _ else _] => destruct c; cbn in Ec
      end; try discriminate; injection Ec as <-; reflexivity.
Qed.

Lemma brent_loop_exhausted f tol n : forall v r,
  brent_loop f tol n v = Ok (Exhausted r) ->
  exists v', brent_after f n v = Ok v' /\ r = bv_b v'.
Proof.
  induction n as [|n IH]; intros v r H; cbn [brent_loop brent_after] in *.
  - injection H as <-. eauto.
  - destruct (_ || _); [discriminate|].
    destruct (brent_body f v) as [v1|e]; cbn [bind] in *; [|discriminate].
    apply IH; assumption.
Qed.

Lemma brent_valueerror_iff f a b tol n :
  raises ValueError_Brent (solve_for_root_brent f a b tol n) = true <-> 0 < f a * f b.
Proof.
  unfold solve_for_root_brent, solve_for_root_brent_exit.
  destruct (Qltb 0 (f a * f b)) eqn:E.
  - apply Qltb_true in E. cbn. tauto.
  - apply Qltb_false in E. split; [|intros; lra].
    pose proof (brent_loop_never_invalid f tol n (brent_init f a b)) as Hn.
    destruct (brent_loop f tol n (brent_init f a b)) as [x|e]; cbn in *.
    + discriminate.
    + rewrite Hn. discriminate.
Qed.

Lemma brent_no_valueerror f a b tol n :
  f a * f b <= 0 -> raises ValueError_Brent (solve_for_root_brent f a b tol n) = false.
Proof.
  intros H. destruct (raises _ _) eqn:E; [|reflexivity].
  apply brent_valueerror_iff in E. lra.
Qed.

(** C5, amended.  [solve_for_root_brent] raises its [ValueError] exactly
    when [f(a) * f(b) > 0]: a product that is zero is accepted.  With a
    positive tolerance and [f(a) * f(b) <= 0] it never raises, whatever
    [max_iter] is: it leaves the loop through one of the two [return b], and
    when it is the one after the loop (no convergence within [max_iter]
    iterations), the value is the current approximation [b], reached after
    [max_iter] passes through the loop body. *)
Theorem solve_for_root_brent_bracket :
  forall (f : Q -> Q) (a b tol : Q) (max_iter : nat),
    0 < tol ->
    (raises ValueError_Brent (solve_for_root_brent f a b tol max_iter) = true
       <-> 0 < f a * f b)
    /\ (f a * f b <= 0 ->
        exists x,
          solve_for_root_brent_exit f a b tol max_iter = Ok x
          /\ solve_for_root_brent f a b tol max_iter = Ok (exit_value x)
          /\ (forall r, x = Exhausted r ->
              exists v, brent_after f max_iter (brent_init f a b) = Ok v
                        /\ r = bv_b v)).
Proof.
  intros f a b tol max_iter Htol. split; [apply brent_valueerror_iff|].
  intros Hp. unfold solve_for_root_brent, solve_for_root_brent_exit.
  assert (E : Qltb 0 (f a * f b) = false) by (apply Qltb_false; exact Hp).
  rewrite E.
  destruct (brent_loop_ok f tol max_iter Htol _ (brent_init_inv f a b Hp)) as [x Hx].
  exists x. rewrite Hx. cbn [bind]. repeat split.
  intros r ->. apply (brent_loop_exhausted f tol max_iter _ _ Hx).
Qed.

(** The bracket [[1, 3]] of [x - 2], with two iterations allowed. *)
Lemma solve_for_root_brent_bracket_witness :
  exists x, solve_for_root_brent_exit (fun x => x - 2) 1 3 default_tol 2 = Ok x.
Proof.
  destruct (solve_for_root_brent_bracket (fun x => x - 2) 1 3 default_tol 2)
    as [_ H]; [reflexivity|].
  destruct H as (x & Hx & _); [vm_compute; discriminate|].
  exists x. exact Hx.
Defined.

(** C5 as stated fails on a root at an end of the bracket: for [f(x) = x] on
    [[0, 1]] the product [f(0) * f(1)] is zero, so not negative, and the
    solver returns the root [0] instead of raising. *)
Lemma solve_for_root_brent_zero_product :
  Qeq_bool ((fun x : Q => x) 0 * (fun x : Q => x) 1) 0 = true
  /\ Qltb ((fun x : Q => x) 0 * (fun x : Q => x) 1) 0 = false
  /\ solve_for_root_brent (fun x => x) 0 1 default_tol default_max_iter = Ok 0.
Proof. vm_compute. repeat split. Qed.

End SolverProofs.

(** ** The root solvers stay in their bracket *)

Module RootFinding.
Import Py PyFacts NumericalSolution SolverSpec SolverProofs.

Ltac qdiv_consts :=
  unfold Qdiv in *; change (/ 2) with (1 # 2) in *; change (/ 4) with (1 # 4) in *.

Lemma brent_body_bracket f a0 b0 v v' :
  brent_bracket f a0 b0 v -> brent_body f v = Ok v' -> brent_bracket f a0 b0 v'.
Proof.
  intros (Ha & Hb & Hfa & Hfb) H.
  destruct v as [a b c fa fb fc d e]. cbn in Ha, Hb, Hfa, Hfb. subst fa fb.
  unfold brent_body in H.
  destruct (brent_candidate _) as [s|]; cbn [bind] in H; [|discriminate].
  match type of H with context [if ?c then (?x, _, _) else _] =>
    destruct c eqn:Ec end.
  - destruct (Qltb (_ * _) 0); injection H as <-; unfold brent_swap, brent_bracket;
      destruct (Qltb (Qabs _) (Qabs _)); cbn [bv_a bv_b bv_fa bv_fb];
      unfold between in *; qdiv_consts; repeat split; try reflexivity; lra.
  - apply orb_false_iff in Ec. destruct Ec as [Ec _].
    assert (Hs : between a b s).
    { unfold between. destruct (Qltb a b) eqn:Eab.
      - apply Qltb_true in Eab. apply orb_false_iff in Ec. destruct Ec as [E1 E2].
        apply Qltb_false in E1, E2. left. qdiv_consts. lra.
      - apply Qltb_false in Eab. apply orb_false_iff in Ec. destruct Ec as [E1 E2].
        apply Qltb_false in E1, E2. right. qdiv_consts. lra. }
    destruct (Qltb (_ * _) 0); injection H as <-; unfold brent_swap, brent_bracket;
      destruct (Qltb (Qabs _) (Qabs _)); cbn [bv_a bv_b bv_fa bv_fb];
      unfold between in *; qdiv_consts; repeat split; try reflexivity; lra.
Qed.

Lemma brent_init_bracket f a b : brent_bracket f a b (brent_init f a b).
Proof.
  unfold brent_init, brent_bracket, between.
  destruct (Qltb _ _); cbn; repeat split; try reflexivity; lra.
Qed.

Lemma brent_loop_exit f a0 b0 tol n :
  0 < tol -> forall v,
  brent_inv v -> brent_bracket f a0 b0 v ->
  exists x, brent_loop f tol n v = Ok x /\ brent_exit_ok f a0 b0 tol x.
Proof.
  intros Ht. induction n as [|n IH]; intros v Hinv Hbr; cbn [brent_loop].
  - eexists; split; [reflexivity|]. cbn. apply Hbr.
  - destruct (_ || _) eqn:E.
    + eexists; split; [reflexivity|]. cbn.
      destruct Hbr as (Ha & Hb & Hfa & Hfb). destruct Hinv as [Hp Hle].
      split; [exact Hb|]. exists (bv_a v). rewrite <- Hfa, <- Hfb.
      split; [exact Ha|]. split; [rewrite Qmult_comm; exact Hp|].
      split; [exact Hle|].
      apply orb_true_iff in E. destruct E as [E|E]; apply Qltb_true in E; auto.
    + apply orb_false_iff in E. destruct E as [E1 _]. apply Qltb_false in E1.
      destruct (brent_body_ok f v tol Ht Hinv E1) as (v' & Hv' & Hinv').
      rewrite Hv'. cbn [bind]. apply IH; [assumption|].
      eapply brent_body_bracket; eassumption.
Qed.

Lemma brent_exit_ok_between f a0 b0 tol x :
  brent_exit_ok f a0 b0 tol x -> between a0 b0 (exit_value x).
Proof. destruct x; cbn; tauto. Qed.

Lemma brent_returns_in_bracket f a b tol n :
  0 < tol -> f a * f b <= 0 ->
  exists x, solve_for_root_brent_exit f a b tol n = Ok x
            /\ solve_for_root_brent f a b tol n = Ok (exit_value x)
            /\ brent_exit_ok f a b tol x.
Proof.
  intros Ht Hp. unfold solve_for_root_brent, solve_for_root_brent_exit.
  assert (E : Qltb 0 (f a * f b) = false) by (apply Qltb_false; exact Hp).
  rewrite E.
  destruct (brent_loop_exit f a b tol n Ht _ (brent_init_inv f a b Hp)
              (brent_init_bracket f a b)) as (x & Hx & Hok).
  exists x. rewrite Hx. cbn [bind]. auto.
Qed.

(** X1.  On a bracket whose ends have no common sign ([f(a) * f(b) <= 0]) and
    with a positive tolerance, [solve_for_root_brent] returns a value, and the
    value lies between [a] and [b], whichever order they come in and
    whatever [max_iter] is. *)
Theorem solve_for_root_brent_in_bracket :
  forall (f : Q -> Q) (a b tol : Q) (max_iter : nat),
    0 < tol -> f a * f b <= 0 ->
    exists x, solve_for_root_brent f a b tol max_iter = Ok x /\ between a b x.
Proof.
  intros f a b tol n Ht Hp.
  destruct (brent_returns_in_bracket f a b tol n Ht Hp) as (x & _ & Hx & Hok).
  exists (exit_value x). split; [exact Hx|]. eapply brent_exit_ok_between; eassumption.
Qed.

Lemma solve_for_root_brent_in_bracket_witness :
  exists x, solve_for_root_brent (fun x => x - 2) 1 3 default_tol 2 = Ok x
            /\ between 1 3 x.
Proof.
  apply (solve_for_root_brent_in_bracket (fun x => x - 2) 1 3 default_tol 2).
  - reflexivity.
  - vm_compute. discriminate.
Defined.

(** X2.  When [solve_for_root_brent] leaves its loop by the convergence check,
    the value [r] it returns lies in the bracket and has a companion [y] in
    the bracket (the other end of the current bracket) with
    [f(r) * f(y) <= 0] and [|f(r)| <= |f(y)|], and either [|f(r)| < tol] or
    [|r - y| < tol]: a sign change of [f] within [tol] of [r], or a residual
    below [tol]. *)
Theorem solve_for_root_brent_converged :
  forall (f : Q -> Q) (a b tol : Q) (max_iter : nat) (r : Q),
    0 < tol ->
    solve_for_root_brent_exit f a b tol max_iter = Ok (Converged r) ->
    between a b r
    /\ exists y, between a b y
                 /\ f r * f y <= 0 /\ Qabs (f r) <= Qabs (f y)
                 /\ (Qabs (f r) < tol \/ Qabs (r - y) < tol).
Proof.
  intros f a b tol n r Ht H.
  assert (Hp : f a * f b <= 0).
  { unfold solve_for_root_brent_exit in H.
    destruct (Qltb 0 (f a * f b)) eqn:E; [discriminate|].
    apply Qltb_false in E. exact E. }
  destruct (brent_returns_in_bracket f a b tol n Ht Hp) as (x & Hx & _ & Hok).
  rewrite Hx in H. injection H as ->. exact Hok.
Qed.

Lemma solve_for_root_brent_converged_witness :
  between 1 3 (4 # 2)
  /\ exists y, between 1 3 y
               /\ ((4 # 2) - 2) * (y - 2) <= 0
               /\ Qabs ((4 # 2) - 2) <= Qabs (y - 2)
               /\ (Qabs ((4 # 2) - 2) < default_tol \/ Qabs ((4 # 2) - y) < default_tol).
Proof.
  apply (solve_for_root_brent_converged (fun x => x - 2) 1 3 default_tol 2 (4 # 2)).
  - reflexivity.
  - vm_compute. reflexivity.
Defined.

(** Newton *)
Lemma newton_only_valueerror f f' tol n : forall x,
  match solve_for_root_newton_raphson f f' tol n x with
  | Ok _ => True
  | Raise e => e = ValueError_Newton
  end.
Proof.
  induction n as [|n IH]; intros x; cbn [solve_for_root_newton_raphson]; [exact I|].
  destruct (Qltb (Qabs (f x)) tol); [exact I|].
  destruct (Qltb (Qabs (f' x)) (1 # 10000000)) eqn:E; [reflexivity|].
  apply Qltb_false in E.
  rewrite div_ok.
  - cbn [bind]. destruct (Qltb _ tol); [exact I|apply IH].
  - intro Hz. rewrite Hz in E. vm_compute in E. apply E. reflexivity.
Qed.

Lemma newton_returns f f' tol n :
  (forall x, (1 # 10000000) <= Qabs (f' x)) ->
  forall x, exists r, solve_for_root_newton_raphson f f' tol n x = Ok r.
Proof.
  intros Hd. induction n as [|n IH]; intros x; cbn [solve_for_root_newton_raphson];
    [eauto|].
  destruct (Qltb (Qabs (f x)) tol); [eauto|].
  assert (E : Qltb (Qabs (f' x)) (1 # 10000000) = false)
    by (apply Qltb_false; apply Hd).
  rewrite E. rewrite div_ok.
  - cbn [bind]. destruct (Qltb _ tol); [eauto|apply IH].
  - intro Hz. specialize (Hd x). rewrite Hz in Hd. vm_compute in Hd. apply Hd. reflexivity.
Qed.

Lemma brent_only_two_errors f a b tol n :
  raises ValueError_Newton (solve_for_root_brent f a b tol n) = false.
Proof.
  unfold solve_for_root_brent, solve_for_root_brent_exit.
  destruct (Qltb 0 (f a * f b)); [reflexivity|].
  generalize (brent_init f a b). intros v. revert v.
  induction n as [|n IH]; intros v; cbn [brent_loop]; [reflexivity|].
  destruct (_ || _); [reflexivity|].
  destruct (brent_body f v) as [v'|e] eqn:E; cbn [bind].
  - apply IH.
  - unfold brent_body in E. destruct v as [a1 b1 c fa fb fc d e'].
    destruct (brent_candidate _) as [s|e0] eqn:Ec; cbn [bind] in E.
    + destruct (_ || _); cbn in E; destruct (Qltb _ 0); discriminate.
    + injection E as <-. unfold brent_candidate, div in Ec.
      repeat match type of Ec with
      | context [if ?c then _ else _] => destruct c; cbn in Ec
      end; try discriminate; injection Ec as <-; reflexivity.
Qed.

(** X3.  [solve_for_root_newton_raphson] never divides by zero: the only
    exception it raises is its own [ValueError] for a derivative below
    [1e-7], for every function, start and [max_iter].  When the derivative
    is at least [1e-7] in absolute value everywhere, it returns a value. *)
Theorem newton_raphson_never_divides_by_zero :
  forall (f f_prime : Q -> Q) (tol : Q) (max_iter : nat) (x0 : Q),
    match solve_for_root_newton_raphson f f_prime tol max_iter x0 with
    | Ok _ => True
    | Raise e => e = ValueError_Newton
    end
    /\ ((forall x, (1 # 10000000) <= Qabs (f_prime x)) ->
        exists r, solve_for_root_newton_raphson f f_prime tol max_iter x0 = Ok r).
Proof.
  intros f f' tol n x0. split.
  - apply newton_only_valueerror.
  - intros Hd. apply newton_returns. exact Hd.
Qed.

Lemma newton_raphson_never_divides_by_zero_witness :
  exists r, solve_for_root_newton_raphson (fun x => x - 2) (fun _ => 1)
              default_tol 3 0 = Ok r.
Proof.
  destruct (newton_raphson_never_divides_by_zero (fun x => x - 2) (fun _ => 1)
              default_tol 3 0) as [_ H].
  apply H. intros x. vm_compute. discriminate.
Defined.

(** X4.  [solve_for_root_with_defensive_newton_rhapson] never lets Newton's
    [ValueError] out.  On a bracket with [f(a) * f(b) <= 0] and a positive
    tolerance it always returns a value: Newton's when Newton returned one,
    and otherwise the value of [solve_for_root_brent] on the bracket, which
    lies between [a] and [b]. *)
Theorem defensive_newton_falls_back_to_brent :
  forall (f f_prime : Q -> Q) (x0 a b tol : Q) (max_iter_nr max_iter_brent : nat),
    raises ValueError_Newton
      (solve_for_root_with_defensive_newton_rhapson f f_prime x0 (a, b) tol
         max_iter_nr max_iter_brent) = false
    /\ (0 < tol -> f a * f b <= 0 ->
        exists x,
          solve_for_root_with_defensive_newton_rhapson f f_prime x0 (a, b) tol
            max_iter_nr max_iter_brent = Ok x
          /\ match solve_for_root_newton_raphson f f_prime tol max_iter_nr x0 with
             | Ok y => x = y
             | Raise _ =>
                 solve_for_root_brent f a b tol max_iter_brent = Ok x
                 /\ between a b x
             end).
Proof.
  intros f f' x0 a b tol n1 n2.
  unfold solve_for_root_with_defensive_newton_rhapson. cbn [fst snd]. split.
  - destruct (solve_for_root_newton_raphson f f' tol n1 x0); cbn [try_except];
      [reflexivity|apply brent_only_two_errors].
  - intros Ht Hp.
    destruct (solve_for_root_newton_raphson f f' tol n1 x0) as [y|e]; cbn [try_except].
    + exists y. split; reflexivity.
    + destruct (brent_returns_in_bracket f a b tol n2 Ht Hp) as (x & _ & Hx & Hok).
      exists (exit_value x). split; [exact Hx|]. split; [exact Hx|].
      eapply brent_exit_ok_between; eassumption.
Qed.

Lemma defensive_newton_falls_back_to_brent_witness :
  exists x,
    solve_for_root_with_defensive_newton_rhapson (fun x => x - 2) (fun _ => 0) 1 (1, 3)
      default_tol 3 2 = Ok x
    /\ solve_for_root_brent (fun x => x - 2) 1 3 default_tol 2 = Ok x
    /\ between 1 3 x.
Proof.
  destruct (defensive_newton_falls_back_to_brent (fun x => x - 2) (fun _ => 0) 1 1 3
              default_tol 3 2) as [_ H].
  destruct H as (x & Hx & Hm); [reflexivity|vm_compute; discriminate|].
  exists x. split; [exact Hx|]. exact Hm.
Defined.
(** X5.  When [f] is zero at an end of the bracket, [solve_for_root_brent]
    returns that end (an end where [f] is zero) without raising, for every
    [max_iter], also [0]. *)
Theorem solve_for_root_brent_root_at_an_end :
  forall (f : Q -> Q) (a b tol : Q) (max_iter : nat),
    0 < tol -> f a == 0 \/ f b == 0 ->
    exists x,
      solve_for_root_brent f a b tol max_iter = Ok x
      /\ (x = a \/ x = b) /\ f x == 0.
Proof.
  intros f a b tol n Ht H0.
  unfold solve_for_root_brent, solve_for_root_brent_exit.
  assert (Hp : f a * f b == 0) by (destruct H0 as [H|H]; rewrite H; ring).
  assert (E : Qltb 0 (f a * f b) = false) by (apply Qltb_false; lra).
  rewrite E. unfold brent_init.
  destruct (Qltb (Qabs (f a)) (Qabs (f b))) eqn:Es.
  - apply Qltb_true in Es.
    assert (Ha : f a == 0).
    { destruct H0 as [H|H]; [exact H|]. exfalso.
      assert (Qabs (f b) == 0) by (rewrite H; reflexivity).
      pose proof (Qabs_nonneg (f a)). lra. }
    destruct n as [|n]; cbn [brent_loop bv_a bv_b bv_fa bv_fb]; [cbn; exists a; auto|].
    assert (Ec : Qltb (Qabs (f a)) tol = true).
    { apply Qltb_true. assert (Qabs (f a) == 0) by (rewrite Ha; reflexivity). lra. }
    rewrite Ec. cbn. exists a. auto.
  - apply Qltb_false in Es.
    assert (Hb : f b == 0).
    { destruct H0 as [H|H]; [|exact H].
      assert (Qabs (f a) == 0) by (rewrite H; reflexivity).
      pose proof (Qabs_nonneg (f b)).
      assert (Hz : Qabs (f b) == 0) by lra.
      destruct (Qabs_cases (f b)) as [[_ Hc]|[_ Hc]]; lra. }
    destruct n as [|n]; cbn [brent_loop bv_a bv_b bv_fa bv_fb]; [cbn; exists b; auto|].
    assert (Ec : Qltb (Qabs (f b)) tol = true).
    { apply Qltb_true. assert (Qabs (f b) == 0) by (rewrite Hb; reflexivity). lra. }
    rewrite Ec. cbn. exists b. auto.
Qed.

Lemma solve_for_root_brent_root_at_an_end_witness :
  exists x, solve_for_root_brent (fun x => x) 0 1 default_tol 100 = Ok x
            /\ (x = 0 \/ x = 1) /\ x == 0.
Proof.
  apply (solve_for_root_brent_root_at_an_end (fun x => x) 0 1 default_tol 100).
  - reflexivity.
  - left. reflexivity.
Defined.
End RootFinding.

(** ** The accumulated perimeter is monotone *)

Module StripProofs.
Import Py PyFacts StripPerimeter StripSpec.

(** *** Sorted lists of events *)

Lemma Forall_insert (P : Q -> Prop) x l :
  P x -> Forall P l -> Forall P (PyDict.insert x l).
Proof.
  intros Hx Hl. induction l as [|y l IH]; cbn.
  - constructor; auto.
  - inversion Hl; subst. destruct (x ?= y); constructor; auto.
Qed.

Lemma insert_increasing x l : increasing l -> increasing (PyDict.insert x l).
Proof.
  unfold increasing. induction l as [|y l IH]; intros Hl; cbn.
  - constructor; constructor.
  - inversion Hl as [|? ? Hl' Hy]; subst.
    destruct (x ?= y) eqn:E.
    + exact Hl.
    + apply Qlt_alt in E. constructor; [exact Hl|].
      constructor; [exact E|].
      eapply Forall_impl; [|exact Hy]. intros z Hz. cbv beta in Hz. lra.
    + apply Qgt_alt in E. constructor; [apply IH; exact Hl'|].
      apply Forall_insert; [exact E|exact Hy].
Qed.

Lemma sorted_set_increasing l : increasing (PyDict.sorted_set l).
Proof.
  unfold PyDict.sorted_set.
  assert (H : forall acc, increasing acc ->
            increasing (fold_left (fun acc x => PyDict.insert x acc) l acc)).
  { induction l as [|x l IH]; intros acc Hacc; cbn; [exact Hacc|].
    apply IH, insert_increasing, Hacc. }
  apply H. constructor.
Qed.

Lemma insert_last x l :
  Forall (fun y => y < x) l -> PyDict.insert x l = l ++ [x].
Proof.
  induction l as [|y l IH]; intros H; cbn; [reflexivity|].
  inversion H as [|? ? Hy Hl]; subst.
  assert (E : (x ?= y) = Gt) by (apply Qgt_alt; exact Hy).
  rewrite E, IH by exact Hl. reflexivity.
Qed.

Lemma increasing_app_inv l1 l2 :
  increasing (l1 ++ l2) ->
  increasing l1 /\ increasing l2 /\ forall x y, In x l1 -> In y l2 -> x < y.
Proof.
  unfold increasing. induction l1 as [|a l1 IH]; cbn; intros H.
  - repeat split; [constructor|exact H|intros x y []].
  - inversion H as [|? ? Hs Ha]; subst. destruct (IH Hs) as (H1 & H2 & H12).
    apply Forall_app in Ha. destruct Ha as [Ha1 Ha2].
    repeat split; [constructor; assumption|exact H2|].
    intros x y [<-|Hx] Hy; [|auto].
    rewrite Forall_forall in Ha2. auto.
Qed.

Lemma sorted_set_of_increasing l : increasing l -> PyDict.sorted_set l = l.
Proof.
  intros Hl. unfold PyDict.sorted_set.
  assert (H : forall l acc, increasing (acc ++ l) ->
            fold_left (fun acc x => PyDict.insert x acc) l acc = acc ++ l).
  { clear. induction l as [|x l IH]; intros acc Hs; cbn.
    - rewrite app_nil_r. reflexivity.
    - assert (Hs' : increasing ((acc ++ [x]) ++ l)) by (rewrite <- app_assoc; exact Hs).
      rewrite insert_last.
      + rewrite IH by exact Hs'. rewrite <- app_assoc. reflexivity.
      + apply increasing_app_inv in Hs. destruct Hs as (_ & _ & H12).
        apply Forall_forall. intros y Hy. apply H12; [exact Hy|left; reflexivity]. }
  apply (H l []). exact Hl.
Qed.

(** *** The accumulated perimeter along a list of events *)

Section Accumulated.
Context {K : Shapely}.
Variable P : Q -> Q -> Q.
Variable mk : Q -> Q -> geom.

Lemma scan_keys c d last :
  last_event_before c (PyDict.keys d) (option_map fst last)
  = option_map fst (scan c d last).
Proof.
  revert last. induction d as [|[k v] d IH]; intros last; cbn; [reflexivity|].
  destruct (Qltb c k); [reflexivity|]. apply (IH (Some (k, v))).
Qed.

Lemma keys_running acc prev rest : PyDict.keys (running P acc prev rest) = rest.
Proof.
  revert acc prev. induction rest as [|e rest IH]; intros acc prev; cbn; [reflexivity|].
  f_equal. apply IH.
Qed.

Lemma get_above c (d : PyDict.t Q) :
  Forall (fun k => c < k) (PyDict.keys d) -> PyDict.get d c = None.
Proof.
  induction d as [|[k v] d IH]; cbn; intros H; [reflexivity|].
  inversion H as [|? ? Hk Hd]; subst. cbn in Hk.
  assert (E : Qeqb c k = false) by (apply Qeqb_false; lra).
  rewrite E. apply IH, Hd.
Qed.

Lemma get_in_increasing (d : PyDict.t Q) k v :
  increasing (PyDict.keys d) -> In (k, v) d -> PyDict.get d k = Some v.
Proof.
  unfold increasing. induction d as [|[k' v'] d IH]; cbn; intros Hs Hin; [contradiction|].
  inversion Hs as [|? ? Hs' Hk']; subst. destruct Hin as [Heq|Hin].
  - injection Heq as -> ->.
    assert (E : Qeqb k k = true) by (apply Qeqb_true; reflexivity).
    rewrite E. reflexivity.
  - assert (Hlt : k' < k).
    { rewrite Forall_forall in Hk'. apply Hk'. change k with (fst (k, v)).
      apply in_map. exact Hin. }
    assert (E : Qeqb k k' = false) by (apply Qeqb_false; lra).
    rewrite E. apply IH; assumption.
Qed.

Lemma scan_result c d last le v :
  scan c d last = Some (le, v) -> last = Some (le, v) \/ In (le, v) d.
Proof.
  revert last. induction d as [|[k w] d IH]; intros last H; cbn in H; [auto|].
  destruct (Qltb c k); [auto|].
  destruct (IH _ H) as [E|Hin]; [injection E as -> ->; right; left; reflexivity|].
  right. right. exact Hin.
Qed.

Lemma find_partial_skip le c a b g0 l :
  a < le -> find_partial le c ((a, b, g0) :: l) = find_partial le c l.
Proof.
  intros H. cbn. assert (E : Qeqb le a = false) by (apply Qeqb_false; lra).
  rewrite E. reflexivity.
Qed.

Lemma scan_from_last c d k0 v0 le v :
  increasing (k0 :: PyDict.keys d) ->
  scan c d (Some (k0, v0)) = Some (le, v) -> k0 <= le.
Proof.
  intros Hs H. apply scan_result in H. destruct H as [E|Hin].
  - injection E as -> _. lra.
  - inversion Hs as [|? ? _ Hk]; subst. rewrite Forall_forall in Hk.
    apply Qlt_le_weak. apply Hk. change le with (fst (le, v)). apply in_map. exact Hin.
Qed.

Lemma lookups_walk : forall rest prev acc c,
  increasing (prev :: rest) -> prev < c ->
  lookups P (running P acc prev rest) (Some (prev, acc)) (strips_of mk (prev :: rest)) c
  = walk P prev acc rest c.
Proof.
  induction rest as [|e rest IH]; intros prev acc c Hs Hc; [reflexivity|].
  inversion Hs as [|? ? Hs' Hprev]; subst.
  inversion Hprev as [|? ? Hpe _]; subst.
  unfold lookups. cbn [running PyDict.get scan walk].
  destruct (Qltb c e) eqn:Ec.
  - apply Qltb_true in Ec.
    assert (E : Qeqb c e = false) by (apply Qeqb_false; lra). rewrite E.
    rewrite get_above.
    + unfold strips_of. cbn.
      assert (E1 : Qeqb prev prev = true) by (apply Qeqb_true; reflexivity).
      assert (E2 : Qltb c e = true) by (apply Qltb_true; exact Ec).
      rewrite E1, E2. reflexivity.
    + rewrite keys_running. inversion Hs' as [|? ? _ He]; subst.
      eapply Forall_impl; [|exact He]. intros z Hz. cbv beta in Hz. lra.
  - apply Qltb_false in Ec. destruct (Qeqb c e) eqn:Ee; [reflexivity|].
    apply Qeqb_false in Ee.
    rewrite <- IH by (try exact Hs'; lra).
    unfold lookups. destruct (PyDict.get _ c); [reflexivity|].
    destruct (scan c _ _) as [[le v]|] eqn:Es; [|reflexivity].
    apply scan_from_last in Es; [|rewrite keys_running; exact Hs'].
    unfold strips_of. destruct rest as [|e' rest]; cbn [consecutive map].
    + rewrite find_partial_skip by lra. reflexivity.
    + rewrite find_partial_skip by lra. reflexivity.
Qed.

Lemma lookups_accumulated es c :
  increasing es ->
  match es with
  | [] => True
  | e0 :: rest => lookups P (running P 0 e0 rest) None (strips_of mk es) c = accumulated P es c
  end.
Proof.
  intros Hs. destruct es as [|e0 [|e1 rest]]; [exact I|reflexivity|].
  inversion Hs as [|? ? Hs' H0]; subst. inversion H0 as [|? ? H01 _]; subst.
  unfold lookups, accumulated. cbn [running PyDict.get scan].
  destruct (Qltb c e1) eqn:Ec.
  - apply Qltb_true in Ec.
    assert (E : Qeqb c e1 = false) by (apply Qeqb_false; lra). rewrite E.
    rewrite get_above; [reflexivity|].
    rewrite keys_running. inversion Hs' as [|? ? _ He]; subst.
    eapply Forall_impl; [|exact He]. intros z Hz. cbv beta in Hz. lra.
  - apply Qltb_false in Ec. destruct (Qeqb c e1) eqn:Ee; [reflexivity|].
    apply Qeqb_false in Ee.
    rewrite <- lookups_walk by (try exact Hs'; lra).
    unfold lookups. destruct (PyDict.get _ c); [reflexivity|].
    destruct (scan c _ _) as [[le v]|] eqn:Es; [|reflexivity].
    apply scan_from_last in Es; [|rewrite keys_running; exact Hs'].
    unfold strips_of. cbn [consecutive map].
    rewrite find_partial_skip by lra. reflexivity.
Qed.

End Accumulated.

(** *** The strip manager built by [Strip(region, obstacles, axis)] *)

Section Built.
Context {K : Shapely}.

Lemma compute_strip_perimeter_fields (s1 s2 : Strip) (g : geom) :
  region s1 = region s2 -> obstacles s1 = obstacles s2 -> axis_ s1 = axis_ s2 ->
  compute_strip_perimeter s1 g = compute_strip_perimeter s2 g.
Proof.
  destruct s1, s2; cbn. intros -> -> ->. reflexivity.
Qed.

Lemma create_partial_strip_fields (s1 s2 : Strip) (a c : Q) :
  region s1 = region s2 -> axis_ s1 = axis_ s2 ->
  _create_partial_strip s1 a c = _create_partial_strip s2 a c.
Proof.
  destruct s1, s2; cbn. intros -> ->. reflexivity.
Qed.

Lemma create_strips_of (self : Strip) :
  create_strips self = strips_of (_create_partial_strip self) (events self).
Proof.
  unfold create_strips, strips_of. apply map_ext. intros [a b].
  unfold _create_partial_strip.
  destruct (bounds (region self)) as [[[minx miny] maxx] maxy].
  destruct (axis_ self); reflexivity.
Qed.

Lemma consecutive_cons {A : Type} (a b : A) (l : list A) :
  consecutive (a :: b :: l) = (a, b) :: consecutive (b :: l).
Proof. reflexivity. Qed.

Lemma set_fresh (d : PyDict.t Q) k v :
  Forall (fun k' => k' < k) (PyDict.keys d) -> PyDict.set d k v = d ++ [(k, v)].
Proof.
  induction d as [|[k' v'] d IH]; cbn; intros H; [reflexivity|].
  inversion H as [|? ? Hk Hd]; subst. cbn in Hk.
  assert (E : Qeqb k k' = false) by (apply Qeqb_false; lra).
  rewrite E, IH by exact Hd. reflexivity.
Qed.

Lemma perimeters_fold (self : Strip) : forall rest prev acc per cum,
  increasing (prev :: rest) ->
  Forall (fun k => k <= prev) (PyDict.keys cum) ->
  exists acc',
    fold_left (perimeters_step self)
      (strips_of (_create_partial_strip self) (prev :: rest)) (acc, per, cum)
    = (acc',
       per ++ map (fun '(a, b) => ((a, b), strip_perimeter self a b))
                  (consecutive (prev :: rest)),
       cum ++ running (strip_perimeter self) acc prev rest).
Proof.
  induction rest as [|e rest IH]; intros prev acc per cum Hs Hk.
  - exists acc. cbn. rewrite !app_nil_r. reflexivity.
  - inversion Hs as [|? ? Hs' Hprev]; subst. inversion Hprev as [|? ? Hpe _]; subst.
    unfold strips_of. rewrite consecutive_cons. cbn [map fold_left running].
    fold (strips_of (_create_partial_strip self) (e :: rest)).
    cbn [perimeters_step]. fold (strip_perimeter self prev e).
    rewrite set_fresh.
    2:{ eapply Forall_impl; [|exact Hk]. intros z Hz. cbv beta in Hz. lra. }
    destruct (IH e (acc + strip_perimeter self prev e)
                 (per ++ [((prev, e), strip_perimeter self prev e)])
                 (cum ++ [(e, acc + strip_perimeter self prev e)]) Hs') as [acc' E].
    { unfold PyDict.keys. rewrite map_app. apply Forall_app. split.
      - eapply Forall_impl; [|exact Hk]. intros z Hz. cbv beta in Hz. lra.
      - constructor; [cbn; lra|constructor]. }
    exists acc'. rewrite E. rewrite <- !app_assoc. reflexivity.
Qed.

Lemma built_shape (region0 : geom) (obstacles0 : list geom) (ax : axis) :
  let sm := StripPerimeter.__init__ region0 obstacles0 ax in
  increasing (events sm)
  /\ strips sm = strips_of (_create_partial_strip sm) (events sm)
  /\ cumulative_perimeters sm =
     match events sm with
     | [] => []
     | e0 :: rest => running (strip_perimeter sm) 0 e0 rest
     end
  /\ per_strip_perimeters sm =
     map (fun '(a, b) => ((a, b), strip_perimeter sm a b)) (consecutive (events sm)).
Proof.
  unfold StripPerimeter.__init__.
  destruct (validate_and_fix_geometries region0 obstacles0) as [r obs].
  set (r' := _validate_2d r). set (obs' := map _validate_2d obs).
  set (ev := define_events (MkStrip r' obs' ax [] [] [] [])).
  cbn [events].
  set (self1 := MkStrip r' obs' ax ev (create_strips (MkStrip r' obs' ax ev [] [] [])) [] []).
  assert (Hev : increasing ev).
  { unfold ev, define_events. cbn [region axis_ obstacles].
    destruct (bounds r') as [[[minx miny] maxx] maxy].
    destruct ax; apply sorted_set_increasing. }
  assert (Hst : strips self1 = strips_of (_create_partial_strip self1) ev).
  { unfold self1. cbn [strips]. rewrite create_strips_of. cbn [events].
    unfold strips_of. apply map_ext. intros [a b]. reflexivity. }
  unfold compute_perimeters.
  rewrite Hst. cbn [per_strip_perimeters cumulative_perimeters region obstacles axis_ events strips].
  destruct ev as [|e0 rest] eqn:Eev.
  - cbn. repeat split; try reflexivity. constructor.
  - destruct (perimeters_fold self1 rest e0 0 [] [] Hev (Forall_nil _)) as [acc' E].
    change (per_strip_perimeters self1) with (@nil (Q * Q * Q)).
    change (cumulative_perimeters self1) with (@nil (Q * Q)).
    rewrite E. cbn [app].
    split; [exact Hev|]. repeat split.
Qed.

End Built.

Section Query.
Context {K : Shapely}.

Lemma query_lookups (self : Strip) (c : Q) :
  increasing (PyDict.keys (cumulative_perimeters self)) ->
  query_accumulated_perimeter self c
  = lookups (strip_perimeter self) (cumulative_perimeters self) None (strips self) c.
Proof.
  intros Hs. unfold query_accumulated_perimeter, lookups.
  destruct (PyDict.get (cumulative_perimeters self) c); [reflexivity|].
  rewrite sorted_set_of_increasing by exact Hs.
  change (@None Q) with (option_map (@fst Q Q) None).
  rewrite scan_keys.
  destruct (scan c (cumulative_perimeters self) None) as [[le v]|] eqn:Es; [|reflexivity].
  cbn [option_map fst].
  apply scan_result in Es. destruct Es as [Es|Hin]; [discriminate|].
  rewrite (get_in_increasing _ _ _ Hs Hin). reflexivity.
Qed.

Lemma last_in {A : Type} (l : list A) (x d : A) : In (last (x :: l) d) (x :: l).
Proof.
  revert x. induction l as [|y l IH]; intros x; [left; reflexivity|].
  right. apply IH.
Qed.


End Query.

Import BoxGeometry Scenarios.


End StripProofs.

(** ** Events, strips and the accumulated perimeter of a strip manager *)

Module StripInvariants.
Import Py PyFacts StripPerimeter StripSpec StripProofs.

Lemma has_insert_new x l : has (PyDict.insert x l) x.
Proof.
  induction l as [|y l IH]; cbn.
  - exists x. split; [left; reflexivity|reflexivity].
  - destruct (x ?= y) eqn:E.
    + apply Qeq_alt in E. exists y. split; [left; reflexivity|symmetry; exact E].
    + exists x. split; [left; reflexivity|reflexivity].
    + destruct IH as (e & He & Ee). exists e. split; [right; exact He|exact Ee].
Qed.

Lemma has_insert_old x y l : has l x -> has (PyDict.insert y l) x.
Proof.
  induction l as [|z l IH]; intros (e & He & Ee); [destruct He|].
  cbn. destruct (y ?= z) eqn:E.
  - exists e. split; [exact He|exact Ee].
  - exists e. split; [right; exact He|exact Ee].
  - destruct He as [<-|He].
    + exists z. split; [left; reflexivity|exact Ee].
    + destruct IH as (e' & He' & Ee'); [exists e; auto|].
      exists e'. split; [right; exact He'|exact Ee'].
Qed.

Lemma has_sorted_set x l : In x l -> has (PyDict.sorted_set l) x.
Proof.
  unfold PyDict.sorted_set. generalize (@nil Q) as acc.
  assert (H : forall l acc, has acc x -> has (fold_left (fun acc x => PyDict.insert x acc) l acc) x).
  { clear. induction l as [|y l IH]; intros acc Hacc; cbn; [exact Hacc|].
    apply IH. apply has_insert_old. exact Hacc. }
  induction l as [|y l IH]; intros acc Hin; [destruct Hin|].
  cbn. destruct Hin as [->|Hin].
  - apply H. apply has_insert_new.
  - apply IH. exact Hin.
Qed.

Section Built.
Context {K : Shapely}.

Lemma define_events_fields (s1 s2 : Strip) :
  region s1 = region s2 -> obstacles s1 = obstacles s2 -> axis_ s1 = axis_ s2 ->
  define_events s1 = define_events s2.
Proof. intros H1 H2 H3. unfold define_events. rewrite H1, H2, H3. reflexivity. Qed.

Lemma built_events (region0 : geom) (obstacles0 : list geom) (ax : axis) :
  let sm := StripPerimeter.__init__ region0 obstacles0 ax in
  events sm = define_events sm.
Proof.
  unfold StripPerimeter.__init__.
  destruct (validate_and_fix_geometries region0 obstacles0) as [r obs].
  unfold compute_perimeters.
  destruct (fold_left _ _ _) as [[acc per] cum]. cbn [events].
  apply define_events_fields; reflexivity.
Qed.

Lemma define_events_bounds (self : Strip) :
  has (define_events self) (fst (axis_bounds self))
  /\ has (define_events self) (snd (axis_bounds self)).
Proof.
  unfold define_events, axis_bounds.
  destruct (bounds (region self)) as [[[minx miny] maxx] maxy].
  destruct (axis_ self); cbn [fst snd]; split; apply has_sorted_set;
    cbn; auto.
Qed.

Lemma consecutive_increasing (l : list Q) :
  increasing l -> Forall (fun '(a, b) => a < b) (consecutive l).
Proof.
  induction l as [|x [|y l] IH]; intros H; try constructor.
  - inversion H as [|? ? _ Hx]; subst. inversion Hx; subst. assumption.
  - apply IH. inversion H; assumption.
Qed.

Lemma spans_strips_of (mk : Q -> Q -> geom) (es : list Q) :
  spans (strips_of mk es) = consecutive es.
Proof.
  unfold spans, strips_of. rewrite map_map.
  rewrite <- (map_id (consecutive es)) at 2. apply map_ext. intros [a b]. reflexivity.
Qed.

(** The accumulated perimeter of a built strip manager, along its events. *)
Lemma query_accumulated_built (region0 : geom) (obstacles0 : list geom) (ax : axis) c :
  let sm := StripPerimeter.__init__ region0 obstacles0 ax in
  query_accumulated_perimeter sm c = accumulated (strip_perimeter sm) (events sm) c.
Proof.
  intros sm.
  destruct (built_shape region0 obstacles0 ax) as (Hev & Hst & Hcum & Hper).
  fold sm in Hev, Hst, Hcum, Hper.
  assert (Hkeys : increasing (PyDict.keys (cumulative_perimeters sm))).
  { rewrite Hcum. destruct (events sm) as [|e0 rest]; [constructor|].
    rewrite keys_running. inversion Hev; assumption. }
  rewrite query_lookups by exact Hkeys. rewrite Hst, Hcum.
  pose proof (lookups_accumulated (strip_perimeter sm) (_create_partial_strip sm)
                (events sm) c Hev) as H.
  destruct (events sm) as [|e0 rest]; [reflexivity|exact H].
Qed.

Lemma built_spans (region0 : geom) (obstacles0 : list geom) (ax : axis) :
  let sm := StripPerimeter.__init__ region0 obstacles0 ax in
  spans (strips sm) = consecutive (events sm)
  /\ Forall (fun '(a, b) => a < b) (spans (strips sm)).
Proof.
  intros sm.
  destruct (built_shape region0 obstacles0 ax) as (Hev & Hst & _ & _).
  fold sm in Hev, Hst.
  assert (Hsp : spans (strips sm) = consecutive (events sm))
    by (rewrite Hst; apply spans_strips_of).
  split; [exact Hsp|]. rewrite Hsp. apply consecutive_increasing. exact Hev.
Qed.

End Built.

Lemma walk_from_last (P : Q -> Q -> Q) : forall rest prev s c,
  increasing (prev :: rest) -> last (prev :: rest) 0 <= c -> prev < c ->
  walk P prev s rest c
  = fold_left Qplus (map (fun '(a, b) => P a b) (consecutive (prev :: rest))) s.
Proof.
  induction rest as [|e rest IH]; intros prev s c Hs Hc Hp; [reflexivity|].
  inversion Hs as [|? ? Hs' Hprev]; subst.
  rewrite consecutive_cons. cbn [map fold_left walk].
  change (last (prev :: e :: rest) 0) with (last (e :: rest) 0) in Hc.
  assert (He : e <= last (e :: rest) 0).
  { destruct rest as [|e' rest]; [cbn; lra|].
    inversion Hs' as [|? ? _ H]; subst. rewrite Forall_forall in H.
    apply Qlt_le_weak. apply H.
    change (last (e :: e' :: rest) 0) with (last (e' :: rest) 0). apply last_in. }
  assert (E1 : Qltb c e = false) by (apply Qltb_false; lra).
  rewrite E1.
  destruct (Qeqb c e) eqn:E2.
  - apply Qeqb_true in E2.
    destruct rest as [|e' rest]; [reflexivity|].
    exfalso. inversion Hs' as [|? ? _ H]; subst. rewrite Forall_forall in H.
    assert (e < last (e' :: rest) 0) by (apply H; apply last_in).
    change (last (e :: e' :: rest) 0) with (last (e' :: rest) 0) in Hc. lra.
  - apply Qeqb_false in E2. apply IH; [exact Hs'|exact Hc|].
    destruct (Qlt_le_dec e c); [assumption|]. exfalso. apply E2. lra.
Qed.

Lemma walk_partial (P : Q -> Q -> Q) : forall pre prev s a b post c,
  increasing (prev :: pre ++ a :: b :: post) -> a < c -> c < b ->
  walk P prev s (pre ++ a :: b :: post) c
  = walk P prev s (pre ++ a :: b :: post) a + P a c.
Proof.
  induction pre as [|e pre IH]; intros prev s a b post c Hs Hac Hcb.
  - cbn [app walk].
    assert (E1 : Qltb c a = false) by (apply Qltb_false; lra).
    assert (E2 : Qeqb c a = false) by (apply Qeqb_false; lra).
    assert (E3 : Qltb c b = true) by (apply Qltb_true; lra).
    assert (E4 : Qltb a a = false) by (apply Qltb_false; lra).
    rewrite E1, E2, E3, E4, Qeqb_refl. reflexivity.
  - inversion Hs as [|? ? Hs' Hprev]; subst. cbn [app walk].
    assert (Hea : e < a).
    { inversion Hs' as [|? ? _ H]; subst. rewrite Forall_forall in H.
      apply H. apply in_or_app. right. left. reflexivity. }
    assert (E1 : Qltb c e = false) by (apply Qltb_false; lra).
    assert (E2 : Qeqb c e = false) by (apply Qeqb_false; lra).
    assert (E3 : Qltb a e = false) by (apply Qltb_false; lra).
    assert (E4 : Qeqb a e = false) by (apply Qeqb_false; lra).
    rewrite E1, E2, E3, E4. apply IH; assumption.
Qed.


Lemma length_consecutive {A : Type} (l : list A) :
  List.length (consecutive l) = pred (List.length l).
Proof.
  induction l as [|x [|y l] IH]; try reflexivity.
  rewrite consecutive_cons. cbn [List.length pred] in *. rewrite IH. reflexivity.
Qed.

(** X6.  For a strip manager built by [Strip(region, obstacles, axis)]: the
    events are strictly increasing and hold both bounds of the region along
    the axis; the strips are the pairs of consecutive events, one strip less
    than there are events, each of positive width and with the polygon
    [_create_partial_strip] gives for its two ends. *)
Theorem strips_tile_the_events :
  forall (K : Shapely) (region0 : geom) (obstacles0 : list geom) (ax : axis),
    let sm := StripPerimeter.__init__ region0 obstacles0 ax in
    increasing (events sm)
    /\ has (events sm) (fst (axis_bounds sm))
    /\ has (events sm) (snd (axis_bounds sm))
    /\ spans (strips sm) = consecutive (events sm)
    /\ Forall (fun '(a, b) => a < b) (spans (strips sm))
    /\ Forall (fun '(a, b, g0) => g0 = _create_partial_strip sm a b) (strips sm)
    /\ List.length (strips sm) = pred (List.length (events sm)).
Proof.
  intros K region0 obstacles0 ax sm.
  destruct (built_shape region0 obstacles0 ax) as (Hev & Hst & _ & _).
  fold sm in Hev, Hst.
  pose proof (built_events region0 obstacles0 ax) as Hde. fold sm in Hde. cbv zeta in Hde.
  destruct (define_events_bounds sm) as [Hlo Hhi]. rewrite <- Hde in Hlo, Hhi.
  assert (Hsp : spans (strips sm) = consecutive (events sm))
    by (rewrite Hst; apply spans_strips_of).
  repeat split; try assumption.
  - rewrite Hsp. apply consecutive_increasing. exact Hev.
  - rewrite Hst. unfold strips_of. apply Forall_forall. intros [[a b] g0] Hin.
    apply in_map_iff in Hin. destruct Hin as ([a' b'] & E & _).
    injection E as <- <- <-. reflexivity.
  - rewrite <- length_consecutive, <- Hsp. unfold spans. rewrite length_map. reflexivity.
Qed.

(** X7.  For a built strip manager with at least two events:
    [query_accumulated_perimeter(c)] is [0.0] for every [c] below the second
    event (so also inside the first strip, where no partial strip is
    added), and for every [c] at or above the last event it is the sum of
    the per-strip perimeters. *)
Theorem accumulated_perimeter_outside_events :
  forall (K : Shapely) (region0 : geom) (obstacles0 : list geom) (ax : axis)
         (e0 e1 : Q) (rest : list Q) (c : Q),
    let sm := StripPerimeter.__init__ region0 obstacles0 ax in
    events sm = e0 :: e1 :: rest ->
    (c < e1 -> query_accumulated_perimeter sm c = 0)
    /\ (last (events sm) 0 <= c ->
        query_accumulated_perimeter sm c = sumQ (map snd (per_strip_perimeters sm))).
Proof.
  intros K region0 obstacles0 ax e0 e1 rest c sm Hes.
  destruct (built_shape region0 obstacles0 ax) as (Hev & _ & _ & Hper).
  fold sm in Hev, Hper.
  pose proof (query_accumulated_built region0 obstacles0 ax c) as Hq.
  fold sm in Hq. cbv zeta in Hq. rewrite Hq, Hper, Hes. rewrite Hes in Hev.
  split.
  - intros Hc. cbn [accumulated].
    assert (E : Qltb c e1 = true) by (apply Qltb_true; exact Hc).
    rewrite E. reflexivity.
  - intros Hc. inversion Hev as [|? ? Hev' _]; subst.
    change (last (e0 :: e1 :: rest) 0) with (last (e1 :: rest) 0) in Hc.
    assert (He : e1 <= last (e1 :: rest) 0).
    { destruct rest as [|e' rest']; [cbn; lra|].
      inversion Hev' as [|? ? _ H]; subst. rewrite Forall_forall in H.
      apply Qlt_le_weak. apply H.
      change (last (e1 :: e' :: rest') 0) with (last (e' :: rest') 0). apply last_in. }
    unfold sumQ. rewrite map_map. rewrite consecutive_cons.
    cbn [map fold_left snd accumulated].
    assert (Hext : map (fun x : Q * Q =>
                          snd (let '(a, b) := x in (a, b, strip_perimeter sm a b)))
                       (consecutive (e1 :: rest))
                 = map (fun '(a, b) => strip_perimeter sm a b)
                       (consecutive (e1 :: rest))).
    { apply map_ext. intros [a b]. reflexivity. }
    rewrite Hext.
    assert (E1 : Qltb c e1 = false) by (apply Qltb_false; lra).
    rewrite E1.
    destruct (Qeqb c e1) eqn:E2.
    + apply Qeqb_true in E2.
      destruct rest as [|e' rest']; [reflexivity|].
      exfalso. inversion Hev' as [|? ? _ H]; subst. rewrite Forall_forall in H.
      assert (e1 < last (e' :: rest') 0) by (apply H; apply last_in).
      change (last (e1 :: e' :: rest') 0) with (last (e' :: rest') 0) in Hc. lra.
    + apply Qeqb_false in E2. apply walk_from_last; [exact Hev'|exact Hc|].
      destruct (Qlt_le_dec e1 c); [assumption|]. exfalso. apply E2. lra.
Qed.


Lemma query_custom_in_bounds {K : Shapely} (self : Strip) c1 c2 ic :
  c1 < c2 -> fst (axis_bounds self) <= c1 -> c2 <= snd (axis_bounds self) ->
  query_custom_strip_perimeter self c1 c2 ic
  = Some (if ic then query_accumulated_perimeter self c1 + strip_perimeter self c1 c2
          else strip_perimeter self c1 c2).
Proof.
  intros H12 Hlo Hhi. unfold query_custom_strip_perimeter, axis_bounds, strip_perimeter in *.
  assert (E : Qltb c2 c1 = false) by (apply Qltb_false; lra). rewrite E.
  destruct (bounds (region self)) as [[[minx miny] maxx] maxy].
  destruct (axis_ self); cbn [fst snd] in Hlo, Hhi.
  - assert (E1 : Qleb minx c1 = true) by (apply Qleb_true; lra).
    assert (E2 : Qleb c1 maxx = true) by (apply Qleb_true; lra).
    assert (E3 : Qleb minx c2 = true) by (apply Qleb_true; lra).
    assert (E4 : Qleb c2 maxx = true) by (apply Qleb_true; lra).
    rewrite E1, E2, E3, E4. cbn. destruct ic; reflexivity.
  - assert (E1 : Qleb miny c1 = true) by (apply Qleb_true; lra).
    assert (E2 : Qleb c1 maxy = true) by (apply Qleb_true; lra).
    assert (E3 : Qleb miny c2 = true) by (apply Qleb_true; lra).
    assert (E4 : Qleb c2 maxy = true) by (apply Qleb_true; lra).
    rewrite E1, E2, E3, E4. cbn. destruct ic; reflexivity.
Qed.

(** X8.  [query_custom_strip_perimeter] does not depend on the order of its
    two coordinates; for [c1 < c2] it raises its [ValueError] when [c1] is
    below or [c2] above the bounds of the region along the axis, and within
    the bounds it returns the perimeter of the strip from [c1] to [c2], plus
    [query_accumulated_perimeter(c1)] when [include_cumulative] is set. *)
Theorem query_custom_strip_perimeter_bounds :
  forall (K : Shapely) (self : Strip) (c1 c2 : Q) (include_cumulative : bool),
    c1 < c2 ->
    query_custom_strip_perimeter self c2 c1 include_cumulative
      = query_custom_strip_perimeter self c1 c2 include_cumulative
    /\ (fst (axis_bounds self) <= c1 -> c2 <= snd (axis_bounds self) ->
        query_custom_strip_perimeter self c1 c2 false
          = Some (strip_perimeter self c1 c2)
        /\ query_custom_strip_perimeter self c1 c2 true
          = Some (query_accumulated_perimeter self c1 + strip_perimeter self c1 c2))
    /\ (c1 < fst (axis_bounds self) \/ snd (axis_bounds self) < c2 ->
        query_custom_strip_perimeter self c1 c2 include_cumulative = None).
Proof.
  intros K self c1 c2 ic H12. split; [|split].
  - unfold query_custom_strip_perimeter.
    assert (E1 : Qltb c1 c2 = true) by (apply Qltb_true; lra).
    assert (E2 : Qltb c2 c1 = false) by (apply Qltb_false; lra).
    rewrite E1, E2. reflexivity.
  - intros Hlo Hhi. split.
    + apply (query_custom_in_bounds self c1 c2 false); assumption.
    + apply (query_custom_in_bounds self c1 c2 true); assumption.
  - intros Hout. unfold query_custom_strip_perimeter, axis_bounds in *.
    assert (E : Qltb c2 c1 = false) by (apply Qltb_false; lra). rewrite E.
    destruct (bounds (region self)) as [[[minx miny] maxx] maxy].
    destruct (axis_ self); cbn [fst snd] in Hout.
    + destruct Hout as [H|H].
      * assert (E1 : Qleb minx c1 = false) by (apply Qleb_false; lra).
        rewrite E1. reflexivity.
      * assert (E1 : Qleb c2 maxx = false) by (apply Qleb_false; lra).
        rewrite E1, !andb_false_r. reflexivity.
    + destruct Hout as [H|H].
      * assert (E1 : Qleb miny c1 = false) by (apply Qleb_false; lra).
        rewrite E1. reflexivity.
      * assert (E1 : Qleb c2 maxy = false) by (apply Qleb_false; lra).
        rewrite E1, !andb_false_r. reflexivity.
Qed.

(** X9.  For a built strip manager and a coordinate [c] strictly inside a strip
    [(a, b)] other than the first: the accumulated perimeter at [c] is the
    accumulated perimeter at the event [a] plus the perimeter of the partial
    strip from [a] to [c], which is what
    [query_custom_strip_perimeter(a, c, include_cumulative=True)] returns
    when [a] and [c] are within the bounds of the region. *)
Theorem custom_strip_extends_accumulated :
  forall (K : Shapely) (region0 : geom) (obstacles0 : list geom) (ax : axis)
         (e0 : Q) (pre : list Q) (a b : Q) (post : list Q) (c : Q),
    let sm := StripPerimeter.__init__ region0 obstacles0 ax in
    events sm = e0 :: pre ++ a :: b :: post ->
    a < c -> c < b ->
    fst (axis_bounds sm) <= a -> c <= snd (axis_bounds sm) ->
    query_accumulated_perimeter sm c
      = query_accumulated_perimeter sm a + strip_perimeter sm a c
    /\ query_custom_strip_perimeter sm a c true
      = Some (query_accumulated_perimeter sm c).
Proof.
  intros K region0 obstacles0 ax e0 pre a b post c sm Hes Hac Hcb Hlo Hhi.
  destruct (built_shape region0 obstacles0 ax) as (Hev & _ & _ & _).
  fold sm in Hev.
  assert (Hq : query_accumulated_perimeter sm c
               = query_accumulated_perimeter sm a + strip_perimeter sm a c).
  { pose proof (query_accumulated_built region0 obstacles0 ax c) as Hqc.
    pose proof (query_accumulated_built region0 obstacles0 ax a) as Hqa.
    fold sm in Hqc, Hqa. cbv zeta in Hqc, Hqa. rewrite Hqc, Hqa, Hes.
    rewrite Hes in Hev. clear Hqc Hqa Hes.
    destruct pre as [|e1 pre].
    - cbn [app accumulated walk].
      assert (E1 : Qltb c a = false) by (apply Qltb_false; lra).
      assert (E2 : Qeqb c a = false) by (apply Qeqb_false; lra).
      assert (E3 : Qltb c b = true) by (apply Qltb_true; lra).
      assert (E4 : Qltb a a = false) by (apply Qltb_false; lra).
      rewrite E1, E2, E3, E4, Qeqb_refl. reflexivity.
    - cbn [app accumulated].
      inversion Hev as [|? ? Hev' _]; subst.
      assert (Hea : e1 < a).
      { inversion Hev' as [|? ? _ H]; subst. rewrite Forall_forall in H.
        apply H. apply in_or_app. right. left. reflexivity. }
      assert (E1 : Qltb c e1 = false) by (apply Qltb_false; lra).
      assert (E2 : Qeqb c e1 = false) by (apply Qeqb_false; lra).
      assert (E3 : Qltb a e1 = false) by (apply Qltb_false; lra).
      assert (E4 : Qeqb a e1 = false) by (apply Qeqb_false; lra).
      rewrite E1, E2, E3, E4. apply walk_partial; assumption. }
  split; [exact Hq|].
  rewrite (query_custom_in_bounds sm a c true Hac Hlo Hhi). rewrite Hq. reflexivity.
Qed.



Lemma walk_at_event (P : Q -> Q -> Q) : forall rest n prev s,
  increasing (prev :: rest) -> (n < List.length rest)%nat ->
  walk P prev s rest (nth n rest 0)
  = fold_left Qplus
      (map (fun '(a, b) => P a b) (firstn (S n) (consecutive (prev :: rest)))) s.
Proof.
  induction rest as [|e rest IH]; intros n prev s Hs Hn; [cbn in Hn; lia|].
  inversion Hs as [|? ? Hs' _]; subst.
  rewrite consecutive_cons. cbn [firstn map fold_left].
  destruct n as [|n].
  - cbn [nth walk firstn map fold_left].
    assert (E1 : Qltb e e = false) by (apply Qltb_false; lra).
    rewrite E1, Qeqb_refl. reflexivity.
  - cbn [nth walk]. cbn [List.length] in Hn.
    assert (Hlt : e < nth n rest 0).
    { inversion Hs' as [|? ? _ H]; subst. rewrite Forall_forall in H.
      apply H. apply nth_In. lia. }
    assert (E1 : Qltb (nth n rest 0) e = false) by (apply Qltb_false; lra).
    assert (E2 : Qeqb (nth n rest 0) e = false) by (apply Qeqb_false; lra).
    rewrite E1, E2. apply IH; [exact Hs'|lia].
Qed.

(** X11.  For a built strip manager, the accumulated perimeter at its [n]-th
    event is the sum of the perimeters of the first [n] strips, as
    [compute_perimeters] stored them: [0.0] at the first event. *)
Theorem accumulated_perimeter_at_events :
  forall (K : Shapely) (region0 : geom) (obstacles0 : list geom) (ax : axis) (n : nat),
    let sm := StripPerimeter.__init__ region0 obstacles0 ax in
    (n < List.length (events sm))%nat ->
    query_accumulated_perimeter sm (nth n (events sm) 0)
    = sumQ (map snd (firstn n (per_strip_perimeters sm))).
Proof.
  intros K region0 obstacles0 ax n sm Hn.
  destruct (built_shape region0 obstacles0 ax) as (Hev & _ & _ & Hper).
  fold sm in Hev, Hper.
  pose proof (query_accumulated_built region0 obstacles0 ax (nth n (events sm) 0)) as Hq.
  fold sm in Hq. cbv zeta in Hq. rewrite Hq, Hper. clear Hq Hper.
  unfold sumQ. rewrite firstn_map, map_map.
  assert (Hext : forall l : list (Q * Q),
            map (fun x : Q * Q =>
                   snd (let '(a, b) := x in (a, b, strip_perimeter sm a b))) l
            = map (fun '(a, b) => strip_perimeter sm a b) l).
  { intros l. apply map_ext. intros [a b]. reflexivity. }
  rewrite Hext. clear Hext.
  destruct (events sm) as [|e0 [|e1 rest]].
  - cbn in Hn. lia.
  - destruct n as [|n]; [reflexivity|cbn in Hn; lia].
  - inversion Hev as [|? ? Hev' He0]; subst.
    rewrite consecutive_cons.
    destruct n as [|[|n]].
    + cbn [nth accumulated firstn map fold_left].
      assert (E : Qltb e0 e1 = true).
      { apply Qltb_true. inversion He0; assumption. }
      rewrite E. reflexivity.
    + cbn [nth accumulated firstn map fold_left].
      assert (E1 : Qltb e1 e1 = false) by (apply Qltb_false; lra).
      rewrite E1, Qeqb_refl. reflexivity.
    + cbn [nth accumulated firstn map fold_left]. cbn [List.length] in Hn.
      assert (Hlt : e1 < nth n rest 0).
      { inversion Hev' as [|? ? _ H]; subst. rewrite Forall_forall in H.
        apply H. apply nth_In. lia. }
      assert (E1 : Qltb (nth n rest 0) e1 = false) by (apply Qltb_false; lra).
      assert (E2 : Qeqb (nth n rest 0) e1 = false) by (apply Qeqb_false; lra).
      rewrite E1, E2. apply walk_at_event; [exact Hev'|lia].
Qed.

Import BoxGeometry Scenarios.

Lemma accumulated_perimeter_outside_events_witness :
  query_accumulated_perimeter two_boxes_strip 10 = 0
  /\ query_accumulated_perimeter two_boxes_strip 120
     = sumQ (map snd (per_strip_perimeters two_boxes_strip)).
Proof.
  split.
  - apply (accumulated_perimeter_outside_events shapely square_region
             [rectangle 30 10 50 20; rectangle 50 60 80 80] X 0 30 [50; 80; 100] 10).
    + vm_compute. reflexivity.
    + reflexivity.
  - apply (accumulated_perimeter_outside_events shapely square_region
             [rectangle 30 10 50 20; rectangle 50 60 80 80] X 0 30 [50; 80; 100] 120).
    + vm_compute. reflexivity.
    + vm_compute. discriminate.
Defined.

Lemma query_custom_strip_perimeter_bounds_witness :
  query_custom_strip_perimeter two_boxes_strip 60 35 true
    = query_custom_strip_perimeter two_boxes_strip 35 60 true
  /\ query_custom_strip_perimeter two_boxes_strip 35 60 false
     = Some (strip_perimeter two_boxes_strip 35 60).
Proof.
  destruct (query_custom_strip_perimeter_bounds shapely two_boxes_strip 35 60 true)
    as (H1 & H2 & _); [reflexivity|].
  split; [exact H1|].
  apply H2; vm_compute; discriminate.
Defined.

Lemma custom_strip_extends_accumulated_witness :
  query_accumulated_perimeter two_boxes_strip 35
    = query_accumulated_perimeter two_boxes_strip 30 + strip_perimeter two_boxes_strip 30 35
  /\ query_custom_strip_perimeter two_boxes_strip 30 35 true
    = Some (query_accumulated_perimeter two_boxes_strip 35).
Proof.
  apply (custom_strip_extends_accumulated shapely square_region
           [rectangle 30 10 50 20; rectangle 50 60 80 80] X 0 [] 30 50 [80; 100] 35).
  - vm_compute. reflexivity.
  - reflexivity.
  - reflexivity.
  - vm_compute. discriminate.
  - vm_compute. discriminate.
Defined.



Lemma accumulated_perimeter_at_events_witness :
  query_accumulated_perimeter two_boxes_strip 50
  = sumQ (map snd (firstn 2 (per_strip_perimeters two_boxes_strip))).
Proof.
  apply (accumulated_perimeter_at_events shapely square_region
           [rectangle 30 10 50 20; rectangle 50 60 80 80] X 2).
  vm_compute. lia.
Defined.

Section Keys.
Context {K : Shapely}.

Lemma in_consecutive_tl {A : Type} (a b : A) (l : list A) :
  In (a, b) (consecutive l) -> In b (tl l).
Proof.
  induction l as [|x [|y l] IH]; [intros []|intros []|].
  rewrite consecutive_cons. intros [E|H].
  - injection E as _ <-. left. reflexivity.
  - right. apply IH. exact H.
Qed.

Lemma built_axis (region0 : geom) (obstacles0 : list geom) (ax : axis) :
  axis_ (StripPerimeter.__init__ region0 obstacles0 ax) = ax.
Proof.
  unfold StripPerimeter.__init__.
  destruct (validate_and_fix_geometries region0 obstacles0) as [r obs].
  unfold compute_perimeters. destruct (fold_left _ _ _) as [[acc per] cum]. reflexivity.
Qed.

Lemma built_key (region0 : geom) (obstacles0 : list geom) (ax : axis) (a b : Q) (g0 : geom) :
  let sm := StripPerimeter.__init__ region0 obstacles0 ax in
  In (a, b, g0) (strips sm) ->
  exists v, PyDict.get (cumulative_perimeters sm) b = Some v.
Proof.
  intros sm Hin.
  destruct (built_shape region0 obstacles0 ax) as (Hev & Hst & Hcum & _).
  fold sm in Hev, Hst, Hcum.
  destruct (built_spans region0 obstacles0 ax) as [Hsp _]. fold sm in Hsp.
  assert (Hc : In (a, b) (consecutive (events sm))).
  { rewrite <- Hsp. unfold spans. apply in_map_iff. exists (a, b, g0). auto. }
  apply in_consecutive_tl in Hc.
  destruct (events sm) as [|e0 rest]; [destruct Hc|]. cbn [tl] in Hc.
  assert (Hk : In b (PyDict.keys (cumulative_perimeters sm)))
    by (rewrite Hcum, keys_running; exact Hc).
  unfold PyDict.keys in Hk. apply in_map_iff in Hk. destruct Hk as ([k v] & Ek & Hkv).
  cbn in Ek. subst k. exists v. apply get_in_increasing; [|exact Hkv].
  rewrite Hcum, keys_running. inversion Hev; assumption.
Qed.

End Keys.

(** X12.  For a strip [(a, b, polygon)] of a built strip manager whose polygon
    has [b] as its upper bound along the axis, the lookup of
    [calculate_wcrt_at_strip] finds the key [b] (its default [0.0] is not
    used) and the result is [query_wcrt_at_coordinate(b)], which is
    [calculate_wcrt_left(b)]. *)
Theorem wcrt_at_strip_is_wcrt_at_its_upper_end :
  forall (K : Shapely) (region0 : geom) (obstacles0 : list geom) (ax : axis)
         (a b : Q) (g0 : geom) (x0 y0 x1 y1 : Q),
    let sm := StripPerimeter.__init__ region0 obstacles0 ax in
    In (a, b, g0) (strips sm) ->
    bounds g0 = (x0, y0, x1, y1) ->
    match ax with X => x1 | Y => y1 end = b ->
    calculate_wcrt_at_strip sm g0 = query_wcrt_at_coordinate sm b
    /\ query_wcrt_at_coordinate sm b = calculate_wcrt_left sm b.
Proof.
  intros K region0 obstacles0 ax a b g0 x0 y0 x1 y1 sm Hin Hb Hax.
  split; [|reflexivity].
  destruct (built_key region0 obstacles0 ax a b g0 Hin) as [v Hv]. fold sm in Hv.
  unfold calculate_wcrt_at_strip, query_wcrt_at_coordinate, query_accumulated_perimeter.
  assert (Hx : axis_ sm = ax) by apply built_axis.
  rewrite Hb, Hx, Hax, Hv. reflexivity.
Qed.


Lemma wcrt_at_strip_is_wcrt_at_its_upper_end_witness :
  calculate_wcrt_at_strip two_boxes_strip (b_box 50 0 80 100)
  = query_wcrt_at_coordinate two_boxes_strip 80.
Proof.
  apply (wcrt_at_strip_is_wcrt_at_its_upper_end shapely square_region
           [rectangle 30 10 50 20; rectangle 50 60 80 80] X 50 80 (b_box 50 0 80 100)
           50 0 80 100).
  - vm_compute. right. right. left. reflexivity.
  - vm_compute. reflexivity.
  - reflexivity.
Defined.
Section Fields.
Context {K : Shapely}.

Lemma built_region_obstacles (region0 : geom) (obstacles0 : list geom) (ax : axis) :
  let sm := StripPerimeter.__init__ region0 obstacles0 ax in
  region sm = _validate_2d (fst (validate_and_fix_geometries region0 obstacles0))
  /\ obstacles sm = map _validate_2d (snd (validate_and_fix_geometries region0 obstacles0)).
Proof.
  unfold StripPerimeter.__init__.
  destruct (validate_and_fix_geometries region0 obstacles0) as [r obs].
  unfold compute_perimeters. destruct (fold_left _ _ _) as [[acc per] cum].
  split; reflexivity.
Qed.

Lemma total_perimeter_fields (s1 s2 : Strip) :
  region s1 = region s2 -> obstacles s1 = obstacles s2 ->
  calculate_total_obstacle_perimeter s1 = calculate_total_obstacle_perimeter s2.
Proof.
  intros H1 H2. unfold calculate_total_obstacle_perimeter, _get_region_boundary.
  rewrite H1, H2. reflexivity.
Qed.

End Fields.

(** X13.  The total obstacle perimeter, the diagonal and the WCRT of a region
    ([calculate_total_obstacle_perimeter], [calculate_region_diagonal],
    [calculate_region_wcrt]) are the same for the strip managers built on
    the same region and obstacles along [x] and along [y]. *)
Theorem region_wcrt_independent_of_axis :
  forall (K : Shapely) (region0 : geom) (obstacles0 : list geom) (ax1 ax2 : axis),
    let sm1 := StripPerimeter.__init__ region0 obstacles0 ax1 in
    let sm2 := StripPerimeter.__init__ region0 obstacles0 ax2 in
    calculate_total_obstacle_perimeter sm1 = calculate_total_obstacle_perimeter sm2
    /\ calculate_region_diagonal sm1 = calculate_region_diagonal sm2
    /\ calculate_region_wcrt sm1 = calculate_region_wcrt sm2.
Proof.
  intros K region0 obstacles0 ax1 ax2 sm1 sm2.
  destruct (built_region_obstacles region0 obstacles0 ax1) as [Hr1 Ho1].
  destruct (built_region_obstacles region0 obstacles0 ax2) as [Hr2 Ho2].
  fold sm1 in Hr1, Ho1. fold sm2 in Hr2, Ho2.
  assert (Hr : region sm1 = region sm2) by congruence.
  assert (Ho : obstacles sm1 = obstacles sm2) by congruence.
  assert (Hp : calculate_total_obstacle_perimeter sm1
               = calculate_total_obstacle_perimeter sm2)
    by (apply total_perimeter_fields; assumption).
  assert (Hd : calculate_region_diagonal sm1 = calculate_region_diagonal sm2)
    by (unfold calculate_region_diagonal; rewrite Hr; reflexivity).
  split; [exact Hp|]. split; [exact Hd|].
  unfold calculate_region_wcrt. rewrite Hp, Hd. reflexivity.
Qed.
End StripInvariants.

(** ** The order of the accumulated perimeters *)

Module AccumulatedOrder.
Import Py PyFacts StripPerimeter StripSpec StripProofs StripInvariants.

(** What is built from lengths by sums only keeps every property [N] that
    lengths have and sums keep: being non-negative, being a sum of
    lengths. *)
Section Additive.
Context {K : Shapely}.
Variable N : Q -> Prop.
Hypothesis N_zero : N 0.
Hypothesis N_plus : forall x y, N x -> N y -> N (x + y).
Hypothesis N_eq : forall x y, x == y -> N x -> N y.
Hypothesis N_length : forall g : geom, N (length g).




Variable P : Q -> Q -> Q.
Hypothesis P_keeps : forall a c, N (P a c).





End Additive.

Section Sums.
Context {K : Shapely}.







End Sums.




Import BoxGeometry Scenarios.


End AccumulatedOrder.


(** ** The strip of interest and the brackets handed to the solver *)

Module DividerProofs.
Import Py PyFacts NumericalSolution StripPerimeter ObstacleAwareDivider DividerSpec.
Import SolverProofs.

Section Crossing.
Context {K : Shapely}.
Variable self : Divider.

Lemma find_strip_loop_crossing : forall pre s post best m,
  (forall s', In s' pre -> crossing self s' = false) ->
  crossing self s = true ->
  find_strip_loop self (pre ++ s :: post) best m = Some s.
Proof.
  induction pre as [|[[a b] g0] pre IH]; intros s post best m Hpre Hs.
  - destruct s as [[a b] g0]. cbn in Hs |- *.
    destruct (lt_inf _ m); rewrite Hs; reflexivity.
  - cbn [app find_strip_loop].
    pose proof (Hpre (a, b, g0) (or_introl eq_refl)) as Hc. cbn in Hc.
    destruct (lt_inf _ m); rewrite Hc; apply IH; auto; intros; apply Hpre; right; auto.
Qed.

Lemma find_strip_loop_no_crossing : forall l best m,
  (forall s, In s l -> crossing self s = false) ->
  scan_state self best m ->
  match find_strip_loop self l best m with
  | None => best = None /\ l = []
  | Some s =>
      (best = Some s /\ forall s', In s' l -> imbalance self s <= imbalance self s')
      \/ (exists pre post,
            l = pre ++ s :: post
            /\ (forall s', In s' pre -> imbalance self s < imbalance self s')
            /\ (forall s', In s' post -> imbalance self s <= imbalance self s')
            /\ lt_inf (imbalance self s) m = true)
  end.
Proof.
  induction l as [|[[a b] g0] l IH]; intros best m Hl Hst.
  - cbn. destruct best; [left; split; [reflexivity|intros s' []]|auto].
  - cbn [find_strip_loop].
    pose proof (Hl (a, b, g0) (or_introl eq_refl)) as Hc. cbn in Hc.
    assert (Hl' : forall s, In s l -> crossing self s = false) by (intros; apply Hl; right; auto).
    set (v := Qabs (WCRT_left_at self b - WCRT_right_at self b)).
    destruct (lt_inf v m) eqn:Elt; rewrite Hc.
    + specialize (IH (Some (a, b, g0)) (Some v) Hl' eq_refl).
      destruct (find_strip_loop self l (Some (a, b, g0)) (Some v)) as [s|].
      * right. destruct IH as [[Hb Hmin]|(pre & post & -> & Hpre & Hpost & Hlt)].
        -- injection Hb as <-. exists [], l. cbn. repeat split; auto. intros s' [].
        -- cbn in Hlt. apply Qltb_true in Hlt.
           exists ((a, b, g0) :: pre), post. cbn. repeat split; auto.
           ++ intros s' [<-|Hin]; [exact Hlt|auto].
           ++ destruct m as [m|]; cbn in Elt |- *; [|reflexivity].
              apply Qltb_true in Elt. apply Qltb_true. fold v in Hlt. lra.
      * destruct IH as [Hb _]. discriminate.
    + destruct m as [m|]; [|discriminate]. cbn in Elt. apply Qltb_false in Elt.
      destruct best as [b0|]; [|contradiction]. cbn in Hst. subst m.
      specialize (IH (Some b0) (Some (imbalance self b0)) Hl' eq_refl).
      destruct (find_strip_loop self l (Some b0) (Some (imbalance self b0))) as [s|].
      * destruct IH as [[Hb Hmin]|(pre & post & -> & Hpre & Hpost & Hlt)].
        -- injection Hb as <-. left. split; [reflexivity|].
           intros s' [<-|Hin]; [exact Elt|auto].
        -- cbn in Hlt. apply Qltb_true in Hlt.
           right. exists ((a, b, g0) :: pre), post. cbn. repeat split; auto.
           ++ intros s' [<-|Hin]; [|auto]. cbn. fold v. lra.
           ++ apply Qltb_true. exact Hlt.
      * destruct IH as [Hb _]. discriminate.
Qed.

End Crossing.

(** The scan as it is written.  [find_strip_of_interest] returns the first
    strip, in scanning order, at whose right boundary
    [WCRT_left > WCRT_right], strictly: a boundary where the two sides are
    equal is passed over.  When no strip has such a crossing it returns the
    first of the strips with the least [|WCRT_left - WCRT_right|], and
    [None] when there is no strip at all. *)
Theorem find_strip_of_interest_strict_crossing :
  forall (K : Shapely) (self : Divider),
    (forall pre s post,
        strips (sp self) = pre ++ s :: post ->
        (forall s', In s' pre -> crossing self s' = false) ->
        crossing self s = true ->
        find_strip_of_interest self = Some s)
    /\ ((forall s, In s (strips (sp self)) -> crossing self s = false) ->
        match find_strip_of_interest self with
        | None => strips (sp self) = []
        | Some s =>
            exists pre post,
              strips (sp self) = pre ++ s :: post
              /\ (forall s', In s' pre -> imbalance self s < imbalance self s')
              /\ (forall s', In s' post -> imbalance self s <= imbalance self s')
        end).
Proof.
  intros K self. split.
  - intros pre s post E Hpre Hs. unfold find_strip_of_interest. rewrite E.
    apply find_strip_loop_crossing; assumption.
  - intros Hno. unfold find_strip_of_interest.
    pose proof (find_strip_loop_no_crossing self (strips (sp self)) None None Hno I) as H.
    destruct (find_strip_loop self (strips (sp self)) None None) as [s|].
    + destruct H as [[Hb _]|(pre & post & E & Hpre & Hpost & _)]; [discriminate|].
      exists pre, post. auto.
    + apply H.
Qed.

Import BoxGeometry Scenarios.

(** On the square with the two boxes the first strict crossing is at the
    right boundary of the strip [(50, 80)]. *)
Lemma find_strip_of_interest_strict_crossing_witness :
  exists g0, find_strip_of_interest two_boxes_divider = Some (50, 80, g0).
Proof.
  destruct (find_strip_of_interest_strict_crossing shapely two_boxes_divider)
    as [Hfirst _].
  match eval vm_compute in (strips (sp two_boxes_divider)) with
  | ?s1 :: ?s2 :: (?a, ?b, ?g0) :: ?post =>
      exists g0; apply (Hfirst [s1; s2] (a, b, g0) post)
  end.
  - vm_compute. reflexivity.
  - intros s' [<-|[<-|[]]]; vm_compute; reflexivity.
  - vm_compute. reflexivity.
Defined.

(** C3.  The strict test of the scan loses a balanced cut.  On the square
    with the two boxes both sides are equal at [x = 50] ([g(50) = 0]).  The
    strip of the specification, the first one with
    [WCRT_left >= WCRT_right] at its right boundary, is [(30, 50)]; it is a
    strip of case 3, and [handle_case_3] puts the cut at its right boundary
    [50], the balanced cut.  The code asks for [WCRT_left > WCRT_right],
    passes over [(30, 50)] and returns [(50, 80)]; there [g(50) = 0] leaves
    no sign change for the handler, whose [return c_j] gives the cut [80],
    where [g] is above 106. *)
Lemma find_strip_of_interest_skips_equality :
  (Qeq_bool (WCRT_left_at two_boxes_divider 50) (WCRT_right_at two_boxes_divider 50) = true
   /\ Qeq_bool (g two_boxes_divider 50) 0 = true)
  /\ (exists s,
        first_strip_left_ge_right two_boxes_divider = Some s
        /\ strip_ends s = (30, 50)
        /\ determine_case_for_strip two_boxes_divider s = 3%Z
        /\ handle_case_3 (apply_numerical_method two_boxes_divider) (g two_boxes_divider)
             30 50 (g two_boxes_divider 30) (g two_boxes_divider 50) = Ok 50)
  /\ (option_map strip_ends (find_strip_of_interest two_boxes_divider) = Some (50, 80)
      /\ find_optimal_division_point two_boxes_divider = Ok (Some 80)
      /\ Qle_bool 106 (g two_boxes_divider 80) = true).
Proof.
  split; [vm_compute; split; reflexivity|]. split.
  - match eval vm_compute in (first_strip_left_ge_right two_boxes_divider) with
    | Some ?s => exists s
    end.
    vm_compute. repeat split.
  - vm_compute. repeat split.
Qed.

Lemma apply_numerical_method_no_valueerror method0 g_ g_prime_ a b :
  g_ a * g_ b <= 0 ->
  raises ValueError_Brent (apply_numerical_method_on method0 g_ g_prime_ a b) = false.
Proof.
  intros H. unfold apply_numerical_method_on.
  destruct (String.eqb method0 "brent"%string).
  - apply brent_no_valueerror; assumption.
  - unfold solve_for_root_with_defensive_newton_rhapson, try_except.
    destruct (solve_for_root_newton_raphson _ _ _ _ _); [reflexivity|].
    apply brent_no_valueerror; assumption.
Qed.

Lemma handle_case_1_no_valueerror method0 g_ g_prime_ c_prev c_curr :
  raises ValueError_Brent
    (handle_case_1 (apply_numerical_method_on method0 g_ g_prime_)
       c_prev c_curr (g_ c_prev) (g_ c_curr)) = false.
Proof.
  unfold handle_case_1.
  destruct (Qltb (g_ c_prev * g_ c_curr) 0) eqn:E; [|reflexivity].
  apply Qltb_true in E. apply apply_numerical_method_no_valueerror. lra.
Qed.

Lemma handle_case_3_no_valueerror method0 g_ g_prime_ c_prev c_curr :
  raises ValueError_Brent
    (handle_case_3 (apply_numerical_method_on method0 g_ g_prime_) g_
       c_prev c_curr (g_ c_prev) (g_ c_curr)) = false.
Proof.
  unfold handle_case_3.
  destruct (Qleb (g_ (c_curr - (1 # 1000000))) 0); [reflexivity|].
  destruct (Qltb (g_ c_prev * g_ (c_curr - (1 # 1000000))) 0) eqn:E; [|reflexivity].
  apply Qltb_true in E. apply apply_numerical_method_no_valueerror. lra.
Qed.

(** C6.  The case handlers, called as [find_optimal_division_point] calls
    them (with [g(c_prev)] and [g(c_curr)]), hand a bracket to the numerical
    solver only when [g(a) * g(b) <= 0]: a solver that first checks this
    precondition gives the same results, for every solver.  So with the
    solver of [apply_numerical_method], by Brent directly or after a failed
    Newton iteration, the [ValueError] of Brent's bracket check is never
    raised, by the handlers or by [find_optimal_division_point]. *)
Theorem handlers_dispatch_on_valid_bracket :
  forall (K : Shapely) (self : Divider)
         (g_ g_prime_ : Q -> Q) (solver : Q -> Q -> result Q)
         (method0 : string) (c_prev c_curr : Q),
    (handle_case_1 solver c_prev c_curr (g_ c_prev) (g_ c_curr)
       = handle_case_1 (checked_bracket g_ solver) c_prev c_curr (g_ c_prev) (g_ c_curr)
     /\ handle_case_2 solver c_prev c_curr (g_ c_prev) (g_ c_curr)
       = handle_case_2 (checked_bracket g_ solver) c_prev c_curr (g_ c_prev) (g_ c_curr)
     /\ handle_case_3 solver g_ c_prev c_curr (g_ c_prev) (g_ c_curr)
       = handle_case_3 (checked_bracket g_ solver) g_ c_prev c_curr (g_ c_prev) (g_ c_curr))
    /\ raises ValueError_Brent
         (handle_case_1 (apply_numerical_method_on method0 g_ g_prime_)
            c_prev c_curr (g_ c_prev) (g_ c_curr)) = false
    /\ raises ValueError_Brent
         (handle_case_2 (apply_numerical_method_on method0 g_ g_prime_)
            c_prev c_curr (g_ c_prev) (g_ c_curr)) = false
    /\ raises ValueError_Brent
         (handle_case_3 (apply_numerical_method_on method0 g_ g_prime_) g_
            c_prev c_curr (g_ c_prev) (g_ c_curr)) = false
    /\ raises ValueError_Brent (find_optimal_division_point self) = false.
Proof.
  intros K self g_ g_prime_ solver method0 c_prev c_curr.
  split; [|split; [|split; [|split]]].
  - unfold handle_case_1, handle_case_2, handle_case_3, checked_bracket.
    repeat split.
    1-2: destruct (Qltb (g_ c_prev * g_ c_curr) 0) eqn:E; [|reflexivity];
         apply Qltb_true in E;
         assert (Hle : Qleb (g_ c_prev * g_ c_curr) 0 = true) by (apply Qleb_true; lra);
         rewrite Hle; reflexivity.
    destruct (Qleb (g_ (c_curr - (1 # 1000000))) 0); [reflexivity|].
    destruct (Qltb (g_ c_prev * g_ (c_curr - (1 # 1000000))) 0) eqn:E; [|reflexivity].
    apply Qltb_true in E.
    assert (Hle : Qleb (g_ c_prev * g_ (c_curr - (1 # 1000000))) 0 = true)
      by (apply Qleb_true; lra).
    rewrite Hle. reflexivity.
  - apply handle_case_1_no_valueerror.
  - apply handle_case_1_no_valueerror.
  - apply handle_case_3_no_valueerror.
  - unfold find_optimal_division_point.
    destruct (find_strip_of_interest self) as [[[a b] sg]|]; [|reflexivity].
    unfold apply_numerical_method.
    destruct (_ =? 1)%Z.
    { apply raises_bind; [apply handle_case_1_no_valueerror|reflexivity]. }
    destruct (_ =? 2)%Z.
    { apply raises_bind; [apply handle_case_1_no_valueerror|reflexivity]. }
    destruct (_ =? 3)%Z; [|reflexivity].
    apply raises_bind; [apply handle_case_3_no_valueerror|reflexivity].
Qed.

End DividerProofs.

(** ** The division point *)

Module DivisionPoint.
Import Py PyFacts NumericalSolution SolverSpec StripPerimeter StripSpec.
Import ObstacleAwareDivider DividerSpec.
Import SolverProofs RootFinding StripProofs StripInvariants.

Lemma default_tol_pos : 0 < default_tol.
Proof. reflexivity. Qed.

Lemma apply_numerical_method_returns method0 g_ g_prime_ a b :
  g_ a * g_ b <= 0 ->
  exists x, apply_numerical_method_on method0 g_ g_prime_ a b = Ok x
            /\ (String.eqb method0 "brent" = true -> between a b x).
Proof.
  intros H. unfold apply_numerical_method_on.
  destruct (brent_returns_in_bracket g_ a b default_tol default_max_iter
              default_tol_pos H) as (x & _ & Hx & Hok).
  destruct (String.eqb method0 "brent").
  - exists (exit_value x). split; [exact Hx|]. intros _.
    eapply brent_exit_ok_between; eassumption.
  - unfold solve_for_root_with_defensive_newton_rhapson, try_except. cbn [fst snd].
    destruct (solve_for_root_newton_raphson _ _ _ _ _) as [y|e].
    + exists y. split; [reflexivity|discriminate].
    + exists (exit_value x). split; [exact Hx|discriminate].
Qed.

Lemma handle_case_1_returns method0 g_ g_prime_ a b :
  exists c, handle_case_1 (apply_numerical_method_on method0 g_ g_prime_)
              a b (g_ a) (g_ b) = Ok c
            /\ (String.eqb method0 "brent" = true -> cut_of_strip a b c).
Proof.
  unfold handle_case_1, cut_of_strip.
  destruct (Qltb (g_ a * g_ b) 0) eqn:E.
  - apply Qltb_true in E.
    destruct (apply_numerical_method_returns method0 g_ g_prime_ a b) as (x & Hx & Hb);
      [lra|].
    exists x. split; [exact Hx|]. intros Hm. right. left. apply Hb. exact Hm.
  - exists b. split; [reflexivity|]. intros _. left. reflexivity.
Qed.

Lemma handle_case_3_returns method0 g_ g_prime_ a b :
  exists c, handle_case_3 (apply_numerical_method_on method0 g_ g_prime_) g_
              a b (g_ a) (g_ b) = Ok c
            /\ (String.eqb method0 "brent" = true -> cut_of_strip a b c).
Proof.
  unfold handle_case_3, cut_of_strip.
  destruct (Qleb (g_ (b - (1 # 1000000))) 0).
  { exists b. split; [reflexivity|]. intros _. left. reflexivity. }
  destruct (Qltb (g_ a * g_ (b - (1 # 1000000))) 0) eqn:E.
  - apply Qltb_true in E.
    destruct (apply_numerical_method_returns method0 g_ g_prime_ a (b - (1 # 1000000)))
      as (x & Hx & Hb); [lra|].
    exists x. split; [exact Hx|]. intros Hm. right. right. apply Hb. exact Hm.
  - exists b. split; [reflexivity|]. intros _. left. reflexivity.
Qed.

Section Scan.
Context {K : Shapely}.
Variable self : Divider.

Lemma find_strip_loop_some : forall l best m,
  (best = None -> m = None) ->
  match find_strip_loop self l best m with
  | Some s => In s l \/ best = Some s
  | None => l = [] /\ best = None
  end.
Proof.
  induction l as [|[[a b] g0] l IH]; intros best m Hinv; cbn [find_strip_loop].
  - destruct best; auto.
  - destruct (lt_inf _ m) eqn:El.
    + destruct (Qltb (WCRT_right_at self b) (WCRT_left_at self b)).
      { left. left. reflexivity. }
      specialize (IH (Some (a, b, g0))
                     (Some (Qabs (WCRT_left_at self b - WCRT_right_at self b)))).
      destruct (find_strip_loop _ _ _ _) as [s|].
      * destruct IH as [H|H]; [discriminate|left; right; exact H|].
        injection H as <-. left. left. reflexivity.
      * destruct IH as [_ H]; discriminate.
    + destruct (Qltb (WCRT_right_at self b) (WCRT_left_at self b)).
      { left. left. reflexivity. }
      assert (Hb : best <> None).
      { intros Hn. rewrite (Hinv Hn) in El. discriminate. }
      specialize (IH best m Hinv).
      destruct (find_strip_loop _ _ _ _) as [s|].
      * destruct IH as [H|H]; [left; right; exact H|right; exact H].
      * destruct IH as [_ H]. contradiction.
Qed.

Lemma find_strip_of_interest_some :
  match find_strip_of_interest self with
  | Some s => In s (strips (sp self))
  | None => strips (sp self) = []
  end.
Proof.
  unfold find_strip_of_interest.
  pose proof (find_strip_loop_some (strips (sp self)) None None (fun _ => eq_refl)) as H.
  destruct (find_strip_loop _ _ _ _) as [s|].
  - destruct H as [H|H]; [exact H|discriminate].
  - apply H.
Qed.

Lemma determine_case_range (s : strip) :
  determine_case_for_strip self s = 1%Z
  \/ determine_case_for_strip self s = 2%Z
  \/ determine_case_for_strip self s = 3%Z.
Proof.
  unfold determine_case_for_strip. destruct s as [[a b] g0].
  destruct (get_obstacles_within_strip self g0); [auto|].
  destruct (Qltb _ _); [auto|].
  destruct (existsb _ _); auto.
Qed.

Lemma find_optimal_division_point_cut :
  match find_strip_of_interest self with
  | None => find_optimal_division_point self = Raise RuntimeError_NoStrip
  | Some (a, b, g0) =>
      exists c, find_optimal_division_point self = Ok (Some c)
                /\ (String.eqb (method self) "brent" = true -> cut_of_strip a b c)
  end.
Proof.
  unfold find_optimal_division_point.
  destruct (find_strip_of_interest self) as [[[a b] g0]|]; [|reflexivity].
  change (apply_numerical_method self)
    with (apply_numerical_method_on (method self) (g self) (g_prime self)).
  cbv zeta.
  destruct (determine_case_range (a, b, g0)) as [E|[E|E]]; rewrite E; cbn [Z.eqb Pos.eqb].
  - destruct (handle_case_1_returns (method self) (g self) (g_prime self) a b)
      as (c & Hc & Hcut).
    rewrite Hc. exists c. split; [reflexivity|exact Hcut].
  - destruct (handle_case_1_returns (method self) (g self) (g_prime self) a b)
      as (c & Hc & Hcut).
    change @handle_case_2 with @handle_case_1.
    rewrite Hc. exists c. split; [reflexivity|exact Hcut].
  - destruct (handle_case_3_returns (method self) (g self) (g_prime self) a b)
      as (c & Hc & Hcut).
    rewrite Hc. exists c. split; [reflexivity|exact Hcut].
Qed.

End Scan.

(** X14.  [find_optimal_division_point] raises its [RuntimeError] exactly when
    the strip manager has no strip; with at least one strip it returns a
    coordinate, with either numerical method: it raises nothing and never
    falls through to [None]. *)
Theorem find_optimal_division_point_returns :
  forall (K : Shapely) (self : Divider),
    match strips (sp self) with
    | [] => find_optimal_division_point self = Raise RuntimeError_NoStrip
    | _ :: _ => exists c, find_optimal_division_point self = Ok (Some c)
    end.
Proof.
  intros K self.
  pose proof (find_strip_of_interest_some self) as Hs.
  pose proof (find_optimal_division_point_cut self) as Hc.
  destruct (find_strip_of_interest self) as [[[a b] g0]|].
  - destruct (strips (sp self)); [destruct Hs|].
    destruct Hc as (c & Hc & _). exists c. exact Hc.
  - rewrite Hs. exact Hc.
Qed.

(** X15.  With the method ['brent'] on a built strip manager, the coordinate
    [find_optimal_division_point] returns belongs to the strip of interest
    [(a, b)]: it is at most [b] and above [a - 1e-6], and at least [a] when
    the strip is at least [1e-6] wide. *)
Theorem division_point_within_strip_of_interest :
  forall (K : Shapely) (region0 : geom) (obstacles0 : list geom) (ax : axis) (c : Q),
    let sm := StripPerimeter.__init__ region0 obstacles0 ax in
    let self := ObstacleAwareDivider.__init__ sm "brent" in
    find_optimal_division_point self = Ok (Some c) ->
    exists a b g0,
      find_strip_of_interest self = Some (a, b, g0)
      /\ In (a, b) (consecutive (events sm))
      /\ a - (1 # 1000000) < c /\ c <= b
      /\ ((1 # 1000000) <= b - a -> a <= c).
Proof.
  intros K region0 obstacles0 ax c sm self H.
  pose proof (find_strip_of_interest_some self) as Hs.
  pose proof (find_optimal_division_point_cut self) as Hc.
  destruct (find_strip_of_interest self) as [[[a b] g0]|].
  2:{ rewrite Hc in H. discriminate. }
  destruct Hc as (c' & Hc & Hcut). rewrite Hc in H. injection H as ->.
  specialize (Hcut eq_refl).
  destruct (built_spans region0 obstacles0 ax) as (Hsp & Hpos).
  fold sm in Hsp, Hpos.
  assert (Hin : In (a, b) (spans (strips sm))).
  { unfold spans. apply in_map_iff. exists (a, b, g0). split; [reflexivity|exact Hs]. }
  assert (Hab : a < b).
  { rewrite Forall_forall in Hpos. apply (Hpos (a, b)). exact Hin. }
  exists a, b, g0. split; [reflexivity|]. split; [rewrite <- Hsp; exact Hin|].
  unfold cut_of_strip, between in Hcut.
  destruct Hcut as [->|[Hcut|Hcut]];
    (split; [lra|split; [lra|intros Hw; lra]]).
Qed.

Import BoxGeometry Scenarios.

Lemma division_point_within_strip_of_interest_witness :
  exists a b g0,
    find_strip_of_interest (ObstacleAwareDivider.__init__ two_boxes_strip "brent")
      = Some (a, b, g0)
    /\ In (a, b) (consecutive (events two_boxes_strip))
    /\ a - (1 # 1000000) < 80 /\ 80 <= b
    /\ ((1 # 1000000) <= b - a -> a <= 80).
Proof.
  apply (division_point_within_strip_of_interest shapely square_region
           [rectangle 30 10 50 20; rectangle 50 60 80 80] X 80).
  vm_compute. reflexivity.
Defined.

Section Divide.
Context {K : Shapely}.

Lemma extract_polygonal_part_polygonal (g0 p : geom) :
  _extract_polygonal_part g0 = Some p -> polygonal p.
Proof.
  unfold _extract_polygonal_part, polygonal.
  destruct (is_empty g0); [discriminate|].
  destruct (geom_type g0) eqn:E; try discriminate.
  - intros H. injection H as <-. left. exact E.
  - intros H. injection H as <-. right. exact E.
  - destruct (flat_map _ _); [discriminate|].
    destruct (geom_type (unary_union _)) eqn:Eu; try discriminate;
      intros H; injection H as <-; [left|right]; exact Eu.
Qed.

Lemma clipped_obstacles_polygonal (R : geom) (obs : list geom) :
  Forall polygonal
    (flat_map (fun ob =>
       match _extract_polygonal_part (make_valid (intersection ob R)) with
       | Some p => [p] | None => [] end) obs).
Proof.
  induction obs as [|ob obs IH]; cbn [flat_map]; [constructor|].
  destruct (_extract_polygonal_part _) as [p|] eqn:E; cbn [app]; [|exact IH].
  constructor; [|exact IH]. eapply extract_polygonal_part_polygonal; eassumption.
Qed.

Lemma clipped_obstacles_length (R : geom) (obs : list geom) :
  (List.length
     (flat_map (fun ob =>
        match _extract_polygonal_part (make_valid (intersection ob R)) with
        | Some p => [p] | None => [] end) obs)
   <= List.length obs)%nat.
Proof.
  induction obs as [|ob obs IH]; cbn [flat_map]; [cbn; lia|].
  destruct (_extract_polygonal_part _); cbn [app List.length]; lia.
Qed.

End Divide.

(** X16.  [divide_region] raises nothing but its own [ValueError].  When it
    returns, every obstacle of the two halves is a [Polygon] or a
    [MultiPolygon] (repaired by [buffer(0)] when it is not valid): lines and
    points left by the clipping are dropped, and neither half has more
    obstacles than the region had. *)
Theorem divide_region_hands_on_polygons :
  forall (K : Shapely) (self : Divider) (cut_coord : Q),
    match divide_region self cut_coord with
    | Raise e => e = ValueError_Divide
    | Ok ((R_left, left_obstacles), (R_right, right_obstacles)) =>
        Forall fixed_polygonal left_obstacles
        /\ Forall fixed_polygonal right_obstacles
        /\ (List.length left_obstacles <= List.length (obstacles (sp self)))%nat
        /\ (List.length right_obstacles <= List.length (obstacles (sp self)))%nat
    end.
Proof.
  intros K self c. unfold divide_region.
  destruct (bounds (region (sp self))) as [[[minx miny] maxx] maxy].
  destruct (axis_ (sp self)); cbv zeta;
    (destruct (is_empty _ || is_empty _); [reflexivity|]);
    unfold validate_and_fix_geometries at 1 2;
    (split; [|split; [|split]]);
    first [ rewrite length_map; apply clipped_obstacles_length
          | apply Forall_map; eapply Forall_impl; [|apply clipped_obstacles_polygonal];
            intros p Hp; exists p; split; [exact Hp|reflexivity] ].
Qed.
End DivisionPoint.

(** ** The axis selector *)

Module SelectionProofs.
Import Py PyFacts OptimalAxisSelection SelectionSpec.


Import BoxGeometry Scenarios.


(** C8, amended.  For a polygon that is not empty, with [w] and [h] the
    width and height of its bounding box and [eps = 1e-9]: the measure is
    [1.0] when both [w < eps] and [h < eps], [0.0] when exactly one of them
    is [< eps], and, when [eps <= w <= h], it is [w / h], which then is the
    smaller of [w / h] and [h / w]. *)
Theorem square_measure_cases :
  forall (K : Shapely) (polygon : geom) (minx miny maxx maxy : Q),
    is_empty polygon = false ->
    bounds polygon = (minx, miny, maxx, maxy) ->
    let w := maxx - minx in
    let h := maxy - miny in
    let eps := 1 # 1000000000 in
    (w < eps /\ h < eps -> _square_measure polygon = 1)
    /\ ((w < eps /\ eps <= h) \/ (eps <= w /\ h < eps) -> _square_measure polygon = 0)
    /\ (eps <= w /\ w <= h -> _square_measure polygon = w / h /\ w / h <= h / w).
Proof.
  intros K polygon minx miny maxx maxy Hne Hb w h eps.
  unfold _square_measure. rewrite Hne, Hb. fold w h eps.
  destruct (Qltb w eps) eqn:Ew; [apply Qltb_true in Ew | apply Qltb_false in Ew];
    (destruct (Qltb h eps) eqn:Eh; [apply Qltb_true in Eh | apply Qltb_false in Eh]);
    cbn [andb orb].
  - split; [reflexivity|]. split; [intros [[_ Hh]|[Hw _]]; exfalso; lra|].
    intros [Hw _]. exfalso. lra.
  - split; [intros [_ Hh]; exfalso; lra|]. split; [reflexivity|].
    intros [Hw _]. exfalso. lra.
  - split; [intros [Hw _]; exfalso; lra|]. split; [reflexivity|].
    intros [_ Hwh]. exfalso. lra.
  - split; [intros [Hw _]; exfalso; lra|].
    split; [intros [[Hw _]|[_ Hh]]; exfalso; lra|].
    intros [_ Hwh]. split; [reflexivity|].
    assert (0 < w) by (unfold eps in Ew; lra). assert (0 < h) by lra.
    apply Qle_trans with 1.
    + apply Qle_shift_div_r; [assumption|lra].
    + apply Qle_shift_div_l; [assumption|lra].
Qed.

Lemma square_measure_cases_witness :
  _square_measure (rectangle 0 0 1 2) = (1 - 0) / (2 - 0)
  /\ (1 - 0) / (2 - 0) <= (2 - 0) / (1 - 0).
Proof.
  apply (square_measure_cases shapely (rectangle 0 0 1 2) 0 0 1 2);
    [reflexivity | reflexivity | split; [vm_compute|vm_compute]; discriminate].
Defined.

(** C8 as stated fails in two ways.  On the wide box [[0,2] x [0,1]] the
    measure is [w / h = 2], not [min(w/h, h/w) = 1/2].  On a box of width
    exactly [1e-9] and height 1, where one side is [<= eps], the measure is
    [1e-9], not [0.0]: the comparisons with [eps] are strict. *)
Lemma square_measure_not_min :
  Qeq_bool (_square_measure (rectangle 0 0 2 1)) 2 = true
  /\ Qeq_bool (qmin (2 / 1) (1 / 2)) (1 # 2) = true
  /\ Qeq_bool (_square_measure (rectangle 0 0 (1 # 1000000000) 1)) (1 # 1000000000) = true.
Proof. vm_compute. repeat split. Qed.

End SelectionProofs.

(** ** The metrics of an axis *)

Module AxisMetrics.
Import Py PyFacts StripPerimeter ObstacleAwareDivider OptimalAxisSelection DividerSpec.
Import DivisionPoint.

Lemma square_nonneg (x : Q) : 0 <= x ^ 2.
Proof. change (x ^ 2) with (x * x). nra. Qed.

Lemma square_zero (x : Q) : x ^ 2 <= 0 -> x == 0.
Proof. change (x ^ 2) with (x * x). intros H. nra. Qed.

Lemma msdu_denominator (sl sr : Q) :
  (1 # 1000000000) <= (1 # 2) * ((sl - 1) ^ 2 + (sr - 1) ^ 2) + (1 # 1000000000).
Proof.
  pose proof (square_nonneg (sl - 1)). pose proof (square_nonneg (sr - 1)). lra.
Qed.

Lemma msdu_bounds (sl sr : Q) :
  0 < 1 / ((1 # 2) * ((sl - 1) ^ 2 + (sr - 1) ^ 2) + (1 # 1000000000))
  /\ 1 / ((1 # 2) * ((sl - 1) ^ 2 + (sr - 1) ^ 2) + (1 # 1000000000)) <= 1000000000.
Proof.
  pose proof (msdu_denominator sl sr) as Hd.
  split; [apply Qlt_shift_div_l; lra|apply Qle_shift_div_r; lra].
Qed.

Lemma square_le_of_abs (x y : Q) : Qabs x <= Qabs y -> x ^ 2 <= y ^ 2.
Proof.
  change (x ^ 2) with (x * x). change (y ^ 2) with (y * y). intros H.
  assert (Hx : x * x == Qabs x * Qabs x).
  { apply (Qabs_case x (fun a => x * x == a * a)); intros _; ring. }
  assert (Hy : y * y == Qabs y * Qabs y).
  { apply (Qabs_case y (fun a => y * y == a * a)); intros _; ring. }
  rewrite Hx, Hy. pose proof (Qabs_nonneg x). nra.
Qed.

(** X17.  The MSDU of [calculate_squareness_metrics] is never negative and
    at most [1e9].  No pair of squareness measures gives more than the pair
    [(1, 1)] of two squares, and the MSDU does not increase when each of the
    two measures stays as far from [1] or moves further away. *)
Theorem msdu_is_largest_for_squares :
  forall (sq_left sq_right : Q),
    let msdu := snd (calculate_squareness_metrics sq_left sq_right) in
    0 <= msdu /\ msdu <= 1000000000
    /\ msdu <= snd (calculate_squareness_metrics 1 1)
    /\ forall sq_left' sq_right',
         Qabs (sq_left - 1) <= Qabs (sq_left' - 1) ->
         Qabs (sq_right - 1) <= Qabs (sq_right' - 1) ->
         snd (calculate_squareness_metrics sq_left' sq_right') <= msdu.
Proof.
  assert (Hanti : forall sl sr sl' sr',
            Qabs (sl - 1) <= Qabs (sl' - 1) -> Qabs (sr - 1) <= Qabs (sr' - 1) ->
            snd (calculate_squareness_metrics sl' sr')
            <= snd (calculate_squareness_metrics sl sr)).
  { intros sl sr sl' sr' Hl Hr. unfold calculate_squareness_metrics. cbn [snd]. cbv zeta.
    pose proof (msdu_denominator sl sr) as Hd.
    pose proof (msdu_denominator sl' sr') as Hd'.
    pose proof (square_le_of_abs _ _ Hl). pose proof (square_le_of_abs _ _ Hr).
    set (d := (1 # 2) * ((sl - 1) ^ 2 + (sr - 1) ^ 2) + (1 # 1000000000)) in *.
    set (d' := (1 # 2) * ((sl' - 1) ^ 2 + (sr' - 1) ^ 2) + (1 # 1000000000)) in *.
    assert (Hdd : d <= d') by (unfold d, d'; lra).
    assert (Hinv : (1 / d) * d == 1) by (field; lra).
    apply Qle_shift_div_r; [lra|].
    assert (Hm : 0 < 1 / d) by (apply Qlt_shift_div_l; lra).
    nra. }
  intros sl sr msdu. subst msdu.
  destruct (msdu_bounds sl sr) as [Hpos Hle].
  split; [|split; [|split]].
  - unfold calculate_squareness_metrics. cbn [snd]. cbv zeta. lra.
  - exact Hle.
  - apply Hanti.
    + setoid_replace (1 - 1) with 0 by ring. cbn [Qabs]. apply Qabs_nonneg.
    + setoid_replace (1 - 1) with 0 by ring. cbn [Qabs]. apply Qabs_nonneg.
  - intros sl' sr'. apply Hanti.
Qed.

Section Evaluate.
Context {K : Shapely}.

Lemma find_optimal_division_point_cases (self : Divider) :
  (strips (sp self) = [] /\ find_optimal_division_point self = Raise RuntimeError_NoStrip)
  \/ (exists c, find_optimal_division_point self = Ok (Some c)).
Proof.
  pose proof (find_strip_of_interest_some self) as Hs.
  pose proof (find_optimal_division_point_cut self) as Hc.
  destruct (find_strip_of_interest self) as [[[a b] g0]|].
  - right. destruct Hc as (c & Hc & _). exists c. exact Hc.
  - left. split; assumption.
Qed.

Lemma divide_region_raises_only (self : Divider) (c : Q) (e : exn) :
  divide_region self c = Raise e -> e = ValueError_Divide.
Proof.
  unfold divide_region.
  destruct (bounds (region (sp self))) as [[[minx miny] maxx] maxy].
  destruct (axis_ (sp self)); cbv zeta;
    (destruct (is_empty _ || is_empty _); [|discriminate]);
    intros H; injection H as <-; reflexivity.
Qed.

Lemma nwcrt_range (wl wr : Q) :
  let nwcrt :=
    if Qltb (1 # 1000000000) (wl + wr) then Qabs (wl - wr) / (wl + wr) else 0 in
  0 <= nwcrt /\ (0 <= wl -> 0 <= wr -> nwcrt <= 1).
Proof.
  cbv zeta. destruct (Qltb (1 # 1000000000) (wl + wr)) eqn:E.
  - apply Qltb_true in E. split.
    + apply Qle_shift_div_l; [lra|]. pose proof (Qabs_nonneg (wl - wr)). lra.
    + intros Hl Hr. apply Qle_shift_div_r; [lra|].
      apply Qabs_Qle_condition. split; lra.
  - split; [lra|intros; lra].
Qed.

End Evaluate.

(** X18.  On a region and obstacles that are polygons or multipolygons, the
    region not empty, once [Strip] has repaired them: [evaluate_axis] raises
    only when the strip manager has no strip (the [RuntimeError]) or when
    [divide_region] finds an empty half at the cut (its [ValueError]).
    Otherwise its metrics hold the cut of [find_optimal_division_point] and
    the two halves of [divide_region] at that cut, an NWCRT that is not
    negative (and at most [1] when the WCRT of both halves is not negative),
    and an MSDU in [(0, 1e9]]. *)
Theorem evaluate_axis_outcomes :
  forall (K : Shapely) (self : Selector) (ax : axis),
    let strip_manager :=
      StripPerimeter.__init__ (sel_region self) (sel_obstacles self) ax in
    let divider := ObstacleAwareDivider.__init__ strip_manager (numerical_method self) in
    is_empty (region strip_manager) = false ->
    polygonal (region strip_manager) ->
    Forall polygonal (obstacles strip_manager) ->
    match evaluate_axis self ax with
    | Raise e =>
        (e = RuntimeError_NoStrip /\ strips strip_manager = [])
        \/ (e = ValueError_Divide
            /\ exists c, find_optimal_division_point divider = Ok (Some c)
                         /\ divide_region divider c = Raise ValueError_Divide)
    | Ok m =>
        find_optimal_division_point divider = Ok (Some (_division_point m))
        /\ divide_region divider (_division_point m)
           = Ok (_subregion_left m, _subregion_right m)
        /\ 0 <= NWCRT m
        /\ 0 < _MSDU m /\ _MSDU m <= 1000000000
        /\ (0 <= calculate_region_wcrt
                   (StripPerimeter.__init__ (fst (_subregion_left m))
                      (snd (_subregion_left m)) ax) ->
            0 <= calculate_region_wcrt
                   (StripPerimeter.__init__ (fst (_subregion_right m))
                      (snd (_subregion_right m)) ax) ->
            NWCRT m <= 1)
    end.
Proof.
  intros K self ax strip_manager divider _ _ _. unfold evaluate_axis.
  fold strip_manager. fold divider.
  destruct (find_optimal_division_point_cases divider) as [[Hs Hc]|[c Hc]]; rewrite Hc;
    cbn [bind].
  { left. split; [reflexivity|exact Hs]. }
  destruct (divide_region divider c) as [[[RL oL] [RR oR]]|e] eqn:Ed; cbn [bind].
  2:{ right. pose proof (divide_region_raises_only _ _ _ Ed) as ->.
      split; [reflexivity|]. exists c. split; [reflexivity|exact Ed]. }
  unfold calculate_squareness_metrics.
  cbn [NWCRT _MSDU _division_point _subregion_left _subregion_right fst snd].
  destruct (msdu_bounds (_square_measure RL) (_square_measure RR)) as [Hm1 Hm2].
  pose proof (nwcrt_range (calculate_region_wcrt (StripPerimeter.__init__ RL oL ax))
                (calculate_region_wcrt (StripPerimeter.__init__ RR oR ax))) as Hn.
  cbv zeta in Hn. destruct Hn as [Hn1 Hn2].
  split; [reflexivity|]. split; [exact Ed|]. split; [exact Hn1|].
  split; [exact Hm1|]. split; [exact Hm2|exact Hn2].
Qed.

Import BoxGeometry Scenarios.

Lemma evaluate_axis_outcomes_witness :
  evaluate_axis two_boxes_selector X = Ok two_boxes_metrics_x
  /\ _division_point two_boxes_metrics_x = 80
  /\ 0 <= NWCRT two_boxes_metrics_x /\ NWCRT two_boxes_metrics_x <= 1.
Proof.
  assert (E : evaluate_axis two_boxes_selector X = Ok two_boxes_metrics_x)
    by (vm_cast_no_check (eq_refl (Ok two_boxes_metrics_x))).
  assert (Hne : is_empty (region (StripPerimeter.__init__ (sel_region two_boxes_selector)
                                    (sel_obstacles two_boxes_selector) X)) = false)
    by (vm_cast_no_check (eq_refl false)).
  assert (Hpoly : Forall polygonal
                    (obstacles (StripPerimeter.__init__ (sel_region two_boxes_selector)
                                  (sel_obstacles two_boxes_selector) X))).
  { repeat constructor. }
  assert (Hreg : polygonal
                   (region (StripPerimeter.__init__ (sel_region two_boxes_selector)
                              (sel_obstacles two_boxes_selector) X)))
    by (left; reflexivity).
  pose proof (evaluate_axis_outcomes shapely two_boxes_selector X Hne Hreg Hpoly) as H.
  cbv zeta in H. rewrite E in H.
  destruct H as (_ & _ & Hn & _ & _ & Hone).
  split; [exact E|]. split; [reflexivity|]. split; [exact Hn|].
  apply Hone; vm_compute; discriminate.
Defined.

(** X19.  [select_best_axis] raises exactly when the evaluation of [x] or of
    [y] raises, with the exception of [x] first, and the driver's selector
    then gives [None]; when both evaluations return, it returns one of the
    two axes with the cut and the halves of that axis, and the driver's
    selector keeps the axis, the cut and the halves. *)
Theorem axis_selection_fails_with_an_evaluation :
  forall (K : Shapely) (region0 : geom) (obstacles0 : list geom)
         (user_metric0 method0 : string),
    let self := OptimalAxisSelection.__init__ region0 obstacles0 user_metric0 method0 in
    match evaluate_axis self X, evaluate_axis self Y with
    | Ok mx, Ok my =>
        exists best,
          let chosen := SelectionSpec.chosen_metrics best mx my in
          select_best_axis self
            = Ok (best, (mx, my), _division_point chosen,
                  _subregion_left chosen, _subregion_right chosen)
          /\ HierarchicalDecomposition.optimal_axis_selector
               region0 obstacles0 user_metric0 method0
             = Some (best, _division_point chosen,
                     _subregion_left chosen, _subregion_right chosen)
    | Raise e, _ | Ok _, Raise e =>
        select_best_axis self = Raise e
        /\ HierarchicalDecomposition.optimal_axis_selector
             region0 obstacles0 user_metric0 method0 = None
    end.
Proof.
  intros K region0 obstacles0 um m0 self.
  unfold HierarchicalDecomposition.optimal_axis_selector. fold self.
  unfold select_best_axis, select_best_axis_with.
  destruct (evaluate_axis self X) as [mx|e]; cbn [bind]; [|split; reflexivity].
  destruct (evaluate_axis self Y) as [my|e]; cbn [bind]; [|split; reflexivity].
  destruct (Qleb _ _).
  - destruct (Qltb (_MSDU my) (_MSDU mx)); [exists X|exists Y]; split; reflexivity.
  - destruct (Qltb (NWCRT mx) (NWCRT my)); [exists X|exists Y]; split; reflexivity.
Qed.
End AxisMetrics.

(** ** The recursion of the driver *)

Module DriverProofs.
Import Py PyFacts HierarchicalDecomposition DriverSpec.

Section Driver.
Context {K : Shapely}.
Variable axis_selector : geom -> list geom -> string -> string -> option choice.

Lemma axis_eqb_refl (a : axis) : axis_eqb a a = true.
Proof. destruct a; reflexivity. Qed.

Lemma removelast_snoc {A} (l : list A) (x : A) : removelast (l ++ [x]) = l.
Proof. apply removelast_last. Qed.

Lemma decompose_post_refl self depth st : decompose_post self depth st false st.
Proof.
  split; [reflexivity|]. exists []. rewrite app_nil_r. repeat split.
  - discriminate.
  - intros p [].
Qed.

Lemma decompose_post_store self depth st g o v r :
  decompose_post self depth st r (append_partition (g, o, axis_stack st, v) st).
Proof.
  split; [reflexivity|]. exists [(g, o, axis_stack st, v)]. repeat split.
  - discriminate.
  - intros p [<-|[]]. exists []. rewrite app_nil_r. split; [reflexivity|]. cbn. lia.
Qed.

Lemma attempt_post self decompose region0 obstacles0 ax depth dp subL subR st r st' :
  (max_depth self > depth)%Z ->
  (forall g o s r' s', decompose g o (depth + 1)%Z s = Some (r', s') ->
                       decompose_post self (depth + 1) s r' s') ->
  _attempt_partition self decompose region0 obstacles0 ax depth dp subL subR st
    = Some (r, st') ->
  decompose_post self depth st r st'.
Proof.
  intros Hd Hrec. unfold _attempt_partition.
  destruct (bounds region0) as [[[minx miny] maxx] maxy].
  destruct (match ax with X => _ | Y => _ end).
  { intros H. injection H as <- <-. cbn. unfold pop_axis, push_axis; cbn.
    split; [cbn; apply removelast_snoc|]. exists []. cbn. rewrite app_nil_r.
    repeat split; [discriminate | intros p []]. }
  destruct subL as [R_left left_obs], subR as [R_right right_obs].
  destruct (negb _ && negb _).
  { intros H. injection H as <- <-.
    split; [cbn; apply removelast_snoc|]. exists []. cbn. rewrite app_nil_r.
    repeat split; [discriminate | intros p []]. }
  set (st1 := push_axis ax st).
  assert (Hstep : forall (ok : bool) g o s acc r2 s2,
    decompose_post self (depth + 1) st1 acc s ->
    (if ok then match decompose g o (depth + 1)%Z s with
                | Some (r0, s0) => Some (if r0 then true else acc, s0)
                | None => None end
     else Some (acc, s)) = Some (r2, s2) ->
    decompose_post self (depth + 1) st1 r2 s2).
  { intros ok g o s acc r2 s2 Hacc H. destruct ok.
    - destruct (decompose g o (depth + 1)%Z s) as [[r0 s0]|] eqn:E; [|discriminate].
      injection H as <- <-. apply Hrec in E.
      destruct Hacc as (Hs1 & new1 & Hp1 & Hn1 & Hh1).
      destruct E as (Hs2 & new2 & Hp2 & Hn2 & Hh2).
      split; [congruence|]. exists (new1 ++ new2). repeat split.
      + rewrite Hp2, Hp1, app_assoc. reflexivity.
      + intros Hr. destruct r0.
        * specialize (Hn2 eq_refl). destruct new2; [congruence|].
          destruct new1; discriminate.
        * specialize (Hn1 Hr). destruct new1; [congruence|discriminate].
      + intros p Hin. apply in_app_or in Hin. destruct Hin as [Hin|Hin].
        * apply Hh1; assumption.
        * destruct (Hh2 p Hin) as (k & Hk & Hlen). exists k. rewrite Hk, Hs1. auto.
    - injection H as <- <-. assumption. }
  destruct (if _is_subregion_valid self R_left left_obs then _ else _)
    as [[pa sa]|] eqn:E1; [|discriminate].
  apply Hstep in E1; [|apply decompose_post_refl].
  destruct (if _is_subregion_valid self R_right right_obs then _ else _)
    as [[pb sb]|] eqn:E2; [|discriminate].
  apply Hstep in E2; [|assumption].
  intros H. injection H as <- <-.
  destruct E2 as (Hs & new & Hp & Hn & Hh).
  split.
  - cbn. rewrite Hs. subst st1. cbn. apply removelast_snoc.
  - exists new. repeat split; [exact Hp | exact Hn |].
    intros p Hin. destruct (Hh p Hin) as (k & Hk & Hlen).
    exists (ax :: k). subst st1. cbn in Hk. rewrite <- app_assoc in Hk. cbn in Hk.
    split; [exact Hk|]. cbn [List.length]. lia.
Qed.

Lemma decompose_post_holds self : forall fuel region0 obstacles0 depth st r st',
  _decompose axis_selector self fuel region0 obstacles0 depth st = Some (r, st') ->
  decompose_post self depth st r st'.
Proof.
  induction fuel as [|fuel IH]; intros region0 obstacles0 depth st r st' H;
    cbn [_decompose] in H; [discriminate|].
  destruct (is_empty region0).
  { injection H as <- <-. apply decompose_post_refl. }
  destruct (Qleb COVERAGE_RATIO_STOP _ && _).
  { injection H as <- <-. apply decompose_post_store. }
  destruct (max_depth self <=? depth)%Z eqn:Ed.
  { injection H as <- <-. apply decompose_post_store. }
  apply Z.leb_gt in Ed.
  destruct (negb (_is_subregion_valid self region0 obstacles0)).
  { injection H as <- <-. apply decompose_post_refl. }
  destruct (axis_selector region0 obstacles0 (metrics self) (numerical_method self))
    as [[[[best_axis best_div_pt] subL] subR]|].
  2:{ injection H as <- <-. apply decompose_post_refl. }
  destruct (_attempt_partition self (_decompose axis_selector self fuel) region0 obstacles0
              best_axis depth best_div_pt subL subR st) as [[r1 st1]|] eqn:E1;
    [|discriminate].
  apply attempt_post in E1; [|lia|intros; eapply IH; eassumption].
  destruct r1.
  { injection H as <- <-. exact E1. }
  assert (Hcomp : forall r2 st2, decompose_post self depth st1 r2 st2 ->
                                 decompose_post self depth st r2 st2).
  { intros r2 st2 (Hs2 & new2 & Hp2 & Hn2 & Hh2).
    destruct E1 as (Hs1 & new1 & Hp1 & Hn1 & Hh1).
    split; [congruence|]. exists (new1 ++ new2). repeat split.
    - rewrite Hp2, Hp1, app_assoc. reflexivity.
    - intros Hr. specialize (Hn2 Hr). destruct new2; [congruence|].
      destruct new1; discriminate.
    - intros p Hin. apply in_app_or in Hin. destruct Hin as [Hin|Hin].
      + apply Hh1; assumption.
      + destruct (Hh2 p Hin) as (k & Hk & Hlen). exists k. rewrite Hk, Hs1. auto. }
  destruct (allow_fallback_axis self).
  2:{ injection H as <- <-. apply Hcomp, decompose_post_refl. }
  rewrite axis_eqb_refl in H.
  injection H as <- <-. apply Hcomp, decompose_post_refl.
Qed.

Lemma attempt_total self decompose region0 obstacles0 ax depth dp subL subR st :
  (forall g o s, exists r' s', decompose g o (depth + 1)%Z s = Some (r', s')) ->
  exists r st',
    _attempt_partition self decompose region0 obstacles0 ax depth dp subL subR st
      = Some (r, st').
Proof.
  intros Hrec. unfold _attempt_partition.
  destruct (bounds region0) as [[[minx miny] maxx] maxy].
  destruct (match ax with X => _ | Y => _ end); [eauto|].
  destruct subL as [R_left left_obs], subR as [R_right right_obs].
  destruct (negb _ && negb _); [eauto|].
  destruct (_is_subregion_valid self R_left left_obs).
  - destruct (Hrec R_left left_obs (push_axis ax st)) as (r1 & s1 & E1). rewrite E1.
    destruct (_is_subregion_valid self R_right right_obs).
    + destruct (Hrec R_right right_obs s1) as (r2 & s2 & E2). rewrite E2. eauto.
    + eauto.
  - destruct (_is_subregion_valid self R_right right_obs).
    + destruct (Hrec R_right right_obs (push_axis ax st)) as (r2 & s2 & E2).
      rewrite E2. eauto.
    + eauto.
Qed.

Lemma decompose_total self : forall fuel depth,
  (Z.to_nat (max_depth self - depth) < fuel)%nat ->
  forall region0 obstacles0 st,
  exists r st', _decompose axis_selector self fuel region0 obstacles0 depth st
                  = Some (r, st').
Proof.
  induction fuel as [|fuel IH]; intros depth Hf region0 obstacles0 st; [lia|].
  cbn [_decompose].
  destruct (is_empty region0); [eauto|].
  destruct (Qleb COVERAGE_RATIO_STOP _ && _); [eauto|].
  destruct (max_depth self <=? depth)%Z eqn:Ed; [eauto|].
  apply Z.leb_gt in Ed.
  destruct (negb (_is_subregion_valid self region0 obstacles0)); [eauto|].
  assert (Hrec : forall g o s, exists r' s',
            _decompose axis_selector self fuel g o (depth + 1)%Z s = Some (r', s')).
  { intros g o s. apply IH. lia. }
  destruct (axis_selector region0 obstacles0 (metrics self) (numerical_method self))
    as [[[[best_axis best_div_pt] subL] subR]|]; [|eauto].
  destruct (attempt_total self _ region0 obstacles0 best_axis depth best_div_pt
              subL subR st Hrec) as (r1 & s1 & E1).
  rewrite E1. destruct r1; [eauto|].
  destruct (allow_fallback_axis self); [|eauto].
  rewrite axis_eqb_refl. eauto.
Qed.

Lemma stack_eqb_refl s : stack_eqb s s = true.
Proof. induction s as [|a s IH]; cbn; [reflexivity|]. rewrite axis_eqb_refl. exact IH. Qed.

Lemma attempt_stack self decompose region0 obstacles0 ax depth dp subL subR st :
  (forall g o d s r s', decompose g o d s = Some (r, s') -> axis_stack s' = axis_stack s) ->
  _attempt_partition self decompose region0 obstacles0 ax depth dp subL subR st
    = _attempt_partition self (on_stack (axis_stack st ++ [ax]) decompose)
        region0 obstacles0 ax depth dp subL subR st
  /\ forall r st',
       _attempt_partition self decompose region0 obstacles0 ax depth dp subL subR st
         = Some (r, st') ->
       axis_stack st' = axis_stack st.
Proof.
  intros Hrec. unfold _attempt_partition, on_stack.
  destruct (bounds region0) as [[[minx miny] maxx] maxy].
  destruct (match ax with X => _ | Y => _ end).
  { split; [reflexivity|]. intros r st' H. injection H as <- <-. cbn.
    apply removelast_snoc. }
  destruct subL as [R_left left_obs], subR as [R_right right_obs].
  destruct (negb _ && negb _).
  { split; [reflexivity|]. intros r st' H. injection H as <- <-. cbn.
    apply removelast_snoc. }
  assert (E0 : axis_stack (push_axis ax st) = axis_stack st ++ [ax]) by reflexivity.
  destruct (_is_subregion_valid self R_left left_obs).
  - rewrite E0, stack_eqb_refl.
    destruct (decompose R_left left_obs (depth + 1)%Z (push_axis ax st))
      as [[r1 s1]|] eqn:E1.
    2:{ split; [reflexivity|discriminate]. }
    pose proof (Hrec _ _ _ _ _ _ E1) as Hs1. rewrite E0 in Hs1.
    destruct (_is_subregion_valid self R_right right_obs).
    + rewrite Hs1, stack_eqb_refl.
      destruct (decompose R_right right_obs (depth + 1)%Z s1) as [[r2 s2]|] eqn:E2.
      2:{ split; [reflexivity|discriminate]. }
      pose proof (Hrec _ _ _ _ _ _ E2) as Hs2.
      split; [reflexivity|]. intros r st' H. injection H as <- <-. cbn.
      rewrite Hs2, Hs1. apply removelast_snoc.
    + split; [reflexivity|]. intros r st' H. injection H as <- <-. cbn.
      rewrite Hs1. apply removelast_snoc.
  - destruct (_is_subregion_valid self R_right right_obs).
    + rewrite E0, stack_eqb_refl.
      destruct (decompose R_right right_obs (depth + 1)%Z (push_axis ax st))
        as [[r2 s2]|] eqn:E2.
      2:{ split; [reflexivity|discriminate]. }
      pose proof (Hrec _ _ _ _ _ _ E2) as Hs2. rewrite E0 in Hs2.
      split; [reflexivity|]. intros r st' H. injection H as <- <-. cbn.
      rewrite Hs2. apply removelast_snoc.
    + split; [reflexivity|]. intros r st' H. injection H as <- <-. cbn.
      apply removelast_snoc.
Qed.

Lemma decompose_stack self fuel region0 obstacles0 depth st r st' :
  _decompose axis_selector self fuel region0 obstacles0 depth st = Some (r, st') ->
  axis_stack st' = axis_stack st.
Proof. intros H. apply decompose_post_holds in H. apply H. Qed.

Lemma run_unfold self :
  exists r st',
    _decompose axis_selector self (fuel_for (max_depth self)) (region self)
      (obstacles self) 0%Z (MkStore [] []) = Some (r, st')
    /\ decompose_post self 0 (MkStore [] []) r st'
    /\ run axis_selector self =
       Some (if String.eqb (mode self) "track_back" && negb r
             then partitions st' ++ [(region self, obstacles self, [], true)]
             else partitions st').
Proof.
  destruct (decompose_total self (fuel_for (max_depth self)) 0%Z) with
    (region0 := region self) (obstacles0 := obstacles self) (st := MkStore [] [])
    as (r & st' & E).
  { unfold fuel_for. rewrite Z.sub_0_r. lia. }
  exists r, st'. split; [exact E|].
  pose proof (decompose_post_holds _ _ _ _ _ _ _ _ E) as Hpost.
  split; [exact Hpost|].
  unfold run, run_from. rewrite E.
  destruct Hpost as [Hs _]. cbn in Hs.
  destruct (String.eqb (mode self) "track_back" && negb r); [|reflexivity].
  unfold append_partition. cbn. rewrite Hs. reflexivity.
Qed.

Lemma attempt_ext self d1 d2 region0 obstacles0 ax depth dp subL subR st :
  (forall g o d s, d1 g o d s = d2 g o d s) ->
  _attempt_partition self d1 region0 obstacles0 ax depth dp subL subR st
  = _attempt_partition self d2 region0 obstacles0 ax depth dp subL subR st.
Proof.
  intros H. unfold _attempt_partition.
  destruct (bounds region0) as [[[minx miny] maxx] maxy].
  destruct (match ax with X => _ | Y => _ end); [reflexivity|].
  destruct subL as [R_left left_obs], subR as [R_right right_obs].
  destruct (negb _ && negb _); [reflexivity|].
  destruct (_is_subregion_valid self R_left left_obs).
  - rewrite H. destruct (d2 _ _ _ _) as [[r1 s1]|]; [|reflexivity].
    destruct (_is_subregion_valid self R_right right_obs); [|reflexivity].
    rewrite H. reflexivity.
  - destruct (_is_subregion_valid self R_right right_obs); [|reflexivity].
    rewrite H. reflexivity.
Qed.

Lemma decompose_fallback_irrelevant self b : forall fuel region0 obstacles0 depth st,
  _decompose axis_selector (with_fallback self b) fuel region0 obstacles0 depth st
  = _decompose axis_selector self fuel region0 obstacles0 depth st.
Proof.
  induction fuel as [|fuel IH]; intros region0 obstacles0 depth st; [reflexivity|].
  cbn [_decompose].
  change (_is_subregion_valid (with_fallback self b))
    with (_is_subregion_valid self).
  change (max_depth (with_fallback self b)) with (max_depth self).
  change (metrics (with_fallback self b)) with (metrics self).
  change (numerical_method (with_fallback self b)) with (numerical_method self).
  change (allow_fallback_axis (with_fallback self b)) with b.
  change (_attempt_partition (with_fallback self b))
    with (_attempt_partition self).
  destruct (is_empty region0); [reflexivity|].
  destruct (Qleb COVERAGE_RATIO_STOP _ && _); [reflexivity|].
  destruct (max_depth self <=? depth)%Z; [reflexivity|].
  destruct (negb (_is_subregion_valid self region0 obstacles0)); [reflexivity|].
  destruct (axis_selector region0 obstacles0 (metrics self) (numerical_method self))
    as [[[[best_axis best_div_pt] subL] subR]|]; [|reflexivity].
  rewrite (attempt_ext self _ (_decompose axis_selector self fuel)) by (intros; apply IH).
  destruct (_attempt_partition _ _ _ _ _ _ _ _ _ _) as [[[|] s1]|]; try reflexivity.
  rewrite axis_eqb_refl. destruct b, (allow_fallback_axis self); reflexivity.
Qed.
Lemma pop_push (ax : axis) (st : store) : pop_axis (push_axis ax st) = st.
Proof.
  destruct st as [ps stack]. unfold pop_axis, push_axis. cbn.
  rewrite removelast_snoc. reflexivity.
Qed.

(** A failed attempt leaves the store as it found it, when the recursive
    calls that return false on a valid region do. *)
Lemma attempt_false self decompose region0 obstacles0 ax depth dp subL subR st st' :
  (forall g o s s', _is_subregion_valid self g o = true ->
                    decompose g o (depth + 1)%Z s = Some (false, s') -> s' = s) ->
  _attempt_partition self decompose region0 obstacles0 ax depth dp subL subR st
    = Some (false, st') ->
  st' = st.
Proof.
  intros Hrec. unfold _attempt_partition.
  destruct (bounds region0) as [[[minx miny] maxx] maxy].
  destruct (match ax with X => _ | Y => _ end).
  { intros H. injection H as <-. apply pop_push. }
  destruct subL as [R_left left_obs], subR as [R_right right_obs].
  destruct (negb _ && negb _).
  { intros H. injection H as <-. apply pop_push. }
  destruct (_is_subregion_valid self R_left left_obs) eqn:El.
  - destruct (decompose R_left left_obs (depth + 1)%Z (push_axis ax st))
      as [[r1 s1]|] eqn:E1; [|discriminate].
    destruct (_is_subregion_valid self R_right right_obs) eqn:Er.
    + destruct (decompose R_right right_obs (depth + 1)%Z s1) as [[r2 s2]|] eqn:E2;
        [|discriminate].
      destruct r2; [discriminate|]. destruct r1; [discriminate|].
      intros H. injection H as <-.
      apply Hrec in E1; [|exact El]. subst s1.
      apply Hrec in E2; [|exact Er]. subst s2. apply pop_push.
    + destruct r1; [discriminate|]. intros H. injection H as <-.
      apply Hrec in E1; [|exact El]. subst s1. apply pop_push.
  - destruct (_is_subregion_valid self R_right right_obs) eqn:Er.
    + destruct (decompose R_right right_obs (depth + 1)%Z (push_axis ax st))
        as [[r2 s2]|] eqn:E2; [|discriminate].
      destruct r2; [discriminate|]. intros H. injection H as <-.
      apply Hrec in E2; [|exact Er]. subst s2. apply pop_push.
    + intros H. injection H as <-. apply pop_push.
Qed.

(** A call of [_decompose] that returns false has stored nothing, unless it
    is the depth stop on a region that is not valid, which has stored that
    region flagged invalid. *)
Lemma decompose_false self : forall fuel region0 obstacles0 depth st st',
  _decompose axis_selector self fuel region0 obstacles0 depth st = Some (false, st') ->
  st' = st
  \/ ((max_depth self <= depth)%Z
      /\ _is_subregion_valid self region0 obstacles0 = false
      /\ st' = append_partition (region0, obstacles0, axis_stack st, false) st).
Proof.
  induction fuel as [|fuel IH]; intros region0 obstacles0 depth st st' H;
    cbn [_decompose] in H; [discriminate|].
  destruct (is_empty region0).
  { injection H as <-. left. reflexivity. }
  destruct (Qleb COVERAGE_RATIO_STOP _ && _); [discriminate|].
  destruct (max_depth self <=? depth)%Z eqn:Ed.
  { apply Z.leb_le in Ed.
    destruct (_is_subregion_valid self region0 obstacles0) eqn:Ev; [discriminate|].
    injection H as <-. right. auto. }
  destruct (negb (_is_subregion_valid self region0 obstacles0)).
  { injection H as <-. left. reflexivity. }
  assert (Hrec : forall g o s s', _is_subregion_valid self g o = true ->
            _decompose axis_selector self fuel g o (depth + 1)%Z s = Some (false, s') ->
            s' = s).
  { intros g o s s' Hv E. destruct (IH _ _ _ _ _ E) as [->|(_ & Hv' & _)];
      [reflexivity|congruence]. }
  destruct (axis_selector region0 obstacles0 (metrics self) (numerical_method self))
    as [[[[best_axis best_div_pt] subL] subR]|].
  2:{ injection H as <-. left. reflexivity. }
  destruct (_attempt_partition self (_decompose axis_selector self fuel) region0 obstacles0
              best_axis depth best_div_pt subL subR st) as [[r1 st1]|] eqn:E1;
    [|discriminate].
  destruct r1; [discriminate|].
  apply attempt_false in E1; [|exact Hrec]. subst st1.
  destruct (allow_fallback_axis self).
  2:{ injection H as <-. left. reflexivity. }
  rewrite axis_eqb_refl in H. injection H as <-. left. reflexivity.
Qed.
End Driver.


Import BoxGeometry Scenarios.

(** C10.  [_attempt_partition] pushes exactly one axis before it recurses
    (every recursive call sees the stack it was given plus that axis) and,
    when the recursive calls leave the stack as they found it, returns with
    the stack as it found it, on every return path.  So [_decompose] leaves
    [axis_stack] as it found it; after the top-level call of [run] the stack
    is empty again, and the root partition of the track-back records an empty
    axis history. *)
Theorem axis_stack_restored :
  forall (K : Shapely)
         (axis_selector : geom -> list geom -> string -> string -> option choice)
         (self : Decomposition),
    (forall decompose region0 obstacles0 ax depth dp subL subR st,
        (forall g o d s r s',
            decompose g o d s = Some (r, s') -> axis_stack s' = axis_stack s) ->
        _attempt_partition self decompose region0 obstacles0 ax depth dp subL subR st
          = _attempt_partition self (on_stack (axis_stack st ++ [ax]) decompose)
              region0 obstacles0 ax depth dp subL subR st
        /\ forall r st',
             _attempt_partition self decompose region0 obstacles0 ax depth dp subL subR st
               = Some (r, st') ->
             axis_stack st' = axis_stack st)
    /\ (forall fuel region0 obstacles0 depth st r st',
           _decompose axis_selector self fuel region0 obstacles0 depth st = Some (r, st') ->
           axis_stack st' = axis_stack st)
    /\ exists r st',
         _decompose axis_selector self (fuel_for (max_depth self)) (region self)
           (obstacles self) 0%Z (MkStore [] []) = Some (r, st')
         /\ axis_stack st' = []
         /\ run axis_selector self =
            Some (if String.eqb (mode self) "track_back" && negb r
                  then partitions st' ++ [(region self, obstacles self, [], true)]
                  else partitions st').
Proof.
  intros K axis_selector self. split; [|split].
  - intros. apply attempt_stack. assumption.
  - intros. eapply decompose_stack. eassumption.
  - destruct (run_unfold axis_selector self) as (r & st' & E & Hpost & Hrun).
    exists r, st'. repeat split; [exact E | apply Hpost | exact Hrun].
Qed.

(** On the square cut once, the recursion returns with an empty stack. *)
Lemma axis_stack_restored_witness :
  exists r st',
    _decompose halving_selector (square_run 1 true "track_back")
      (fuel_for 1) square_region [] 0%Z (MkStore [] []) = Some (r, st')
    /\ axis_stack st' = [].
Proof.
  destruct (axis_stack_restored shapely halving_selector
              (square_run 1 true "track_back")) as (_ & _ & r & st' & E & Hs & _).
  exists r, st'. split; [exact E|exact Hs].
Defined.

(** C7.  With [max_depth >= 0], [run] returns, and no partition of its
    output has an axis history longer than [max_depth]. *)
Theorem axis_history_within_max_depth :
  forall (K : Shapely)
         (axis_selector : geom -> list geom -> string -> string -> option choice)
         (self : Decomposition),
    (0 <= max_depth self)%Z ->
    exists ps,
      run axis_selector self = Some ps
      /\ forall p, In p ps ->
           (Z.of_nat (List.length (axis_history p)) <= max_depth self)%Z.
Proof.
  intros K axis_selector self Hd.
  destruct (run_unfold axis_selector self) as (r & st' & _ & Hpost & Hrun).
  eexists. split; [exact Hrun|].
  destruct Hpost as (_ & new & Hp & _ & Hh). cbn in Hp.
  assert (Hnew : forall p, In p (partitions st') ->
            (Z.of_nat (List.length (axis_history p)) <= max_depth self)%Z).
  { intros p Hin. rewrite Hp in Hin. destruct (Hh p Hin) as (k & Hk & Hlen).
    cbn in Hk. rewrite Hk. lia. }
  intros p Hin. destruct (String.eqb _ _ && negb r); [|auto].
  apply in_app_or in Hin. destruct Hin as [Hin|[<-|[]]]; [auto|]. cbn. exact Hd.
Qed.

Lemma axis_history_within_max_depth_witness :
  exists ps,
    run halving_selector (square_run 1 true "track_back") = Some ps
    /\ forallb (fun p => (Z.of_nat (List.length (axis_history p)) <=? 1)%Z) ps = true.
Proof.
  destruct (axis_history_within_max_depth shapely halving_selector
              (square_run 1 true "track_back")) as (ps & Hrun & Hall).
  - vm_compute. discriminate.
  - exists ps. split; [exact Hrun|]. apply forallb_forall. intros p Hin.
    apply Z.leb_le. apply Hall. exact Hin.
Defined.

(** C9.  Running with [allow_fallback_axis = True] gives at least as many
    valid partitions as running with [False], all the rest being equal: the
    fallback asks the same selector about the same region again, gets the
    same axis, and does not retry, so the two outputs are the same list. *)
Theorem fallback_axis_keeps_valid_count :
  forall (K : Shapely)
         (axis_selector : geom -> list geom -> string -> string -> option choice)
         (self : Decomposition),
    exists ps_off ps_on,
      run axis_selector (with_fallback self false) = Some ps_off
      /\ run axis_selector (with_fallback self true) = Some ps_on
      /\ (count_valid ps_off <= count_valid ps_on)%nat
      /\ ps_on = ps_off.
Proof.
  intros K axis_selector self.
  destruct (run_unfold axis_selector (with_fallback self false)) as (r & st' & E & _ & Hrun).
  exists (if String.eqb (mode self) "track_back" && negb r
          then partitions st' ++ [(region self, obstacles self, [], true)]
          else partitions st').
  eexists. split; [exact Hrun|]. split; [|split; [|reflexivity]].
  - unfold run, run_from.
    change (max_depth (with_fallback self true)) with (max_depth (with_fallback self false)).
    change (region (with_fallback self true)) with (region (with_fallback self false)).
    change (obstacles (with_fallback self true)) with (obstacles (with_fallback self false)).
    rewrite decompose_fallback_irrelevant.
    rewrite decompose_fallback_irrelevant in E.
    change (max_depth (with_fallback self false)) with (max_depth self) in *.
    change (region (with_fallback self false)) with (region self) in *.
    change (obstacles (with_fallback self false)) with (obstacles self) in *.
    rewrite E. cbn [mode with_fallback region obstacles].
    pose proof (decompose_stack _ _ _ _ _ _ _ _ _ E) as Hs. cbn in Hs.
    destruct (String.eqb (mode self) "track_back" && negb r); [|reflexivity].
    unfold append_partition. cbn. rewrite Hs. reflexivity.
  - apply Nat.le_refl.
Qed.

(** C1, amended.  In mode ["track_back"], [run] returns a list that is not
    empty.  When the top-level [_decompose] returns true, the recursion has
    stored at least one partition, and they are what [run] returns.  When
    it returns false, [run] returns what the recursion stored followed by
    the root region with its obstacles and an empty axis history, flagged
    valid; and the recursion has then stored nothing, except with
    [max_depth <= 0] and a root that [_is_subregion_valid] refuses: there
    the depth stop has stored the root, flagged invalid. *)
Theorem run_track_back_not_empty :
  forall (K : Shapely)
         (axis_selector : geom -> list geom -> string -> string -> option choice)
         (self : Decomposition),
    mode self = "track_back"%string ->
    exists r leaves ps,
      _decompose axis_selector self (fuel_for (max_depth self)) (region self)
        (obstacles self) 0%Z (MkStore [] []) = Some (r, MkStore leaves [])
      /\ run axis_selector self = Some ps
      /\ ps <> []
      /\ (r = true -> leaves <> [] /\ ps = leaves)
      /\ (r = false ->
          ps = leaves ++ [(region self, obstacles self, [], true)]
          /\ (leaves = []
              \/ ((max_depth self <= 0)%Z
                  /\ _is_subregion_valid self (region self) (obstacles self) = false
                  /\ leaves = [(region self, obstacles self, [], false)]))).
Proof.
  intros K axis_selector self Hmode.
  destruct (run_unfold axis_selector self) as (r & st' & E & Hpost & Hrun).
  rewrite Hmode in Hrun. cbn [String.eqb Ascii.eqb Bool.eqb andb] in Hrun.
  destruct Hpost as (Hs & new & Hp & Hn & _). cbn in Hs, Hp.
  destruct st' as [leaves stack]. cbn in Hs, Hp, Hrun. subst stack.
  exists r, leaves. eexists. split; [exact E|]. split; [exact Hrun|].
  destruct r; cbn [negb].
  - split; [rewrite Hp; apply Hn; reflexivity|].
    split; [|discriminate]. intros _. split; [rewrite Hp; apply Hn|]; reflexivity.
  - split.
    { intros Habs. apply app_eq_nil in Habs. destruct Habs as [_ Habs]. discriminate. }
    split; [discriminate|]. intros _. split; [reflexivity|].
    apply decompose_false in E. destruct E as [E|(Hd & Hv & E)].
    + left. injection E as ->. reflexivity.
    + right. split; [exact Hd|]. split; [exact Hv|].
      injection E as ->. reflexivity.
Qed.

(** On the sliver with [max_depth = 3] the top-level [_decompose] returns
    false without storing a leaf, and [run] returns the root alone. *)
Lemma run_track_back_not_empty_witness :
  run halving_selector (run_on sliver_region 3)
  = Some [(sliver_region, [], [], true)].
Proof.
  destruct (run_track_back_not_empty shapely halving_selector
              (run_on sliver_region 3) eq_refl)
    as (r & leaves & ps & E & Hrun & _ & _ & Hfalse).
  assert (E' : _decompose halving_selector (run_on sliver_region 3)
                 (fuel_for (max_depth (run_on sliver_region 3)))
                 (region (run_on sliver_region 3)) (obstacles (run_on sliver_region 3))
                 0%Z (MkStore [] []) = Some (false, MkStore [] []))
    by (vm_cast_no_check (eq_refl (Some (false, MkStore (K := shapely) [] [])))).
  rewrite E' in E. injection E as <- <-.
  destruct (Hfalse eq_refl) as [-> _]. exact Hrun.
Defined.

(** C1 as stated fails in what it says of a false result, that no leaf has
    stored a partition and that the root is then the single partition.  On
    the sliver with [max_depth = 0], in mode ["track_back"]: the depth stop
    stores the root flagged invalid and [_decompose] returns false, so
    [run] appends the root once more, and the output holds the same region
    twice, flagged invalid and flagged valid. *)
Lemma run_track_back_after_invalid_leaf :
  is_empty sliver_region = false
  /\ _decompose optimal_axis_selector (run_on sliver_region 0) (fuel_for 0)
       sliver_region [] 0%Z (MkStore [] [])
     = Some (false, MkStore [(sliver_region, [], [], false)] [])
  /\ decompose_region sliver_region [] 0 "NWCRT" "brent" (1 # 1000) false true
       "track_back"
     = Some [(sliver_region, [], [], false); (sliver_region, [], [], true)].
Proof.
  split; [vm_cast_no_check (eq_refl false)|]. split.
  - vm_cast_no_check
      (eq_refl (Some (false, MkStore (K := shapely) [(sliver_region, [], [], false)] []))).
  - vm_cast_no_check
      (eq_refl (Some [((sliver_region, @nil bgeom, @nil axis, false)
                       : partition (K := shapely));
                      (sliver_region, [], [], true)])).
Qed.

End DriverProofs.

(** ** What the driver returns *)

Module DriverOutput.
Import Py PyFacts HierarchicalDecomposition DriverSpec DriverProofs.

Section Driver.
Context {K : Shapely}.
Variable axis_selector : geom -> list geom -> string -> string -> option choice.

Lemma coverage_stop_invalid self g o :
  coverage_stop g o = true -> _is_subregion_valid self g o = false.
Proof.
  unfold coverage_stop, _is_subregion_valid. cbv zeta. intros H.
  apply andb_true_iff in H. destruct H as [H1 H2].
  apply andb_true_iff in H2. destruct H2 as [_ H3].
  destruct (is_empty g); [reflexivity|].
  destruct (negb (is_valid g)); [reflexivity|].
  destruct (bounds g) as [[[minx miny] maxx] maxy].
  destruct (_ || _); [reflexivity|].
  destruct (Qleb (area g - _) _); [reflexivity|].
  rewrite H1, H3. reflexivity.
Qed.

Lemma pow2_pos n : (1 <= 2 ^ n)%nat.
Proof. induction n; cbn; lia. Qed.

Lemma within_none self n st st' :
  partitions st' = partitions st -> appended_within self n st false st'.
Proof.
  intros H. exists []. rewrite app_nil_r. repeat split; try constructor; try assumption.
  - cbn. apply le_0_n.
  - discriminate.
Qed.

Lemma within_leaf self n st g o (r : bool) :
  (1 <= n)%nat ->
  (r = true -> _is_subregion_valid self g o = true \/ coverage_stop g o = true) ->
  (r = false -> _is_subregion_valid self g o = false) ->
  appended_within self n st r
    (append_partition (g, o, axis_stack st, _is_subregion_valid self g o) st).
Proof.
  intros Hn Ht Hf. exists [(g, o, axis_stack st, _is_subregion_valid self g o)].
  split; [reflexivity|]. split; [repeat constructor|].
  split; [exact Hn|]. split.
  - intros Hr. constructor; [|constructor]. cbn. apply Hf. exact Hr.
  - intros Hr. constructor. cbn. apply Ht. exact Hr.
Qed.

Lemma within_seq self n1 n2 st1 st2 st3 r1 r2 :
  appended_within self n1 st1 r1 st2 -> appended_within self n2 st2 r2 st3 ->
  appended_within self (n1 + n2) st1 (if r2 then true else r1) st3.
Proof.
  intros (new1 & Hp1 & Ht1 & Hl1 & Hf1 & He1) (new2 & Hp2 & Ht2 & Hl2 & Hf2 & He2).
  exists (new1 ++ new2). split; [rewrite Hp2, Hp1, app_assoc; reflexivity|].
  split; [apply Forall_app; split; assumption|].
  split; [rewrite length_app; lia|]. split.
  - intros Hr. destruct r2; [discriminate|]. apply Forall_app. split; auto.
  - intros Hr. apply Exists_app. destruct r2; [right; auto|left; auto].
Qed.

Lemma within_stores self n st1 st2 st1' st2' r :
  partitions st1' = partitions st1 -> partitions st2' = partitions st2 ->
  appended_within self n st1 r st2 -> appended_within self n st1' r st2'.
Proof.
  intros H1 H2 (new & Hp & H). exists new. split; [congruence|exact H].
Qed.

Lemma within_weaken self n n' st r st' :
  (n <= n')%nat -> appended_within self n st r st' -> appended_within self n' st r st'.
Proof.
  intros Hn (new & Hp & Ht & Hl & H). exists new. repeat split; try assumption; try lia; apply H.
Qed.

Lemma attempt_out self decompose region0 obstacles0 ax depth dp subL subR st r st' :
  (max_depth self > depth)%Z ->
  (forall g o s r' s', decompose g o (depth + 1)%Z s = Some (r', s') ->
                       decompose_out self (depth + 1) s r' s') ->
  _attempt_partition self decompose region0 obstacles0 ax depth dp subL subR st
    = Some (r, st') ->
  decompose_out self depth st r st'.
Proof.
  intros Hd Hrec. unfold _attempt_partition, decompose_out.
  destruct (bounds region0) as [[[minx miny] maxx] maxy].
  destruct (match ax with X => _ | Y => _ end).
  { intros H. injection H as <- <-. apply within_none. reflexivity. }
  destruct subL as [R_left left_obs], subR as [R_right right_obs].
  destruct (negb _ && negb _).
  { intros H. injection H as <- <-. apply within_none. reflexivity. }
  set (st1 := push_axis ax st).
  set (m := Z.to_nat (max_depth self - (depth + 1))).
  assert (Hm : Z.to_nat (max_depth self - depth) = S m) by (unfold m; lia).
  rewrite Hm.
  assert (Hstep : forall (ok : bool) g o s acc r2 s2 n,
    appended_within self n st1 acc s ->
    (if ok then match decompose g o (depth + 1)%Z s with
                | Some (r0, s0) => Some (if r0 then true else acc, s0)
                | None => None end
     else Some (acc, s)) = Some (r2, s2) ->
    appended_within self (n + 2 ^ m) st1 r2 s2).
  { intros ok g o s acc r2 s2 n Hacc H. destruct ok.
    - destruct (decompose g o (depth + 1)%Z s) as [[r0 s0]|] eqn:E; [|discriminate].
      injection H as <- <-. apply Hrec in E. unfold decompose_out in E. fold m in E.
      eapply within_seq; eassumption.
    - injection H as <- <-. eapply within_weaken; [|exact Hacc]. lia. }
  destruct (if _is_subregion_valid self R_left left_obs then _ else _)
    as [[pa sa]|] eqn:E1; [|discriminate].
  apply (Hstep _ _ _ _ _ _ _ 0%nat) in E1; [|apply within_none; reflexivity].
  destruct (if _is_subregion_valid self R_right right_obs then _ else _)
    as [[pb sb]|] eqn:E2; [|discriminate].
  apply (Hstep _ _ _ _ _ _ _ _ E1) in E2.
  intros H. injection H as <- <-.
  eapply within_stores; [reflexivity| |eapply within_weaken; [|exact E2]].
  - reflexivity.
  - cbn [Nat.pow]. lia.
Qed.

Lemma decompose_out_holds self : forall fuel region0 obstacles0 depth st r st',
  _decompose axis_selector self fuel region0 obstacles0 depth st = Some (r, st') ->
  decompose_out self depth st r st'.
Proof.
  induction fuel as [|fuel IH]; intros region0 obstacles0 depth st r st' H;
    cbn [_decompose] in H; [discriminate|].
  unfold decompose_out.
  destruct (is_empty region0).
  { injection H as <- <-. apply within_none. reflexivity. }
  destruct (Qleb COVERAGE_RATIO_STOP _ && _) eqn:Ec.
  { injection H as <- <-.
    assert (Hcov : coverage_stop region0 obstacles0 = true) by exact Ec.
    apply within_leaf; [apply pow2_pos|auto|discriminate]. }
  destruct (max_depth self <=? depth)%Z eqn:Ed.
  { injection H as <- <-. apply within_leaf; [apply pow2_pos|auto|auto]. }
  apply Z.leb_gt in Ed.
  destruct (negb (_is_subregion_valid self region0 obstacles0)).
  { injection H as <- <-. apply within_none. reflexivity. }
  destruct (axis_selector region0 obstacles0 (metrics self) (numerical_method self))
    as [[[[best_axis best_div_pt] subL] subR]|].
  2:{ injection H as <- <-. apply within_none. reflexivity. }
  destruct (_attempt_partition self (_decompose axis_selector self fuel) region0 obstacles0
              best_axis depth best_div_pt subL subR st) as [[r1 st1]|] eqn:E1;
    [|discriminate].
  apply attempt_out in E1; [|lia|intros; eapply IH; eassumption].
  destruct r1.
  { injection H as <- <-. exact E1. }
  destruct (allow_fallback_axis self).
  2:{ injection H as <- <-. exact E1. }
  rewrite axis_eqb_refl in H.
  injection H as <- <-. exact E1.
Qed.

Lemma count_valid_none (l : list partition) :
  Forall (fun p => valid_flag p = false) l -> count_valid l = 0%nat.
Proof.
  unfold count_valid. induction 1 as [|p l Hp _ IH]; [reflexivity|].
  cbn [filter]. rewrite Hp. exact IH.
Qed.

Lemma run_leaves self :
  exists r leaves,
    _decompose axis_selector self (fuel_for (max_depth self)) (region self)
      (obstacles self) 0%Z (MkStore [] []) = Some (r, MkStore leaves [])
    /\ run axis_selector self =
       Some (if String.eqb (mode self) "track_back" && negb r
             then leaves ++ [root_record self] else leaves)
    /\ appended_within self (2 ^ Z.to_nat (max_depth self)) (MkStore [] []) r
         (MkStore leaves []).
Proof.
  destruct (run_unfold axis_selector self) as (r & st' & E & Hpost & Hrun).
  destruct Hpost as [Hs _]. destruct st' as [leaves stack]. cbn in Hs. subst stack.
  exists r, leaves. split; [exact E|]. split; [exact Hrun|].
  apply decompose_out_holds in E. unfold decompose_out in E.
  rewrite Z.sub_0_r in E. exact E.
Qed.

End Driver.

(** X20.  [run()] returns at most [2 ^ max_depth + 1] partitions, and the flag
    of each of them is what [_is_subregion_valid] says of its region and
    obstacles, but for the record of the root that mode [track_back] adds,
    which is flagged valid without being checked. *)
Theorem run_flags_are_truthful :
  forall (K : Shapely)
         (axis_selector : geom -> list geom -> string -> string -> option choice)
         (self : Decomposition),
    exists out,
      run axis_selector self = Some out
      /\ (List.length out <= 2 ^ Z.to_nat (max_depth self) + 1)%nat
      /\ Forall (fun p => truthful self p \/ p = root_record self) out.
Proof.
  intros K sel self.
  destruct (run_leaves sel self) as (r & leaves & _ & Hrun & new & Hp & Ht & Hl & _).
  cbn in Hp. subst new.
  eexists. split; [exact Hrun|].
  assert (Hleaves : Forall (fun p => truthful self p \/ p = root_record self) leaves).
  { eapply Forall_impl; [|exact Ht]. intros p Hp. left. exact Hp. }
  destruct (_ && _).
  - split; [rewrite length_app; cbn [List.length]; lia|].
    apply Forall_app. split; [exact Hleaves|]. constructor; [right; reflexivity|constructor].
  - split; [lia|exact Hleaves].
Qed.

(** X21.  What [run()] returns is the leaves the recursion stored, followed in
    mode [track_back] by the record of the root when the recursion returned
    false.  When it returned false, no leaf is flagged valid (the root is
    then the only record flagged valid); when it returned true, one leaf is
    flagged valid or was stored by the coverage stop. *)
Theorem run_track_back_root_is_last :
  forall (K : Shapely)
         (axis_selector : geom -> list geom -> string -> string -> option choice)
         (self : Decomposition),
    exists r leaves,
      _decompose axis_selector self (fuel_for (max_depth self)) (region self)
        (obstacles self) 0%Z (MkStore [] []) = Some (r, MkStore leaves [])
      /\ run axis_selector self =
         Some (if String.eqb (mode self) "track_back" && negb r
               then leaves ++ [root_record self] else leaves)
      /\ (r = false -> count_valid leaves = 0%nat)
      /\ (r = true -> Exists valid_or_covered leaves).
Proof.
  intros K sel self.
  destruct (run_leaves sel self) as (r & leaves & E & Hrun & new & Hp & _ & _ & Hf & He).
  cbn in Hp. subst new.
  exists r, leaves. split; [exact E|]. split; [exact Hrun|]. split; [|exact He].
  intros Hr. apply count_valid_none. apply Hf. exact Hr.
Qed.

(** X22.  A region that meets the coverage stop of [_decompose] (at least 90%
    covered, free area and largest free polygon below [DRONE_THRESHOLD]) is
    never valid for [_is_subregion_valid]: [_decompose] stores it flagged
    invalid, and still returns true. *)
Theorem coverage_stop_leaf_is_flagged_invalid :
  forall (K : Shapely)
         (axis_selector : geom -> list geom -> string -> string -> option choice)
         (self : Decomposition) (fuel : nat) (region0 : geom) (obstacles0 : list geom)
         (depth : Z) (st : store),
    is_empty region0 = false ->
    coverage_stop region0 obstacles0 = true ->
    _is_subregion_valid self region0 obstacles0 = false
    /\ _decompose axis_selector self (S fuel) region0 obstacles0 depth st
       = Some (true, append_partition (region0, obstacles0, axis_stack st, false) st).
Proof.
  intros K sel self fuel g o depth st He Hc.
  pose proof (coverage_stop_invalid self g o Hc) as Hv.
  split; [exact Hv|]. cbn [_decompose]. rewrite He.
  change (Qleb COVERAGE_RATIO_STOP _ && _) with (coverage_stop g o).
  rewrite Hc, Hv. reflexivity.
Qed.

(** X23.  On an empty region [run()] stores no leaf: it returns the single
    record of the (empty) root, flagged valid, in mode [track_back], and the
    empty list in any other mode. *)
Theorem run_on_empty_region :
  forall (K : Shapely)
         (axis_selector : geom -> list geom -> string -> string -> option choice)
         (self : Decomposition),
    is_empty (region self) = true ->
    run axis_selector self
    = Some (if String.eqb (mode self) "track_back" then [root_record self] else []).
Proof.
  intros K sel self He. unfold run, run_from, fuel_for. cbn [_decompose].
  rewrite He. cbn. destruct (String.eqb _ _); reflexivity.
Qed.

(** X24.  With [max_depth <= 0], on a region that is not empty and does not
    meet the coverage stop, [run()] stores the root with the flag
    [_is_subregion_valid] gives it; when that flag is false, mode
    [track_back] stores the root a second time, flagged valid. *)
Theorem run_with_no_depth_left :
  forall (K : Shapely)
         (axis_selector : geom -> list geom -> string -> string -> option choice)
         (self : Decomposition),
    (max_depth self <= 0)%Z ->
    is_empty (region self) = false ->
    coverage_stop (region self) (obstacles self) = false ->
    run axis_selector self
    = Some (if _is_subregion_valid self (region self) (obstacles self)
            then [(region self, obstacles self, [], true)]
            else if String.eqb (mode self) "track_back"
                 then [(region self, obstacles self, [], false); root_record self]
                 else [(region self, obstacles self, [], false)]).
Proof.
  intros K sel self Hd He Hc. unfold run, run_from, fuel_for. cbn [_decompose].
  rewrite He.
  change (Qleb COVERAGE_RATIO_STOP _ && _)
    with (coverage_stop (region self) (obstacles self)).
  rewrite Hc.
  assert (E : (max_depth self <=? 0)%Z = true) by (apply Z.leb_le; exact Hd).
  rewrite E. cbn.
  destruct (_is_subregion_valid self (region self) (obstacles self));
    destruct (String.eqb _ _); reflexivity.
Qed.


Import BoxGeometry Scenarios.
Lemma coverage_stop_leaf_is_flagged_invalid_witness :
  _is_subregion_valid (square_run 3 true "track_back") covered_region [covering_obstacle]
    = false
  /\ _decompose halving_selector (square_run 3 true "track_back") 1
       covered_region [covering_obstacle] 0 (MkStore [] [])
     = Some (true, MkStore [(covered_region, [covering_obstacle], [], false)] []).
Proof.
  apply (coverage_stop_leaf_is_flagged_invalid shapely halving_selector
           (square_run 3 true "track_back") 0 covered_region [covering_obstacle] 0
           (MkStore [] [])).
  - reflexivity.
  - vm_compute. reflexivity.
Defined.

Lemma run_on_empty_region_witness :
  run halving_selector (run_on Empty 3) = Some [(Empty, [], [], true)].
Proof.
  apply (run_on_empty_region shapely halving_selector (run_on Empty 3)).
  reflexivity.
Defined.

Lemma run_with_no_depth_left_witness :
  run halving_selector (run_on sliver_region 0)
  = Some [(sliver_region, [], [], false); (sliver_region, [], [], true)].
Proof.
  apply (run_with_no_depth_left shapely halving_selector (run_on sliver_region 0)).
  - discriminate.
  - reflexivity.
  - vm_compute. reflexivity.
Defined.

End DriverOutput.

(** ** The metrics argument *)

Module MetricsArgument.
Import Py PyFacts HierarchicalDecomposition DriverSpec DriverProofs.
Local Open Scope string_scope.

Section Driver.
Context {K : Shapely}.

Lemma user_metric_forced (region0 : geom) (obstacles0 : list geom) (um nm : string) :
  OptimalAxisSelection.user_metric (OptimalAxisSelection.__init__ region0 obstacles0 um nm)
  = "NWCRT".
Proof.
  unfold OptimalAxisSelection.__init__. cbn [OptimalAxisSelection.user_metric].
  destruct (String.eqb um "NWCRT") eqn:E; [|reflexivity].
  apply String.eqb_eq in E. exact E.
Qed.

Lemma selector_ignores_metric (region0 : geom) (obstacles0 : list geom) (um um' nm : string) :
  optimal_axis_selector region0 obstacles0 um nm
  = optimal_axis_selector region0 obstacles0 um' nm.
Proof. reflexivity. Qed.

Variable axis_selector : geom -> list geom -> string -> string -> option choice.
Hypothesis selector_ignores :
  forall g o um um' nm, axis_selector g o um nm = axis_selector g o um' nm.

Lemma decompose_metrics_irrelevant self m : forall fuel region0 obstacles0 depth st,
  _decompose axis_selector (with_metrics self m) fuel region0 obstacles0 depth st
  = _decompose axis_selector self fuel region0 obstacles0 depth st.
Proof.
  induction fuel as [|fuel IH]; intros region0 obstacles0 depth st; [reflexivity|].
  cbn [_decompose].
  change (_is_subregion_valid (with_metrics self m)) with (_is_subregion_valid self).
  change (max_depth (with_metrics self m)) with (max_depth self).
  change (metrics (with_metrics self m)) with m.
  change (numerical_method (with_metrics self m)) with (numerical_method self).
  change (allow_fallback_axis (with_metrics self m)) with (allow_fallback_axis self).
  change (_attempt_partition (with_metrics self m)) with (_attempt_partition self).
  rewrite (selector_ignores region0 obstacles0 m (metrics self)).
  destruct (is_empty region0); [reflexivity|].
  destruct (Qleb COVERAGE_RATIO_STOP _ && _); [reflexivity|].
  destruct (max_depth self <=? depth)%Z; [reflexivity|].
  destruct (negb (_is_subregion_valid self region0 obstacles0)); [reflexivity|].
  destruct (axis_selector region0 obstacles0 (metrics self) (numerical_method self))
    as [[[[best_axis best_div_pt] subL] subR]|]; [|reflexivity].
  rewrite (attempt_ext self _ (_decompose axis_selector self fuel)) by (intros; apply IH).
  destruct (_attempt_partition _ _ _ _ _ _ _ _ _ _) as [[[|] s1]|]; try reflexivity.
  destruct (allow_fallback_axis self); [|reflexivity].
  rewrite !axis_eqb_refl. reflexivity.
Qed.

End Driver.

(** X25.  [OptimalAxisSelection] forces its [user_metric] to ["NWCRT"], and
    [select_best_axis] does not read it: the partitions
    [HierarchicalDecomposition(...).run()] returns are the same for every
    value of the [metrics] argument. *)
Theorem metrics_argument_is_ignored :
  forall (K : Shapely) (region0 : geom) (obstacles0 : list geom) (max_depth0 : Z)
         (metrics1 metrics2 numerical_method0 : string) (min_dimension_threshold0 : Q)
         (check_connectivity0 allow_fallback_axis0 : bool) (mode0 : string),
    (forall um, OptimalAxisSelection.user_metric
                  (OptimalAxisSelection.__init__ region0 obstacles0 um numerical_method0)
                = "NWCRT")
    /\ decompose_region region0 obstacles0 max_depth0 metrics1 numerical_method0
         min_dimension_threshold0 check_connectivity0 allow_fallback_axis0 mode0
       = decompose_region region0 obstacles0 max_depth0 metrics2 numerical_method0
           min_dimension_threshold0 check_connectivity0 allow_fallback_axis0 mode0.
Proof.
  intros K region0 obstacles0 d m1 m2 nm thr cc fb mode0.
  split; [intros um; apply user_metric_forced|].
  unfold decompose_region, HierarchicalDecomposition.__init__, run_from.
  set (self2 := MkDecomposition _ _ d m2 nm thr cc fb mode0).
  change (MkDecomposition (_validate_geometry region0) (map _validate_geometry obstacles0)
            d m1 nm thr cc fb mode0) with (with_metrics self2 m1).
  change (max_depth (with_metrics self2 m1)) with (max_depth self2).
  change (region (with_metrics self2 m1)) with (region self2).
  change (obstacles (with_metrics self2 m1)) with (obstacles self2).
  change (mode (with_metrics self2 m1)) with (mode self2).
  rewrite (decompose_metrics_irrelevant optimal_axis_selector selector_ignores_metric).
  reflexivity.
Qed.

End MetricsArgument.

(** ** The kd-tree partitioner *)

Module KDTreeProofs.
Import Py PyFacts StripPerimeter KDTreePartitioning.
Import DriverOutput.

Section KD.
Context {K : Shapely}.
Variable self : KDTree.

Ltac kd_leaf :=
  eexists; split; [reflexivity|];
  split; [discriminate|cbn [List.length]; apply pow2_pos].

Lemma kd_tree_partition_appends : forall fuel depth,
  (Z.to_nat depth < fuel)%nat ->
  forall region0 obstacles0 ax ps,
  exists new,
    kd_tree_partition fuel self region0 obstacles0 depth ax ps = Some (ps ++ new)
    /\ new <> []
    /\ (List.length new <= 2 ^ Z.to_nat depth)%nat.
Proof.
  induction fuel as [|fuel IH]; intros depth Hf region0 obstacles0 ax ps; [lia|].
  cbn [kd_tree_partition].
  destruct (depth <=? 0)%Z eqn:Ed; cbn [orb]; [kd_leaf|].
  apply Z.leb_gt in Ed.
  destruct (Qltb (area region0) (min_area_threshold self)); [kd_leaf|].
  destruct (validate_geometry region0) as [region1|]; [|kd_leaf].
  destruct (advanced_checks self && _check_coverage_and_stop region1 obstacles0);
    [kd_leaf|].
  destruct (find_division_point _ _ _) as [division_point|]; [|kd_leaf].
  destruct (ObstacleAwareDivider.divide_region _ _)
    as [[[R_left left_obstacles] [R_right right_obstacles]]|e]; [|kd_leaf].
  set (m := Z.to_nat (depth - 1)).
  assert (Hm : Z.to_nat depth = S m) by (unfold m; lia).
  assert (Hrec : forall g o a p, exists new,
            kd_tree_partition fuel self g o (depth - 1)%Z a p = Some (p ++ new)
            /\ new <> [] /\ (List.length new <= 2 ^ m)%nat).
  { intros g o a p. apply IH. lia. }
  rewrite Hm. cbn [Nat.pow].
  destruct (drop_narrow self _) as [rl|]; destruct (drop_narrow self _) as [rr|].
  - destruct (Hrec rl left_obstacles (match ax with X => Y | Y => X end) ps)
      as (n1 & E1 & Hn1 & Hl1).
    rewrite E1.
    destruct (Hrec rr right_obstacles (match ax with X => Y | Y => X end) (ps ++ n1))
      as (n2 & E2 & Hn2 & Hl2).
    rewrite E2. exists (n1 ++ n2). rewrite app_assoc. split; [reflexivity|].
    split; [destruct n1; [contradiction|discriminate]|rewrite length_app; lia].
  - destruct (Hrec rl left_obstacles (match ax with X => Y | Y => X end) ps)
      as (n1 & E1 & Hn1 & Hl1).
    rewrite E1. exists n1. split; [reflexivity|]. split; [exact Hn1|lia].
  - destruct (Hrec rr right_obstacles (match ax with X => Y | Y => X end) ps)
      as (n2 & E2 & Hn2 & Hl2).
    rewrite E2. exists n2. split; [reflexivity|]. split; [exact Hn2|lia].
  - eexists; split; [reflexivity|]. split; [discriminate|].
    cbn [List.length]. pose proof (pow2_pos m). lia.
Qed.

End KD.

(** X26.  [KDTreePartitioning.run()] returns for every region and every
    [max_depth] (also a negative one), appends at least one partition to
    those it holds, and at most [2 ^ max_depth]. *)
Theorem kd_tree_run_stores_a_partition :
  forall (K : Shapely) (self : KDTree) (partitions : list partition),
    exists new,
      run self partitions = Some (partitions ++ new)
      /\ new <> []
      /\ (List.length new <= 2 ^ Z.to_nat (max_depth self))%nat.
Proof.
  intros K self ps. unfold run. apply kd_tree_partition_appends.
  unfold fuel_for. lia.
Qed.

(** X27.  With [max_depth <= 0], or a region whose area is below
    [min_area_threshold], [KDTreePartitioning.run()] stores the region it
    was built with, with all its obstacles, as its only partition. *)
Theorem kd_tree_run_keeps_a_small_region_whole :
  forall (K : Shapely) (self : KDTree) (partitions : list partition),
    (max_depth self <= 0)%Z \/ area (region self) < min_area_threshold self ->
    run self partitions = Some (partitions ++ [(Some (region self), obstacles self)]).
Proof.
  intros K self ps H. unfold run, fuel_for. cbn [kd_tree_partition].
  destruct H as [H|H].
  - assert (E : (max_depth self <=? 0)%Z = true) by (apply Z.leb_le; exact H).
    rewrite E. reflexivity.
  - assert (E : Qltb (area (region self)) (min_area_threshold self) = true)
      by (apply Qltb_true; exact H).
    rewrite E, orb_true_r. reflexivity.
Qed.

Import BoxGeometry Scenarios.

Lemma kd_tree_run_keeps_a_small_region_whole_witness :
  run (fst (KDTreePartitioning.__init__ (K := shapely) square_region [] 0 (1 # 1000)
              false false)) []
  = Some [(Some square_region, [])].
Proof.
  apply (kd_tree_run_keeps_a_small_region_whole shapely
           (fst (KDTreePartitioning.__init__ (K := shapely) square_region [] 0 (1 # 1000)
                   false false)) []).
  left. discriminate.
Defined.

End KDTreeProofs.

(** ** The aspect ratio of a partition *)

Module AspectRatio.
Import Py PyFacts SavePartitions OptimalAxisSelection.

Lemma aspect_ratio_regular {K : Shapely} (geometry : geom) (eps minx miny maxx maxy : Q) :
  bounds geometry = (minx, miny, maxx, maxy) ->
  0 < eps -> eps <= Qabs (maxx - minx) -> eps <= Qabs (maxy - miny) ->
  compute_aspect_ratio geometry eps
  = Ok (pymin ((maxx - minx) / (maxy - miny)) ((maxy - miny) / (maxx - minx))).
Proof.
  intros Hb Heps Hw Hh. unfold compute_aspect_ratio. rewrite Hb.
  set (w := maxx - minx) in *. set (h := maxy - miny) in *.
  assert (E1 : Qltb (Qabs w) eps = false) by (apply Qltb_false; exact Hw).
  assert (E2 : Qltb (Qabs h) eps = false) by (apply Qltb_false; exact Hh).
  rewrite E1, E2. cbn [orb].
  assert (Hw0 : ~ w == 0).
  { intros Hz. assert (Qabs w == 0) by (rewrite Hz; reflexivity). lra. }
  assert (Hh0 : ~ h == 0).
  { intros Hz. assert (Qabs h == 0) by (rewrite Hz; reflexivity). lra. }
  rewrite (div_ok w h Hh0), (div_ok h w Hw0). reflexivity.
Qed.

Lemma pymin_ratio (w h : Q) :
  0 < w -> 0 < h ->
  (w <= h -> pymin (w / h) (h / w) = w / h /\ w / h <= 1)
  /\ (h < w -> pymin (w / h) (h / w) = h / w /\ h / w < 1 /\ 1 < w / h).
Proof.
  intros Hw Hh. unfold pymin. split.
  - intros Hle.
    assert (w / h <= 1) by (apply Qle_shift_div_r; lra).
    assert (1 <= h / w) by (apply Qle_shift_div_l; lra).
    assert (E : Qltb (h / w) (w / h) = false) by (apply Qltb_false; lra).
    rewrite E. split; [reflexivity|assumption].
  - intros Hlt.
    assert (h / w < 1) by (apply Qlt_shift_div_r; lra).
    assert (1 < w / h) by (apply Qlt_shift_div_l; lra).
    assert (E : Qltb (h / w) (w / h) = true) by (apply Qltb_true; lra).
    rewrite E. repeat split; assumption.
Qed.


(** X28.  [compute_aspect_ratio] with a positive [eps] never divides by zero.
    It returns [1.0] when the width or the height of the bounding box is
    below [eps] in absolute value; when both are at least [eps] it returns
    the smaller of [w / h] and [h / w], a value in [(0, 1]]. *)
Theorem compute_aspect_ratio_range :
  forall (K : Shapely) (geometry : geom) (eps minx miny maxx maxy : Q),
    bounds geometry = (minx, miny, maxx, maxy) ->
    0 < eps ->
    let w := maxx - minx in
    let h := maxy - miny in
    exists r,
      compute_aspect_ratio geometry eps = Ok r
      /\ (Qabs w < eps \/ Qabs h < eps -> r = 1)
      /\ (eps <= w -> eps <= h ->
          0 < r /\ r <= 1
          /\ (w <= h -> r = w / h) /\ (h < w -> r = h / w)).
Proof.
  intros K geometry eps minx miny maxx maxy Hb Heps w h.
  destruct (Qltb (Qabs w) eps || Qltb (Qabs h) eps) eqn:E.
  - exists 1. split; [unfold compute_aspect_ratio; rewrite Hb; fold w h; rewrite E; reflexivity|].
    split; [reflexivity|].
    intros Hw Hh. exfalso.
    apply orb_true_iff in E. destruct E as [E|E]; apply Qltb_true in E;
      rewrite Qabs_pos in E by lra; lra.
  - apply orb_false_iff in E. destruct E as [E1 E2]. apply Qltb_false in E1, E2.
    eexists. split; [apply (aspect_ratio_regular geometry eps _ _ _ _ Hb Heps E1 E2)|].
    fold w h. split; [intros [H|H]; lra|].
    intros Hw Hh.
    destruct (pymin_ratio w h) as [H1 H2]; [lra|lra|].
    assert (Hwh : 0 < w / h) by (apply Qlt_shift_div_l; lra).
    assert (Hhw : 0 < h / w) by (apply Qlt_shift_div_l; lra).
    destruct (Qlt_le_dec h w) as [Hlt|Hle].
    + destruct (H2 Hlt) as (-> & Hr & _).
      split; [exact Hhw|]. split; [lra|]. split; [intros; lra|reflexivity].
    + destruct (H1 Hle) as (-> & Hr).
      split; [exact Hwh|]. split; [exact Hr|]. split; [reflexivity|intros; lra].
Qed.


Import BoxGeometry Scenarios.

Lemma compute_aspect_ratio_range_witness :
  exists r,
    compute_aspect_ratio (rectangle 0 0 2 1) default_eps = Ok r
    /\ 0 < r /\ r <= 1 /\ r = (1 - 0) / (2 - 0).
Proof.
  destruct (compute_aspect_ratio_range shapely (rectangle 0 0 2 1) default_eps 0 0 2 1)
    as (r & Hr & _ & H); [reflexivity|reflexivity|].
  exists r. split; [exact Hr|].
  destruct H as (H1 & H2 & _ & H4); [vm_compute; discriminate|vm_compute; discriminate|].
  split; [exact H1|]. split; [exact H2|]. apply H4. reflexivity.
Defined.


End AspectRatio.
